(** * ECMA string descriptors of jerry-core (ecma-helpers-string.c)

    A shallow embedding of the string value representation: the descriptor
    record, the heap it points into, the constructors, the reference counter,
    materialisation, comparison, concatenation and substrings, followed by
    the properties stated about them. *)

From Stdlib Require Import ZArith List Lia Bool.
From stdpp Require Import base option list numbers gmap fin_maps infinite.

Local Open Scope Z_scope.

(** ** Data model *)

(** [ecma_string_container_t]: where the characters of a string live. *)
Inductive ecma_string_container_t :=
| ECMA_STRING_CONTAINER_LIT_TABLE
| ECMA_STRING_CONTAINER_HEAP_CHUNKS
| ECMA_STRING_CONTAINER_HEAP_NUMBER
| ECMA_STRING_CONTAINER_UINT32_IN_DESC
| ECMA_STRING_CONTAINER_MAGIC_STRING
| ECMA_STRING_CONTAINER_MAGIC_STRING_EX.

Global Instance ecma_string_container_eq_dec : EqDecision ecma_string_container_t.
Proof. solve_decision. Defined.

(** Bytes ([lit_utf8_byte_t]) are 8-bit values kept in [Z]; an engine number
    ([ecma_number_t]) is carried as its IEEE bit pattern, also a [Z], and is
    only ever handed to the external conversion routines. *)

(** [ecma_string_t].  The union [u] is kept as the one word [common_field]
    through which the source reads it in the fast comparison; every
    constructor clears the word before it stores a compressed pointer, an
    identifier or a number in it. *)
Record ecma_string_t := mk_ecma_string {
  refs : Z;
  container : ecma_string_container_t;
  hash : Z;
  common_field : Z
}.

(** A block obtained from [mem_heap_alloc_block] for a string: the
    [ecma_string_heap_header_t] ([size], [length], both [uint16_t]) followed
    by the bytes. *)
Record ecma_string_heap_chunk := mk_chunk {
  data_size : Z;
  data_length : Z;
  data_bytes : list Z
}.

(** The allocator's view: the descriptor pool, the chunk blocks, the number
    cells, and the blocks of plain bytes that serve as scratch buffers while
    an operation runs, each keyed by the (compressed) pointer.  Chunk blocks
    and scratch blocks come from the same heap ([mem_heap_alloc_block]). *)
Record ecma_heap := mk_heap {
  strings : gmap Z ecma_string_t;
  chunks : gmap Z ecma_string_heap_chunk;
  numbers : gmap Z Z;
  blocks : gmap Z (list Z)
}.

(** A record of the literal storage. *)
Inductive lit_literal_t :=
| LIT_RECORD_CHARSET (charset : list Z) (charset_hash : Z)
| LIT_RECORD_MAGIC_STR (magic_str_id : Z)
| LIT_RECORD_MAGIC_STR_EX (magic_str_ex_id : Z).

(** What the file takes from the rest of the engine: the build mode
    ([JERRY_NDEBUG] defined or not), configuration constants, the hash, the
    two magic string tables, the literal storage, the codec's width of a
    code unit, the number conversions and the collector.  None of them is
    defined in ecma-helpers-string.c. *)
Record externals := mk_externals {
  JERRY_NDEBUG : bool;
  CONFIG_ECMA_REFERENCE_COUNTER_WIDTH : Z;
  lit_utf8_string_calc_hash : list Z → Z;
  lit_utf8_string_hash_combine : Z → list Z → Z;
  lit_magic_strings : list (list Z);
  lit_magic_strings_ex : list (list Z);
  LIT_MAGIC_STRING__EMPTY : Z;
  LIT_MAGIC_STRING_LENGTH_LIMIT : Z;
  lit_get_literal_by_cp : Z → option lit_literal_t;
  lit_get_unicode_char_size_by_utf8_first_byte : Z → nat;
  ecma_number_to_uint32 : Z → Z;
  ecma_uint32_to_number : Z → Z;
  ecma_number_eq : Z → Z → bool;
  ecma_number_is_nan : Z → bool;
  ecma_number_to_utf8_string : Z → list Z;
  ecma_utf8_string_to_number : list Z → Z;
  ECMA_NUMBER_ZERO : Z;
  ecma_gc_run : ecma_heap → ecma_heap
}.

(** Modelled from the spec: [sizeof (ecma_string_heap_header_t)]; the header
    (declared in ecma-globals.h) holds the byte-size and the code-unit
    length, two [uint16_t]. *)
Definition sizeof_ecma_string_heap_header_t : Z := 4.

(** [(uint16_t) x] and [(uint32_t) x]. *)
Definition to_uint16 (x : Z) : Z := x mod 2 ^ 16.
Definition to_uint32 (x : Z) : Z := x mod 2 ^ 32.

(** Modelled from the spec: the reserved sentinel [2^32 - 1] of the array
    index test; the macro itself is declared in ecma-globals.h. *)
Definition ECMA_MAX_VALUE_OF_VALID_ARRAY_INDEX : Z := 2 ^ 32 - 1.

(** [memcpy (dst, src, n)] with [n] the length of [src]: the first bytes of
    the destination are replaced, the rest is kept. *)
Definition memcpy (dst src : list Z) : list Z :=
  src ++ drop (length src) dst.

(** ** Lengths of numbers kept in the descriptor *)

Definition nums_with_ascending_length : list Z :=
  [1; 10; 100; 1000; 10000; 100000; 1000000; 10000000; 100000000; 1000000000].

Definition max_uint32_len : Z := Z.of_nat (length nums_with_ascending_length).

(** The loop of [ecma_string_get_number_in_desc_size]: [tbl] is the part of
    the table from index [size] on, so the test [size < max_uint32_len] is
    the test that [tbl] is not exhausted. *)
Fixpoint number_in_desc_size_loop (tbl : list Z) (size : Z) (uint32_number : Z) : Z :=
  match tbl with
  | [] => size
  | bound :: tbl' =>
      if bound <=? uint32_number
      then number_in_desc_size_loop tbl' (size + 1) uint32_number
      else size
  end.

Definition ecma_string_get_number_in_desc_size (uint32_number : Z) : Z :=
  number_in_desc_size_loop (drop 1 nums_with_ascending_length) 1 uint32_number.

(** Modelled from the spec: the engine's uint32-to-decimal formatter
    [ecma_uint32_to_utf8_string] (ecma-helpers-conversion.c); it produces the
    decimal digits of the number, most significant first, as ASCII bytes. *)
Fixpoint uint32_digits (fuel : nat) (n : Z) (acc : list Z) : list Z :=
  match fuel with
  | O => acc
  | S fuel' =>
      let acc' := (48 + n mod 10) :: acc in
      if n / 10 =? 0 then acc' else uint32_digits fuel' (n / 10) acc'
  end.

Definition ecma_uint32_to_utf8_string (uint32_number : Z) : list Z :=
  uint32_digits 10 uint32_number [].

Section Engine.

Variable E : externals.

(** ** Magic string tables *)

(** Modelled from the spec: the magic tables are exposed as id → bytes, size
    and count; [lit_is_utf8_string_magic] (lit-magic-strings.c) scans the
    identifiers in increasing order and reports the first entry whose bytes
    equal the key. *)
Definition magic_table_find (tbl : list (list Z)) (key : list Z) : option Z :=
  (λ hit : nat * list Z, Z.of_nat hit.1) <$> list_find (λ m, m = key) tbl.

Definition magic_table_get (tbl : list (list Z)) (id : Z) : option (list Z) :=
  if bool_decide (0 ≤ id) then tbl !! Z.to_nat id else None.

Definition lit_is_utf8_string_magic (key : list Z) : option Z :=
  magic_table_find (lit_magic_strings E) key.

Definition lit_is_ex_utf8_string_magic (key : list Z) : option Z :=
  magic_table_find (lit_magic_strings_ex E) key.

Definition lit_get_magic_string_utf8 (id : Z) : option (list Z) :=
  magic_table_get (lit_magic_strings E) id.

Definition lit_get_magic_string_ex_utf8 (id : Z) : option (list Z) :=
  magic_table_get (lit_magic_strings_ex E) id.

Definition lit_get_magic_string_size (id : Z) : option Z :=
  (λ m : list Z, Z.of_nat (length m)) <$> lit_get_magic_string_utf8 id.

Definition lit_get_magic_string_ex_size (id : Z) : option Z :=
  (λ m : list Z, Z.of_nat (length m)) <$> lit_get_magic_string_ex_utf8 id.

(** Modelled from the spec: the count each table exposes, the number of its
    entries. *)
Definition LIT_MAGIC_STRING__COUNT : Z := Z.of_nat (length (lit_magic_strings E)).
Definition lit_get_magic_string_ex_count : Z := Z.of_nat (length (lit_magic_strings_ex E)).

(** ** Assertions *)

(** [JERRY_ASSERT (x)]: nothing in a build with [JERRY_NDEBUG], where the
    condition is not evaluated; otherwise the condition is evaluated and the
    engine stops ([None]) unless it holds.  The operations below that do not
    mention it are written for conditions that hold. *)
Definition JERRY_ASSERT (x : option bool) : option unit :=
  if JERRY_NDEBUG E then Some tt
  else match x with
       | Some true => Some tt
       | _ => None
       end.

(** ** Codec *)

(** Modelled from the spec: [lit_utf8_string_length] (lit-strings.c), the
    number of code units of a byte slice, obtained by stepping over the
    slice with the width of the unit that starts at each position. *)
Fixpoint utf8_string_length_loop (fuel : nat) (bytes : list Z) (len : Z) : Z :=
  match fuel with
  | O => len
  | S fuel' =>
      match bytes with
      | [] => len
      | first :: _ =>
          utf8_string_length_loop fuel'
            (drop (lit_get_unicode_char_size_by_utf8_first_byte E first) bytes)
            (len + 1)
      end
  end.

Definition lit_utf8_string_length (bytes : list Z) : Z :=
  utf8_string_length_loop (length bytes) bytes 0.

(** The charset of a literal; [None] stands for the failed assertion
    [LIT_RECORD_IS_CHARSET (lit)]. *)
Definition lit_charset_literal_get_charset (lit_cp : Z) : option (list Z) :=
  match lit_get_literal_by_cp E lit_cp with
  | Some (LIT_RECORD_CHARSET charset _) => Some charset
  | _ => None
  end.

(** ** Size and length *)

Definition ecma_string_get_heap_number_size (h : ecma_heap) (number_cp : Z) : option Z :=
  num ← numbers h !! number_cp;
  Some (Z.of_nat (length (ecma_number_to_utf8_string E num))).

Definition ecma_string_get_size (h : ecma_heap) (string_p : ecma_string_t) : option Z :=
  match container string_p with
  | ECMA_STRING_CONTAINER_LIT_TABLE =>
      charset ← lit_charset_literal_get_charset (common_field string_p);
      Some (Z.of_nat (length charset))
  | ECMA_STRING_CONTAINER_MAGIC_STRING =>
      lit_get_magic_string_size (common_field string_p)
  | ECMA_STRING_CONTAINER_MAGIC_STRING_EX =>
      lit_get_magic_string_ex_size (common_field string_p)
  | ECMA_STRING_CONTAINER_UINT32_IN_DESC =>
      Some (ecma_string_get_number_in_desc_size (common_field string_p))
  | ECMA_STRING_CONTAINER_HEAP_NUMBER =>
      ecma_string_get_heap_number_size h (common_field string_p)
  | ECMA_STRING_CONTAINER_HEAP_CHUNKS =>
      data_p ← chunks h !! common_field string_p;
      Some (data_size data_p)
  end.

Definition ecma_string_get_length (h : ecma_heap) (string_p : ecma_string_t) : option Z :=
  match container string_p with
  | ECMA_STRING_CONTAINER_LIT_TABLE =>
      charset ← lit_charset_literal_get_charset (common_field string_p);
      Some (lit_utf8_string_length charset)
  | ECMA_STRING_CONTAINER_MAGIC_STRING =>
      lit_utf8_string_length <$> lit_get_magic_string_utf8 (common_field string_p)
  | ECMA_STRING_CONTAINER_MAGIC_STRING_EX =>
      lit_utf8_string_length <$> lit_get_magic_string_ex_utf8 (common_field string_p)
  | ECMA_STRING_CONTAINER_UINT32_IN_DESC =>
      Some (ecma_string_get_number_in_desc_size (common_field string_p))
  | ECMA_STRING_CONTAINER_HEAP_NUMBER =>
      ecma_string_get_heap_number_size h (common_field string_p)
  | ECMA_STRING_CONTAINER_HEAP_CHUNKS =>
      data_p ← chunks h !! common_field string_p;
      Some (data_length data_p)
  end.

(** ** Materialisation *)

(** The bytes the [switch] of [ecma_string_to_utf8_string] copies into the
    buffer, per container. *)
Definition ecma_string_copied_bytes (h : ecma_heap) (string_desc_p : ecma_string_t)
  : option (list Z) :=
  match container string_desc_p with
  | ECMA_STRING_CONTAINER_HEAP_CHUNKS =>
      data_p ← chunks h !! common_field string_desc_p;
      Some (take (Z.to_nat (data_size data_p)) (data_bytes data_p))
  | ECMA_STRING_CONTAINER_LIT_TABLE =>
      lit_charset_literal_get_charset (common_field string_desc_p)
  | ECMA_STRING_CONTAINER_UINT32_IN_DESC =>
      Some (ecma_uint32_to_utf8_string (common_field string_desc_p))
  | ECMA_STRING_CONTAINER_HEAP_NUMBER =>
      num ← numbers h !! common_field string_desc_p;
      Some (ecma_number_to_utf8_string E num)
  | ECMA_STRING_CONTAINER_MAGIC_STRING =>
      lit_get_magic_string_utf8 (common_field string_desc_p)
  | ECMA_STRING_CONTAINER_MAGIC_STRING_EX =>
      lit_get_magic_string_ex_utf8 (common_field string_desc_p)
  end.

(** [ecma_string_to_utf8_string]: the returned pair is the [ssize_t] result
    and the buffer after the call. *)
Definition ecma_string_to_utf8_string (h : ecma_heap) (string_desc_p : ecma_string_t)
    (buffer : list Z) (buffer_size : Z) : option (Z * list Z) :=
  required_buffer_size ← ecma_string_get_size h string_desc_p;
  if (buffer_size <? required_buffer_size) || (buffer_size =? 0)
  then Some (- required_buffer_size, buffer)
  else
    copied ← ecma_string_copied_bytes h string_desc_p;
    Some (required_buffer_size, memcpy buffer copied).

(** ** Allocation *)

(** Modelled from the spec: the block allocator, the descriptor pool and the
    number cell pool hand out an address that is not in use and is not
    [NULL]; running out of memory is the allocator's concern.
    [mem_heap_alloc_block (size)] is given the size of the block, and the
    block then stored at the address has that size: the header and the bytes
    of a chunk, or the bytes of a scratch buffer. *)
Definition ecma_alloc_string (h : ecma_heap) : Z := fresh ({[0]} ∪ dom (strings h)).
Definition mem_heap_alloc_block (h : ecma_heap) (size : Z) : Z :=
  fresh ({[0]} ∪ dom (chunks h) ∪ dom (blocks h)).
Definition ecma_alloc_number (h : ecma_heap) : Z := fresh ({[0]} ∪ dom (numbers h)).

Definition heap_set_string (p : Z) (s : ecma_string_t) (h : ecma_heap) : ecma_heap :=
  mk_heap (<[p := s]> (strings h)) (chunks h) (numbers h) (blocks h).
Definition heap_set_chunk (p : Z) (c : ecma_string_heap_chunk) (h : ecma_heap) : ecma_heap :=
  mk_heap (strings h) (<[p := c]> (chunks h)) (numbers h) (blocks h).
Definition heap_set_number (p : Z) (n : Z) (h : ecma_heap) : ecma_heap :=
  mk_heap (strings h) (chunks h) (<[p := n]> (numbers h)) (blocks h).
Definition heap_set_block (p : Z) (b : list Z) (h : ecma_heap) : ecma_heap :=
  mk_heap (strings h) (chunks h) (numbers h) (<[p := b]> (blocks h)).
Definition ecma_dealloc_string (p : Z) (h : ecma_heap) : ecma_heap :=
  mk_heap (delete p (strings h)) (chunks h) (numbers h) (blocks h).
Definition ecma_dealloc_number (p : Z) (h : ecma_heap) : ecma_heap :=
  mk_heap (strings h) (chunks h) (delete p (numbers h)) (blocks h).

(** Modelled from the spec: [mem_heap_free_block (ptr, size)] gives back the
    block at [ptr]; the size passed must be the size the block was allocated
    with (the exact byte-sizes are passed back on free).  [None] is a free
    of an address that holds no block, or with another size. *)
Definition mem_heap_free_block (p : Z) (size : Z) (h : ecma_heap) : option ecma_heap :=
  match chunks h !! p with
  | Some c =>
      if size =? Z.of_nat (length (data_bytes c)) + sizeof_ecma_string_heap_header_t
      then Some (mk_heap (strings h) (delete p (chunks h)) (numbers h) (blocks h))
      else None
  | None =>
      b ← blocks h !! p;
      if size =? Z.of_nat (length b)
      then Some (mk_heap (strings h) (chunks h) (numbers h) (delete p (blocks h)))
      else None
  end.

Definition set_refs (s : ecma_string_t) (r : Z) : ecma_string_t :=
  mk_ecma_string r (container s) (hash s) (common_field s).
Definition set_collection_cp (s : ecma_string_t) (cp : Z) : ecma_string_t :=
  mk_ecma_string (refs s) (container s) (hash s) cp.

(** The reference counter is a bit field of
    [CONFIG_ECMA_REFERENCE_COUNTER_WIDTH] bits. *)
Definition to_refs (x : Z) : Z := x mod 2 ^ CONFIG_ECMA_REFERENCE_COUNTER_WIDTH E.

(** ** Constructors *)

Definition ecma_init_ecma_string_from_magic_string_id (magic_string_id : Z)
  : option ecma_string_t :=
  bytes ← lit_get_magic_string_utf8 magic_string_id;
  Some (mk_ecma_string 1 ECMA_STRING_CONTAINER_MAGIC_STRING
          (lit_utf8_string_calc_hash E bytes) magic_string_id).

Definition ecma_init_ecma_string_from_magic_string_ex_id (magic_string_ex_id : Z)
  : option ecma_string_t :=
  bytes ← lit_get_magic_string_ex_utf8 magic_string_ex_id;
  Some (mk_ecma_string 1 ECMA_STRING_CONTAINER_MAGIC_STRING_EX
          (lit_utf8_string_calc_hash E bytes) magic_string_ex_id).

Definition ecma_init_ecma_string_from_lit_cp (lit_cp : Z) : option ecma_string_t :=
  lit ← lit_get_literal_by_cp E lit_cp;
  match lit with
  | LIT_RECORD_MAGIC_STR id => ecma_init_ecma_string_from_magic_string_id id
  | LIT_RECORD_MAGIC_STR_EX id => ecma_init_ecma_string_from_magic_string_ex_id id
  | LIT_RECORD_CHARSET _ charset_hash =>
      Some (mk_ecma_string 1 ECMA_STRING_CONTAINER_LIT_TABLE charset_hash lit_cp)
  end.

Definition ecma_new_ecma_string_from_lit_cp (h : ecma_heap) (lit_cp : Z)
  : option (Z * ecma_heap) :=
  let string_desc_p := ecma_alloc_string h in
  s ← ecma_init_ecma_string_from_lit_cp lit_cp;
  Some (string_desc_p, heap_set_string string_desc_p s h).

Definition ecma_new_ecma_string_from_magic_string_id (h : ecma_heap) (id : Z)
  : option (Z * ecma_heap) :=
  let string_desc_p := ecma_alloc_string h in
  s ← ecma_init_ecma_string_from_magic_string_id id;
  Some (string_desc_p, heap_set_string string_desc_p s h).

Definition ecma_new_ecma_string_from_magic_string_ex_id (h : ecma_heap) (id : Z)
  : option (Z * ecma_heap) :=
  let string_desc_p := ecma_alloc_string h in
  s ← ecma_init_ecma_string_from_magic_string_ex_id id;
  Some (string_desc_p, heap_set_string string_desc_p s h).

Definition ecma_get_magic_string (h : ecma_heap) (id : Z) : option (Z * ecma_heap) :=
  ecma_new_ecma_string_from_magic_string_id h id.

Definition ecma_get_magic_string_ex (h : ecma_heap) (id : Z) : option (Z * ecma_heap) :=
  ecma_new_ecma_string_from_magic_string_ex_id h id.

(** [ecma_new_ecma_string_from_utf8 (string_p, string_size)]: the slice is
    the list [string_p], [string_size] its length. *)
Definition ecma_new_ecma_string_from_utf8 (h : ecma_heap) (string_p : list Z)
  : option (Z * ecma_heap) :=
  let string_size := Z.of_nat (length string_p) in
  match lit_is_utf8_string_magic string_p with
  | Some magic_string_id => ecma_get_magic_string h magic_string_id
  | None =>
      match lit_is_ex_utf8_string_magic string_p with
      | Some magic_string_ex_id => ecma_get_magic_string_ex h magic_string_ex_id
      | None =>
          let string_desc_p := ecma_alloc_string h in
          let data_p :=
            mem_heap_alloc_block h (string_size + sizeof_ecma_string_heap_header_t) in
          let data :=
            mk_chunk (to_uint16 string_size)
                     (to_uint16 (lit_utf8_string_length string_p))
                     string_p in
          Some (string_desc_p,
                heap_set_string string_desc_p
                  (mk_ecma_string 1 ECMA_STRING_CONTAINER_HEAP_CHUNKS
                     (lit_utf8_string_calc_hash E string_p) data_p)
                  (heap_set_chunk data_p data h))
      end
  end.

Definition ecma_new_ecma_string_from_uint32 (h : ecma_heap) (uint32_number : Z)
  : Z * ecma_heap :=
  let string_desc_p := ecma_alloc_string h in
  let byte_buf := ecma_uint32_to_utf8_string uint32_number in
  (string_desc_p,
   heap_set_string string_desc_p
     (mk_ecma_string 1 ECMA_STRING_CONTAINER_UINT32_IN_DESC
        (lit_utf8_string_calc_hash E byte_buf) uint32_number)
     h).

Definition ecma_new_ecma_string_from_number (h : ecma_heap) (num : Z)
  : option (Z * ecma_heap) :=
  let uint32_num := ecma_number_to_uint32 E num in
  if ecma_number_eq E num (ecma_uint32_to_number E uint32_num)
  then Some (ecma_new_ecma_string_from_uint32 h uint32_num)
  else
    let str_buf := ecma_number_to_utf8_string E num in
    match lit_is_utf8_string_magic str_buf with
    | Some magic_string_id => ecma_get_magic_string h magic_string_id
    | None =>
        match lit_is_ex_utf8_string_magic str_buf with
        | Some magic_string_ex_id => ecma_get_magic_string_ex h magic_string_ex_id
        | None =>
            let string_desc_p := ecma_alloc_string h in
            let num_p := ecma_alloc_number h in
            Some (string_desc_p,
                  heap_set_string string_desc_p
                    (mk_ecma_string 1 ECMA_STRING_CONTAINER_HEAP_NUMBER
                       (lit_utf8_string_calc_hash E str_buf) num_p)
                    (heap_set_number num_p num h))
        end
    end.

(** ** Reference counting *)

(** [ecma_copy_ecma_string].  In the [HEAP_CHUNKS] case the descriptor is
    copied whole, a new block [new_data_p] receives the header and the bytes,
    and the pointer then stored in the copy is [data_p], the block of the
    original. *)
Definition ecma_copy_ecma_string (h : ecma_heap) (string_desc_p : Z)
  : option (Z * ecma_heap) :=
  s ← strings h !! string_desc_p;
  match container s with
  | ECMA_STRING_CONTAINER_LIT_TABLE
  | ECMA_STRING_CONTAINER_UINT32_IN_DESC
  | ECMA_STRING_CONTAINER_MAGIC_STRING
  | ECMA_STRING_CONTAINER_MAGIC_STRING_EX =>
      let new_str_p := ecma_alloc_string h in
      Some (new_str_p, heap_set_string new_str_p (set_refs s 1) h)
  | ECMA_STRING_CONTAINER_HEAP_NUMBER =>
      num ← numbers h !! common_field s;
      ecma_new_ecma_string_from_number h num
  | ECMA_STRING_CONTAINER_HEAP_CHUNKS =>
      let new_str_p := ecma_alloc_string h in
      let h1 := heap_set_string new_str_p s h in
      let data_p := common_field s in
      data ← chunks h1 !! data_p;
      let new_data_p :=
        mem_heap_alloc_block h1 (data_size data + sizeof_ecma_string_heap_header_t) in
      let new_data :=
        mk_chunk (data_size data) (data_length data)
                 (take (Z.to_nat (data_size data)) (data_bytes data)) in
      let h2 := heap_set_chunk new_data_p new_data h1 in
      Some (new_str_p, heap_set_string new_str_p (set_collection_cp s data_p) h2)
  end.

(** [ecma_copy_or_ref_ecma_string]; [ecma_lcache_invalidate_all] and
    [ecma_gc_run] together are the external [ecma_gc_run]. *)
Definition ecma_copy_or_ref_ecma_string (h : ecma_heap) (string_desc_p : Z)
  : option (Z * ecma_heap) :=
  s ← strings h !! string_desc_p;
  let incremented := to_refs (refs s + 1) in
  if incremented =? 0
  then
    let current_refs := to_refs (incremented - 1) in
    let h1 := heap_set_string string_desc_p (set_refs s current_refs) h in
    let h2 := ecma_gc_run E h1 in
    s2 ← strings h2 !! string_desc_p;
    if current_refs =? refs s2
    then ecma_copy_ecma_string h2 string_desc_p
    else Some (string_desc_p,
               heap_set_string string_desc_p (set_refs s2 (to_refs (refs s2 + 1))) h2)
  else Some (string_desc_p, heap_set_string string_desc_p (set_refs s incremented) h).

Definition ecma_deref_ecma_string (h : ecma_heap) (string_p : Z) : option ecma_heap :=
  s ← strings h !! string_p;
  let decremented := to_refs (refs s - 1) in
  if negb (decremented =? 0)
  then Some (heap_set_string string_p (set_refs s decremented) h)
  else
    match container s with
    | ECMA_STRING_CONTAINER_HEAP_CHUNKS =>
        data_p ← chunks h !! common_field s;
        h1 ← mem_heap_free_block (common_field s)
               (data_size data_p + sizeof_ecma_string_heap_header_t) h;
        Some (ecma_dealloc_string string_p h1)
    | ECMA_STRING_CONTAINER_HEAP_NUMBER =>
        _ ← numbers h !! common_field s;
        Some (ecma_dealloc_string string_p (ecma_dealloc_number (common_field s) h))
    | _ => Some (ecma_dealloc_string string_p h)
    end.

(** ** Scratch buffers *)

(** The contents of a buffer of [n] bytes before anything is written to it
    (an array on the stack, or a block just taken from the heap); its
    initial contents are never read. *)
Definition local_array (n : Z) : list Z := replicate (Z.to_nat n) 0.

(** Modelled from the spec: [MEM_DEFINE_LOCAL_ARRAY (var, number, type)] and
    [MEM_FINALIZE_LOCAL_ARRAY (var)] (mem-heap.h is not under src/).  The
    array is a block of [number] bytes taken from the heap with
    [mem_heap_alloc_block], and it is given back, with its size, when the
    operation is done.  An operation that allocates nothing else while it
    holds the array leaves the heap as it found it, and is written over the
    contents of the array alone ([local_array]); [ecma_string_substr] and
    [ecma_string_trim], which call a constructor while they hold the array,
    keep the block in the heap. *)
Definition MEM_DEFINE_LOCAL_ARRAY (h : ecma_heap) (number : Z) : Z * ecma_heap :=
  let var_name := mem_heap_alloc_block h number in
  (var_name, heap_set_block var_name (local_array number) h).

Definition MEM_FINALIZE_LOCAL_ARRAY (var_name : Z) (number : Z) (h : ecma_heap)
  : option ecma_heap :=
  mem_heap_free_block var_name number h.

(** ** Conversion to a number *)

Definition ecma_string_to_number (h : ecma_heap) (str_p : ecma_string_t) : option Z :=
  match container str_p with
  | ECMA_STRING_CONTAINER_UINT32_IN_DESC =>
      Some (ecma_uint32_to_number E (common_field str_p))
  | ECMA_STRING_CONTAINER_HEAP_NUMBER =>
      numbers h !! common_field str_p
  | ECMA_STRING_CONTAINER_LIT_TABLE
  | ECMA_STRING_CONTAINER_HEAP_CHUNKS
  | ECMA_STRING_CONTAINER_MAGIC_STRING
  | ECMA_STRING_CONTAINER_MAGIC_STRING_EX =>
      string_size ← ecma_string_get_size h str_p;
      if string_size =? 0
      then Some (ECMA_NUMBER_ZERO E)
      else
        '(_, str_buffer_p) ←
          ecma_string_to_utf8_string h str_p (local_array string_size) string_size;
        Some (ecma_utf8_string_to_number E (take (Z.to_nat string_size) str_buffer_p))
  end.

(** ** Comparison *)

(** [!strncmp (s1, s2, n)]: [Some true] when [strncmp] returns zero.  The
    comparison ends at the first difference, after [n] characters, or at a
    terminating null character present in both strings.  [None] is a read
    past the end of one of the two arrays. *)
Fixpoint strncmp_is_zero (s1 s2 : list Z) (n : nat) {struct n} : option bool :=
  match n with
  | O => Some true
  | S n' =>
      match s1, s2 with
      | c1 :: s1', c2 :: s2' =>
          if negb (c1 =? c2) then Some false
          else if c1 =? 0 then Some true
          else strncmp_is_zero s1' s2' n'
      | _, _ => None
      end
  end.

(** The bytes one operand of the cross-container comparison is read from:
    the chunk itself, the charset of the literal, or a block of
    [strings_size] bytes the string is written to (and which is freed before
    the comparison returns). *)
Definition longpath_utf8_string (h : ecma_heap) (string_p : ecma_string_t)
    (strings_size : Z) : option (list Z) :=
  match container string_p with
  | ECMA_STRING_CONTAINER_HEAP_CHUNKS =>
      data_p ← chunks h !! common_field string_p;
      Some (data_bytes data_p)
  | ECMA_STRING_CONTAINER_LIT_TABLE =>
      lit_charset_literal_get_charset (common_field string_p)
  | _ =>
      '(_, utf8_string_p) ←
        ecma_string_to_utf8_string h string_p (local_array strings_size) strings_size;
      Some utf8_string_p
  end.

Definition ecma_compare_ecma_strings_longpath (h : ecma_heap)
    (string1_p string2_p : ecma_string_t) : option bool :=
  let same_container := bool_decide (container string1_p = container string2_p) in
  let in_descriptor :=
    match container string1_p with
    | ECMA_STRING_CONTAINER_LIT_TABLE
    | ECMA_STRING_CONTAINER_MAGIC_STRING
    | ECMA_STRING_CONTAINER_MAGIC_STRING_EX
    | ECMA_STRING_CONTAINER_UINT32_IN_DESC => true
    | _ => false
    end in
  if same_container && in_descriptor then Some false
  else
    string1_size ← ecma_string_get_size h string1_p;
    string2_size ← ecma_string_get_size h string2_p;
    if negb (string1_size =? string2_size) then Some false
    else
      let strings_size := string1_size in
      if strings_size =? 0 then Some true
      else if same_container
      then
        match container string1_p with
        | ECMA_STRING_CONTAINER_HEAP_NUMBER =>
            num1 ← numbers h !! common_field string1_p;
            num2 ← numbers h !! common_field string2_p;
            if ecma_number_is_nan E num1 && ecma_number_is_nan E num2
            then Some true
            else Some (ecma_number_eq E num1 num2)
        | ECMA_STRING_CONTAINER_HEAP_CHUNKS =>
            data1_p ← chunks h !! common_field string1_p;
            data2_p ← chunks h !! common_field string2_p;
            if negb (data_length data1_p =? data_length data2_p) then Some false
            else strncmp_is_zero (data_bytes data1_p) (data_bytes data2_p)
                   (Z.to_nat strings_size)
        | _ => None
        end
      else
        utf8_string1_p ← longpath_utf8_string h string1_p strings_size;
        utf8_string2_p ← longpath_utf8_string h string2_p strings_size;
        strncmp_is_zero utf8_string1_p utf8_string2_p (Z.to_nat strings_size).

(** [ecma_compare_ecma_strings_equal_hashes]: the fast test alone, for
    descriptors whose hashes are known to be equal. *)
Definition ecma_compare_ecma_strings_equal_hashes (string1_p string2_p : ecma_string_t)
  : bool :=
  bool_decide (container string1_p = container string2_p)
  && (common_field string1_p =? common_field string2_p).

(** [ecma_compare_ecma_strings]: the hash gate, the fast test, and the long
    path. *)
Definition ecma_compare_ecma_strings (h : ecma_heap)
    (string1_p string2_p : ecma_string_t) : option bool :=
  let is_equal_hashes := hash string1_p =? hash string2_p in
  if negb is_equal_hashes then Some false
  else
    let is_equal_containers := bool_decide (container string1_p = container string2_p) in
    let is_equal_fields := common_field string1_p =? common_field string2_p in
    if is_equal_containers && is_equal_fields then Some true
    else ecma_compare_ecma_strings_longpath h string1_p string2_p.

(** ** Array index *)

(** [ecma_string_get_array_index]: the result, the value left in
    [*out_index_p], and the heap. *)
Definition ecma_string_get_array_index (h : ecma_heap) (str_p : ecma_string_t)
  : option (bool * Z * ecma_heap) :=
  if bool_decide (container str_p = ECMA_STRING_CONTAINER_UINT32_IN_DESC)
  then
    let out_index := common_field str_p in
    Some (negb (out_index =? ECMA_MAX_VALUE_OF_VALID_ARRAY_INDEX), out_index, h)
  else
    num ← ecma_string_to_number h str_p;
    let out_index := ecma_number_to_uint32 E num in
    let '(to_uint32_to_string_p, h1) := ecma_new_ecma_string_from_uint32 h out_index in
    tmp ← strings h1 !! to_uint32_to_string_p;
    is_array_index ← ecma_compare_ecma_strings h1 str_p tmp;
    h2 ← ecma_deref_ecma_string h1 to_uint32_to_string_p;
    Some (is_array_index && negb (out_index =? ECMA_MAX_VALUE_OF_VALID_ARRAY_INDEX),
          out_index, h2).

(** ** Concatenation *)

Definition ecma_concat_ecma_strings (h : ecma_heap) (string1_p string2_p : Z)
  : option (Z * ecma_heap) :=
  s1 ← strings h !! string1_p;
  s2 ← strings h !! string2_p;
  str1_size ← ecma_string_get_size h s1;
  str2_size ← ecma_string_get_size h s2;
  if str1_size =? 0 then ecma_copy_or_ref_ecma_string h string2_p
  else if str2_size =? 0 then ecma_copy_or_ref_ecma_string h string1_p
  else
    let new_size := to_uint32 (str1_size + str2_size) in
    let string_desc_p := ecma_alloc_string h in
    let data_p := mem_heap_alloc_block h (new_size + sizeof_ecma_string_heap_header_t) in
    let block := local_array new_size in
    '(_, block1) ← ecma_string_to_utf8_string h s1 block str1_size;
    '(_, tail2) ←
      ecma_string_to_utf8_string h s2 (drop (Z.to_nat str1_size) block1) str2_size;
    let block2 := take (Z.to_nat str1_size) block1 ++ tail2 in
    length1 ← ecma_string_get_length h s1;
    length2 ← ecma_string_get_length h s2;
    let data :=
      mk_chunk (to_uint16 new_size) (to_uint16 (length1 + length2)) block2 in
    let new_hash :=
      lit_utf8_string_hash_combine E (hash s1)
        (take (Z.to_nat str2_size) (drop (Z.to_nat str1_size) block2)) in
    Some (string_desc_p,
          heap_set_string string_desc_p
            (mk_ecma_string 1 ECMA_STRING_CONTAINER_HEAP_CHUNKS new_hash data_p)
            (heap_set_chunk data_p data h)).

(** ** Magic string recognition *)

(** [ecma_is_string_magic_longpath]: [Some (Some id)] is the result [true]
    with [id] stored in [*out_id_p], [Some None] the result [false]; [None]
    is the failed assertion [copied > 0], or a search that is handed the
    array with a size, the cast [(lit_utf8_size_t) copied], larger than the
    array. *)
Definition ecma_is_string_magic_longpath (h : ecma_heap) (string_p : ecma_string_t)
  : option (option Z) :=
  '(copied, utf8_string_buffer) ←
    ecma_string_to_utf8_string h string_p
      (local_array (LIT_MAGIC_STRING_LENGTH_LIMIT E)) (LIT_MAGIC_STRING_LENGTH_LIMIT E);
  _ ← JERRY_ASSERT (Some (0 <? copied));
  let size := to_uint32 copied in
  if bool_decide (size ≤ Z.of_nat (length utf8_string_buffer))
  then Some (lit_is_utf8_string_magic (take (Z.to_nat size) utf8_string_buffer))
  else None.

Definition ecma_is_ex_string_magic_longpath (h : ecma_heap) (string_p : ecma_string_t)
  : option (option Z) :=
  '(copied, utf8_string_buffer) ←
    ecma_string_to_utf8_string h string_p
      (local_array (LIT_MAGIC_STRING_LENGTH_LIMIT E)) (LIT_MAGIC_STRING_LENGTH_LIMIT E);
  _ ← JERRY_ASSERT (Some (0 <? copied));
  let size := to_uint32 copied in
  if bool_decide (size ≤ Z.of_nat (length utf8_string_buffer))
  then Some (lit_is_ex_utf8_string_magic (take (Z.to_nat size) utf8_string_buffer))
  else None.

(** [ecma_is_string_magic]: [Some (Some id)] is the result [true] with [id]
    stored in [*out_id_p], [Some None] the result [false], and [None] a
    failed assertion.  The assertion of the [else] branch is
    [ecma_string_get_length (string_p) > LIT_MAGIC_STRING_LENGTH_LIMIT
     || !ecma_is_string_magic_longpath (string_p, out_id_p)]. *)
Definition ecma_is_string_magic (h : ecma_heap) (string_p : ecma_string_t)
  : option (option Z) :=
  if bool_decide (container string_p = ECMA_STRING_CONTAINER_MAGIC_STRING)
  then
    _ ← JERRY_ASSERT (Some (common_field string_p <? LIT_MAGIC_STRING__COUNT));
    Some (Some (common_field string_p))
  else
    _ ← JERRY_ASSERT
          (length ← ecma_string_get_length h string_p;
           if LIT_MAGIC_STRING_LENGTH_LIMIT E <? length then Some true
           else
             found ← ecma_is_string_magic_longpath h string_p;
             Some (match found with Some _ => false | None => true end));
    Some None.

Definition ecma_is_ex_string_magic (h : ecma_heap) (string_p : ecma_string_t)
  : option (option Z) :=
  if bool_decide (container string_p = ECMA_STRING_CONTAINER_MAGIC_STRING_EX)
  then
    _ ← JERRY_ASSERT (Some (common_field string_p <? lit_get_magic_string_ex_count));
    Some (Some (common_field string_p))
  else
    _ ← JERRY_ASSERT
          (length ← ecma_string_get_length h string_p;
           if LIT_MAGIC_STRING_LENGTH_LIMIT E <? length then Some true
           else
             found ← ecma_is_ex_string_magic_longpath h string_p;
             Some (match found with Some _ => false | None => true end));
    Some None.

Definition ecma_string_hash (string_p : ecma_string_t) : Z := hash string_p.

(** ** Substring *)

(** The two [while (n--)] loops, which advance a cursor by the width of the
    code unit whose first byte it points at: the cursor [p] is an offset
    into the buffer; [None] is a read past its end. *)
Fixpoint skip_code_units (utf8_str_p : list Z) (n : nat) (p : nat) : option nat :=
  match n with
  | O => Some p
  | S n' =>
      first ← utf8_str_p !! p;
      skip_code_units utf8_str_p n'
        (p + lit_get_unicode_char_size_by_utf8_first_byte E first)%nat
  end.

(** [ecma_string_substr]; the slice handed to the constructor lies between
    the two cursors, and [None] is a slice that would end past the buffer.
    The constructor runs while the scratch array [utf8_str_p] (the block at
    [utf8_str_p_block]) is held; the array is given back afterwards. *)
Definition ecma_string_substr (h : ecma_heap) (string_p : ecma_string_t)
    (start_pos end_pos : Z) : option (Z * ecma_heap) :=
  if start_pos <? end_pos
  then
    buffer_size ← ecma_string_get_size h string_p;
    let '(utf8_str_p_block, h1) := MEM_DEFINE_LOCAL_ARRAY h buffer_size in
    '(_, utf8_str_p) ←
      ecma_string_to_utf8_string h1 string_p (local_array buffer_size) buffer_size;
    let end_pos' := to_uint32 (end_pos - start_pos) in
    start_p ← skip_code_units utf8_str_p (Z.to_nat start_pos) 0%nat;
    end_p ← skip_code_units utf8_str_p (Z.to_nat end_pos') start_p;
    if bool_decide (end_p ≤ length utf8_str_p)%nat
    then
      '(ecma_string_p, h2) ←
        ecma_new_ecma_string_from_utf8 h1 (take (end_p - start_p) (drop start_p utf8_str_p));
      h3 ← MEM_FINALIZE_LOCAL_ARRAY utf8_str_p_block buffer_size h2;
      Some (ecma_string_p, h3)
    else None
  else ecma_new_ecma_string_from_utf8 h [].

End Engine.

(** ** The logical string and the invariants of the data model *)

(** The logical byte sequence of a descriptor, following the data model of
    the specification: the charset of the literal, the table entry of a
    magic identifier, the decimal form of the number kept in the descriptor,
    the canonical decimal form of the number cell, or the bytes that follow
    the header of the chunk. *)
Definition logical_bytes (E : externals) (h : ecma_heap) (s : ecma_string_t)
  : option (list Z) :=
  match container s with
  | ECMA_STRING_CONTAINER_LIT_TABLE =>
      lit_charset_literal_get_charset E (common_field s)
  | ECMA_STRING_CONTAINER_MAGIC_STRING =>
      lit_get_magic_string_utf8 E (common_field s)
  | ECMA_STRING_CONTAINER_MAGIC_STRING_EX =>
      lit_get_magic_string_ex_utf8 E (common_field s)
  | ECMA_STRING_CONTAINER_UINT32_IN_DESC =>
      Some (ecma_uint32_to_utf8_string (common_field s))
  | ECMA_STRING_CONTAINER_HEAP_NUMBER =>
      num ← numbers h !! common_field s;
      Some (ecma_number_to_utf8_string E num)
  | ECMA_STRING_CONTAINER_HEAP_CHUNKS =>
      data_p ← chunks h !! common_field s;
      Some (data_bytes data_p)
  end.

(** Invariant 5: the header of a chunk records the number of bytes that
    follow it and their length in code units. *)
Definition chunk_header_ok (E : externals) (c : ecma_string_heap_chunk) : Prop :=
  data_size c = Z.of_nat (length (data_bytes c)) ∧
  data_length c = lit_utf8_string_length E (data_bytes c).

(** A descriptor is well formed in a heap when its payload word designates
    what its container says, a number kept in it is a 32-bit unsigned value,
    and a chunk it points to satisfies invariant 5. *)
Definition string_ok (E : externals) (h : ecma_heap) (s : ecma_string_t) : Prop :=
  is_Some (logical_bytes E h s) ∧
  (container s = ECMA_STRING_CONTAINER_UINT32_IN_DESC →
   0 ≤ common_field s < 2 ^ 32) ∧
  (container s = ECMA_STRING_CONTAINER_HEAP_CHUNKS →
   ∀ c, chunks h !! common_field s = Some c → chunk_header_ok E c).

(** Invariant 3: the cached hash is the engine hash of the logical bytes. *)
Definition hash_ok (E : externals) (h : ecma_heap) (s : ecma_string_t) : Prop :=
  ∀ bytes, logical_bytes E h s = Some bytes →
           hash s = lit_utf8_string_calc_hash E bytes.

(** The hash of a concatenation is obtained by combining the hash of the
    first part with the bytes of the second. *)
Definition hash_combine_law (E : externals) : Prop :=
  ∀ a b, lit_utf8_string_hash_combine E (lit_utf8_string_calc_hash E a) b
         = lit_utf8_string_calc_hash E (a ++ b).

(** A byte slice that divides into [n] whole code units: each unit starts
    at a byte whose width, as the codec reports it, is at least one and lies
    within the slice.  This is what the cursor loops of the file rely on in
    valid CESU-8 content. *)
Inductive code_units (E : externals) : list Z → nat → Prop :=
| code_units_nil : code_units E [] 0
| code_units_step first tl n :
    (0 < lit_get_unicode_char_size_by_utf8_first_byte E first ≤ length (first :: tl))%nat →
    code_units E (drop (lit_get_unicode_char_size_by_utf8_first_byte E first) (first :: tl)) n →
    code_units E (first :: tl) (S n).

(** A heap extends another when every chunk and number cell of the first is
    still there, unchanged. *)
Definition heap_extends (h h' : ecma_heap) : Prop :=
  chunks h ⊆ chunks h' ∧ numbers h ⊆ numbers h'.

(** What a call that builds the string [x] in the heap [h] returns: a new
    descriptor, at the address the descriptor pool hands out next, with
    counter 1 and the hash of [x], well formed in the new heap with [x] as
    its logical string, in canonical form (a magic string where [x] is one,
    else a chunk at an address that was free); the chunks and number cells
    of [h] are kept. *)
Definition builds (E : externals) (h : ecma_heap) (x : list Z)
    (r : option (Z * ecma_heap)) : Prop :=
  ∃ s h',
    r = Some (ecma_alloc_string h, h') ∧
    strings h' = <[ecma_alloc_string h := s]> (strings h) ∧
    heap_extends h h' ∧
    string_ok E h' s ∧
    logical_bytes E h' s = Some x ∧
    hash s = lit_utf8_string_calc_hash E x ∧
    refs s = 1 ∧
    (container s = ECMA_STRING_CONTAINER_MAGIC_STRING ∧
     lit_is_utf8_string_magic E x = Some (common_field s)
     ∨ container s = ECMA_STRING_CONTAINER_MAGIC_STRING_EX ∧
       lit_is_ex_utf8_string_magic E x = Some (common_field s)
     ∨ container s = ECMA_STRING_CONTAINER_HEAP_CHUNKS ∧
       chunks h !! common_field s = None).

(** The number conversions agree on 32-bit unsigned integers. *)
Definition uint32_number_roundtrip (E : externals) : Prop :=
  ∀ n, 0 ≤ n < 2 ^ 32 →
       ecma_number_to_uint32 E (ecma_uint32_to_number E n) = n ∧
       ecma_number_eq E (ecma_uint32_to_number E n) (ecma_uint32_to_number E n) = true.

(** The empty string is the built-in magic string [LIT_MAGIC_STRING__EMPTY],
    and no other entry of the built-in table is empty. *)
Definition magic_empty_ok (E : externals) : Prop :=
  lit_is_utf8_string_magic E [] = Some (LIT_MAGIC_STRING__EMPTY E).

(** ** A small engine instance *)

Module Sample.

(** A hash of the FNV kind with an 8-bit state. *)
Definition hash_combine (basis : Z) (bytes : list Z) : Z :=
  fold_left (λ acc b, (Z.lxor acc b * 16777619) mod 2 ^ 8) bytes basis.

Definition calc_hash (bytes : list Z) : Z := hash_combine 197 bytes.

(** The strings [""], ["length"], ["NaN"] and ["undefined"]. *)
Definition magic_strings : list (list Z) :=
  [ [];
    [108; 101; 110; 103; 116; 104];
    [78; 97; 78];
    [117; 110; 100; 101; 102; 105; 110; 101; 100] ].

(** The string ["jerry"]. *)
Definition magic_strings_ex : list (list Z) :=
  [ [106; 101; 114; 114; 121] ].

(** Literals: ["abc"] at 1, a reference to ["length"] at 2. *)
Definition literal_by_cp (cp : Z) : option lit_literal_t :=
  if cp =? 1 then Some (LIT_RECORD_CHARSET [97; 98; 99] (calc_hash [97; 98; 99]))
  else if cp =? 2 then Some (LIT_RECORD_MAGIC_STR 1)
  else None.

(** Width of a CESU-8 code unit from its first byte. *)
Definition char_size (first_byte : Z) : nat :=
  if Z.land first_byte 128 =? 0 then 1%nat
  else if Z.land first_byte 224 =? 192 then 2%nat
  else 3%nat.

(** Numbers of this instance are integers: the pattern [z] stands for the
    number [z]. *)
Definition number_to_utf8_string (z : Z) : list Z :=
  if z <? 0
  then 45 :: uint32_digits 40 (- z) []
  else uint32_digits 40 z [].

Definition utf8_string_to_number (bytes : list Z) : Z :=
  match bytes with
  | 45 :: digits => - fold_left (λ acc d, 10 * acc + (d - 48)) digits 0
  | _ => fold_left (λ acc d, 10 * acc + (d - 48)) bytes 0
  end.

Definition env : externals := {|
  JERRY_NDEBUG := true;
  CONFIG_ECMA_REFERENCE_COUNTER_WIDTH := 8;
  lit_utf8_string_calc_hash := calc_hash;
  lit_utf8_string_hash_combine := hash_combine;
  lit_magic_strings := magic_strings;
  lit_magic_strings_ex := magic_strings_ex;
  LIT_MAGIC_STRING__EMPTY := 0;
  LIT_MAGIC_STRING_LENGTH_LIMIT := 32;
  lit_get_literal_by_cp := literal_by_cp;
  lit_get_unicode_char_size_by_utf8_first_byte := char_size;
  ecma_number_to_uint32 := λ z, z mod 2 ^ 32;
  ecma_uint32_to_number := λ n, n;
  ecma_number_eq := Z.eqb;
  ecma_number_is_nan := λ _, false;
  ecma_number_to_utf8_string := number_to_utf8_string;
  ecma_utf8_string_to_number := utf8_string_to_number;
  ECMA_NUMBER_ZERO := 0;
  ecma_gc_run := λ h, h
|}.

(** The same engine built without [JERRY_NDEBUG]: assertions are on. *)
Definition debug_env : externals := {|
  JERRY_NDEBUG := false;
  CONFIG_ECMA_REFERENCE_COUNTER_WIDTH := 8;
  lit_utf8_string_calc_hash := calc_hash;
  lit_utf8_string_hash_combine := hash_combine;
  lit_magic_strings := magic_strings;
  lit_magic_strings_ex := magic_strings_ex;
  LIT_MAGIC_STRING__EMPTY := 0;
  LIT_MAGIC_STRING_LENGTH_LIMIT := 32;
  lit_get_literal_by_cp := literal_by_cp;
  lit_get_unicode_char_size_by_utf8_first_byte := char_size;
  ecma_number_to_uint32 := λ z, z mod 2 ^ 32;
  ecma_uint32_to_number := λ n, n;
  ecma_number_eq := Z.eqb;
  ecma_number_is_nan := λ _, false;
  ecma_number_to_utf8_string := number_to_utf8_string;
  ecma_utf8_string_to_number := utf8_string_to_number;
  ECMA_NUMBER_ZERO := 0;
  ecma_gc_run := λ h, h
|}.

Definition empty_heap : ecma_heap := mk_heap ∅ ∅ ∅ ∅.

(** A descriptor of container [HEAP_CHUNKS] for [bytes] with reference
    counter [r], and a heap that holds it at address 1 with its chunk at
    address 1. *)
Definition chunk_string (r : Z) (bytes : list Z) : ecma_string_t :=
  mk_ecma_string r ECMA_STRING_CONTAINER_HEAP_CHUNKS (calc_hash bytes) 1.

Definition chunk_of (bytes : list Z) : ecma_string_heap_chunk :=
  mk_chunk (Z.of_nat (length bytes)) (lit_utf8_string_length env bytes) bytes.

Definition chunk_heap (r : Z) (bytes : list Z) : ecma_heap :=
  mk_heap {[ 1 := chunk_string r bytes ]} {[ 1 := chunk_of bytes ]} ∅ ∅.

(** Two chunk strings with the same hash, ["\0aa"] and ["\0hn"], as
    [ecma_new_ecma_string_from_utf8] lays them out one after the other in an
    empty heap. *)
Definition nul_aa : list Z := [0; 97; 97].
Definition nul_hn : list Z := [0; 104; 110].

Definition nul_aa_string : ecma_string_t :=
  mk_ecma_string 1 ECMA_STRING_CONTAINER_HEAP_CHUNKS 225 1.
Definition nul_hn_string : ecma_string_t :=
  mk_ecma_string 1 ECMA_STRING_CONTAINER_HEAP_CHUNKS 225 2.

Definition nul_heap : ecma_heap :=
  mk_heap (<[ 2 := nul_hn_string ]> {[ 1 := nul_aa_string ]})
          (<[ 2 := chunk_of nul_hn ]> {[ 1 := chunk_of nul_aa ]})
          ∅ ∅.

(** A heap with two chunk strings, [a] at address 1 and [b] at address 2,
    each with reference counter 1. *)
Definition chunk_string_at (cp : Z) (bytes : list Z) : ecma_string_t :=
  mk_ecma_string 1 ECMA_STRING_CONTAINER_HEAP_CHUNKS (calc_hash bytes) cp.

Definition two_chunk_heap (a b : list Z) : ecma_heap :=
  mk_heap (<[ 2 := chunk_string_at 2 b ]> {[ 1 := chunk_string_at 1 a ]})
          (<[ 2 := chunk_of b ]> {[ 1 := chunk_of a ]})
          ∅ ∅.

(** The strings ["leng"] and ["th"]. *)
Definition leng : list Z := [108; 101; 110; 103].
Definition th : list Z := [116; 104].


(** A heap in which the magic string ["length"] at address 1 has the
    largest reference counter of 8 bits, next to the empty magic string at
    address 2. *)
Definition saturated_heap : ecma_heap :=
  mk_heap (<[ 2 := mk_ecma_string 1 ECMA_STRING_CONTAINER_MAGIC_STRING (calc_hash []) 0 ]>
             {[ 1 := mk_ecma_string 255 ECMA_STRING_CONTAINER_MAGIC_STRING
                       (calc_hash [108; 101; 110; 103; 116; 104]) 1 ]})
          ∅
          ∅
          ∅.

(** The string ["a\195\169b"]: three code units in four bytes. *)
Definition a_e_b : list Z := [97; 195; 169; 98].

(** 65536 bytes ['a']. *)
Definition long_a : list Z := replicate (Z.to_nat 65536) 97.

(** The descriptor of the built-in magic string [id]. *)
Definition magic_string (id : Z) (bytes : list Z) : ecma_string_t :=
  mk_ecma_string 1 ECMA_STRING_CONTAINER_MAGIC_STRING (calc_hash bytes) id.

End Sample.

(** ** Operations that read the text of a string *)

(** What the remaining operations of the file take from the codec and the
    character classification: the capacity of the stack buffers of the
    relational comparison, the lexical comparator, the two readers of one
    code unit (forwards from a position, backwards from a position), and the
    white space and line terminator tests.  The forward reader sees the
    bytes from the cursor on, the backward reader the bytes before it; each
    returns the number of bytes read and the code unit. *)
Record text_externals := mk_text_externals {
  ECMA_MAX_CHARS_IN_STRINGIFIED_NUMBER : Z;
  lit_compare_utf8_strings_relational : list Z → list Z → bool;
  lit_read_code_unit_from_utf8 : list Z → nat * Z;
  lit_read_prev_code_unit_from_utf8 : list Z → nat * Z;
  lit_char_is_white_space : Z → bool;
  lit_char_is_line_terminator : Z → bool
}.

Section Text.

Variable E : externals.
Variable T : text_externals.

(** [ecma_string_get_byte_at_pos]; [None] is an index outside the buffer. *)
Definition ecma_string_get_byte_at_pos (h : ecma_heap) (string_p : ecma_string_t)
    (index : Z) : option Z :=
  buffer_size ← ecma_string_get_size E h string_p;
  '(_, utf8_str_p) ←
    ecma_string_to_utf8_string E h string_p (local_array buffer_size) buffer_size;
  if bool_decide (0 ≤ index) then utf8_str_p !! Z.to_nat index else None.

(** The bytes and the size one operand of
    [ecma_compare_ecma_strings_relational] hands to the comparator: the
    chunk with its recorded size, the charset of a literal, or the string
    written to the stack buffer of [ECMA_MAX_CHARS_IN_STRINGIFIED_NUMBER]
    bytes and, when that reports a negative size, to a block of the required
    size. *)
Definition relational_utf8_string (h : ecma_heap) (string_p : ecma_string_t)
  : option (list Z) :=
  match container string_p with
  | ECMA_STRING_CONTAINER_HEAP_CHUNKS =>
      data_p ← chunks h !! common_field string_p;
      Some (take (Z.to_nat (data_size data_p)) (data_bytes data_p))
  | ECMA_STRING_CONTAINER_LIT_TABLE =>
      lit_charset_literal_get_charset E (common_field string_p)
  | _ =>
      let buffer_size := ECMA_MAX_CHARS_IN_STRINGIFIED_NUMBER T in
      '(req_size, utf8_string_buffer) ←
        ecma_string_to_utf8_string E h string_p (local_array buffer_size) buffer_size;
      if req_size <? 0
      then
        ('(bytes_copied, heap_buffer_p) ←
           ecma_string_to_utf8_string E h string_p (local_array (- req_size)) (- req_size);
         Some (take (Z.to_nat (to_uint32 bytes_copied)) heap_buffer_p))
      else Some (take (Z.to_nat (to_uint32 req_size)) utf8_string_buffer)
  end.

Definition ecma_compare_ecma_strings_relational (h : ecma_heap)
    (string1_p string2_p : ecma_string_t) : option bool :=
  is_equal ← ecma_compare_ecma_strings E h string1_p string2_p;
  if (is_equal : bool) then Some false
  else
    utf8_string1 ← relational_utf8_string h string1_p;
    utf8_string2 ← relational_utf8_string h string2_p;
    Some (lit_compare_utf8_strings_relational T utf8_string1 utf8_string2).

(** The test of both trimming loops. *)
Definition trim_stops_at (ch : Z) : bool :=
  negb (lit_char_is_white_space T ch) && negb (lit_char_is_line_terminator T ch).

(** The front loop of [ecma_string_trim]: the cursors are offsets into the
    buffer, the result is the final [nonws_start_p]; [None] is a loop that
    has not ended after [fuel] rounds. *)
Fixpoint trim_front (fuel : nat) (utf8_str_p : list Z) (current_p nonws_start_p : Z)
  : option Z :=
  if current_p <? nonws_start_p
  then
    match fuel with
    | O => None
    | S fuel' =>
        let '(read_size, ch) :=
          lit_read_code_unit_from_utf8 T (drop (Z.to_nat current_p) utf8_str_p) in
        if trim_stops_at ch then Some current_p
        else trim_front fuel' utf8_str_p (current_p + Z.of_nat read_size) nonws_start_p
    end
  else Some nonws_start_p.

(** The back loop: the result is the final [current_p]. *)
Fixpoint trim_back (fuel : nat) (utf8_str_p : list Z) (current_p : Z) : option Z :=
  if 0 <? current_p
  then
    match fuel with
    | O => None
    | S fuel' =>
        let '(read_size, ch) :=
          lit_read_prev_code_unit_from_utf8 T (take (Z.to_nat current_p) utf8_str_p) in
        if trim_stops_at ch then Some current_p
        else trim_back fuel' utf8_str_p (current_p - Z.of_nat read_size)
    end
  else Some current_p.

(** [ecma_string_trim], with [fuel] rounds for each of its loops.  The new
    string is built while the scratch array [utf8_str_p] (the block at
    [utf8_str_p_block]) is held; the array is given back afterwards. *)
Definition ecma_string_trim (fuel : nat) (h : ecma_heap) (string_p : ecma_string_t)
  : option (Z * ecma_heap) :=
  buffer_size ← ecma_string_get_size E h string_p;
  if 0 <? buffer_size
  then
    let '(utf8_str_p_block, h1) := MEM_DEFINE_LOCAL_ARRAY h buffer_size in
    '(_, utf8_str_p) ←
      ecma_string_to_utf8_string E h1 string_p (local_array buffer_size) buffer_size;
    nonws_start_p ← trim_front fuel utf8_str_p 0 buffer_size;
    current_p ← trim_back fuel utf8_str_p buffer_size;
    '(ret_string_p, h2) ←
      (if nonws_start_p <? current_p
       then
         ecma_new_ecma_string_from_utf8 E h1
           (take (Z.to_nat (current_p - nonws_start_p))
              (drop (Z.to_nat nonws_start_p) utf8_str_p))
       else ecma_get_magic_string E h1 (LIT_MAGIC_STRING__EMPTY E));
    h3 ← MEM_FINALIZE_LOCAL_ARRAY utf8_str_p_block buffer_size h2;
    Some (ret_string_p, h3)
  else ecma_get_magic_string E h (LIT_MAGIC_STRING__EMPTY E).

End Text.

(** ** The trimmed string of the specification *)

(** Following the specification (walk forward skipping the code units that
    are white space or line terminators, walk backward from the end with the
    same test, build the new string from the byte range that is left), for
    text in which every code unit is one byte: the bytes without their
    leading and trailing white space and line terminators. *)
Fixpoint skip_leading (f : Z → bool) (l : list Z) : list Z :=
  match l with
  | [] => []
  | c :: l' => if f c then skip_leading f l' else l
  end.

Definition trimmed_bytes (T : text_externals) (bytes : list Z) : list Z :=
  let skipped := λ ch, negb (trim_stops_at T ch) in
  rev (skip_leading skipped (rev (skip_leading skipped bytes))).

(** A small instance of the text operations: bytes compare in dictionary
    order, a code unit is read as its first (or last) byte with the width of
    one byte, blank and tab are white space, line feed and carriage return
    are line terminators. *)
Module SampleText.

Fixpoint bytes_less (a b : list Z) : bool :=
  match a, b with
  | _, [] => false
  | [], _ :: _ => true
  | x :: a', y :: b' => (x <? y) || ((x =? y) && bytes_less a' b')
  end.

Definition read_code_unit (bytes : list Z) : nat * Z :=
  match bytes with
  | [] => (1%nat, 0)
  | first :: _ => (1%nat, first)
  end.

Definition read_prev_code_unit (bytes : list Z) : nat * Z :=
  (1%nat, List.last bytes 0).

Definition env : text_externals := {|
  ECMA_MAX_CHARS_IN_STRINGIFIED_NUMBER := 64;
  lit_compare_utf8_strings_relational := bytes_less;
  lit_read_code_unit_from_utf8 := read_code_unit;
  lit_read_prev_code_unit_from_utf8 := read_prev_code_unit;
  lit_char_is_white_space := λ ch, (ch =? 32) || (ch =? 9);
  lit_char_is_line_terminator := λ ch, (ch =? 10) || (ch =? 13)
|}.

End SampleText.

(** * Properties *)

(** ** Decimal digits and the size table *)

Lemma uint32_digits_last fuel n acc :
  0 ≤ n < 10 → uint32_digits (S fuel) n acc = (48 + n) :: acc.
Proof.
  intros Hn. cbn [uint32_digits].
  rewrite (Z.div_small n 10), (Z.mod_small n 10) by lia. reflexivity.
Qed.

Lemma uint32_digits_step fuel n acc :
  10 ≤ n → uint32_digits (S fuel) n acc = uint32_digits fuel (n / 10) ((48 + n mod 10) :: acc).
Proof.
  intros Hn. cbn [uint32_digits].
  destruct (Z.eqb_spec (n / 10) 0) as [H0|]; [|reflexivity].
  exfalso. assert (1 ≤ n / 10) by (apply Z.div_le_lower_bound; lia). lia.
Qed.

Lemma uint32_digits_length fuel : ∀ n acc k,
  0 ≤ n → (k ≤ fuel)%nat → (0 < k)%nat → 10 ^ (Z.of_nat k - 1) ≤ n ∨ k = 1%nat → n < 10 ^ Z.of_nat k →
  length (uint32_digits fuel n acc) = (k + length acc)%nat.
Proof.
  induction fuel as [|fuel IH]; intros n acc k Hn Hk Hk0 Hlo Hhi; [lia|].
  destruct (decide (k = 1%nat)) as [->|Hk1].
  - rewrite uint32_digits_last by (change (10 ^ Z.of_nat 1) with 10 in Hhi; lia). reflexivity.
  - destruct Hlo as [Hlo|]; [|lia].
    assert (Hpow : 10 ^ Z.of_nat k = 10 * 10 ^ (Z.of_nat k - 1)).
    { rewrite <- Z.pow_succ_r by lia. f_equal. lia. }
    assert (Hpos : 0 < 10 ^ (Z.of_nat k - 2)) by (apply Z.pow_pos_nonneg; lia).
    assert (Hpow' : 10 ^ (Z.of_nat k - 1) = 10 * 10 ^ (Z.of_nat k - 2)).
    { rewrite <- Z.pow_succ_r by lia. f_equal. lia. }
    rewrite uint32_digits_step by lia.
    rewrite (IH _ _ (k - 1)%nat); cbn [length]; try lia.
    + apply Z.div_pos; lia.
    + left. replace (Z.of_nat (k - 1) - 1) with (Z.of_nat k - 2) by lia.
      apply Z.div_le_lower_bound; lia.
    + replace (Z.of_nat (k - 1)) with (Z.of_nat k - 1) by lia.
      apply Z.div_lt_upper_bound; lia.
Qed.


Ltac digits_case n k lo hi :=
  rewrite (uint32_digits_length 10 n [] k);
  [ cbn [length]; lia | lia | lia | lia
  | first [ right; reflexivity | left; change (lo ≤ n); lia ]
  | change (n < hi); lia ].

(** The size read off [nums_with_ascending_length] is the number of decimal
    digits the formatter produces. *)
Lemma number_in_desc_size_digits n :
  0 ≤ n < 2 ^ 32 →
  Z.of_nat (length (ecma_uint32_to_utf8_string n)) = ecma_string_get_number_in_desc_size n.
Proof.
  intros Hn. change (2 ^ 32) with 4294967296 in Hn.
  unfold ecma_string_get_number_in_desc_size, ecma_uint32_to_utf8_string.
  cbn [nums_with_ascending_length drop number_in_desc_size_loop].
  destruct (Z.leb_spec 10 n); [|digits_case n 1%nat 1 10].
  destruct (Z.leb_spec 100 n); [|digits_case n 2%nat 10 100].
  destruct (Z.leb_spec 1000 n); [|digits_case n 3%nat 100 1000].
  destruct (Z.leb_spec 10000 n); [|digits_case n 4%nat 1000 10000].
  destruct (Z.leb_spec 100000 n); [|digits_case n 5%nat 10000 100000].
  destruct (Z.leb_spec 1000000 n); [|digits_case n 6%nat 100000 1000000].
  destruct (Z.leb_spec 10000000 n); [|digits_case n 7%nat 1000000 10000000].
  destruct (Z.leb_spec 100000000 n); [|digits_case n 8%nat 10000000 100000000].
  destruct (Z.leb_spec 1000000000 n); [|digits_case n 9%nat 100000000 1000000000].
  digits_case n 10%nat 1000000000 10000000000.
Qed.

(** ** Size, length and materialisation against the logical string *)

Lemma magic_table_get_size tbl id m :
  magic_table_get tbl id = Some m →
  (λ m : list Z, Z.of_nat (length m)) <$> magic_table_get tbl id = Some (Z.of_nat (length m)).
Proof. intros ->. reflexivity. Qed.

(** The size the engine computes is the number of logical bytes. *)
Lemma get_size_logical E h s bytes :
  string_ok E h s → logical_bytes E h s = Some bytes →
  ecma_string_get_size E h s = Some (Z.of_nat (length bytes)).
Proof.
  intros (_ & Hcf & Hchunk) Hb.
  unfold logical_bytes in Hb. unfold ecma_string_get_size.
  destruct (container s) eqn:Hc.
  - rewrite Hb. reflexivity.
  - destruct (chunks h !! common_field s) as [c|] eqn:Hl; [|discriminate].
    cbn in *. injection Hb as <-. destruct (Hchunk eq_refl c eq_refl) as [-> _]. reflexivity.
  - unfold ecma_string_get_heap_number_size.
    destruct (numbers h !! common_field s) as [num|]; [|discriminate].
    cbn in *. injection Hb as <-. reflexivity.
  - injection Hb as <-. rewrite number_in_desc_size_digits by exact (Hcf eq_refl). reflexivity.
  - unfold lit_get_magic_string_size. rewrite Hb. reflexivity.
  - unfold lit_get_magic_string_ex_size. rewrite Hb. reflexivity.
Qed.

(** What the [switch] copies is the logical string. *)
Lemma copied_bytes_logical E h s bytes :
  string_ok E h s → logical_bytes E h s = Some bytes →
  ecma_string_copied_bytes E h s = Some bytes.
Proof.
  intros (_ & _ & Hchunk) Hb.
  unfold logical_bytes in Hb. unfold ecma_string_copied_bytes.
  destruct (container s) eqn:Hc; try exact Hb.
  destruct (chunks h !! common_field s) as [c|] eqn:Hl; [|discriminate].
  cbn in *. injection Hb as <-. destruct (Hchunk eq_refl c eq_refl) as [-> _].
  rewrite Nat2Z.id, firstn_all. reflexivity.
Qed.

(** The refinement of [ecma_string_to_utf8_string] by the logical string. *)
Lemma to_utf8_string_logical E h s bytes buffer buffer_size :
  string_ok E h s → logical_bytes E h s = Some bytes →
  ecma_string_to_utf8_string E h s buffer buffer_size =
  Some (if bool_decide (Z.of_nat (length bytes) ≤ buffer_size ∧ 0 < buffer_size)
        then (Z.of_nat (length bytes), bytes ++ drop (length bytes) buffer)
        else (- Z.of_nat (length bytes), buffer)).
Proof.
  intros Hok Hb. unfold ecma_string_to_utf8_string.
  rewrite (get_size_logical E h s bytes Hok Hb). cbn.
  destruct (Z.ltb_spec buffer_size (Z.of_nat (length bytes))) as [Hlt|Hge]; cbn.
  { rewrite bool_decide_eq_false_2 by lia. reflexivity. }
  destruct (Z.eqb_spec buffer_size 0) as [H0|Hne].
  { rewrite bool_decide_eq_false_2 by lia. reflexivity. }
  rewrite bool_decide_eq_true_2 by lia.
  rewrite (copied_bytes_logical E h s bytes Hok Hb). reflexivity.
Qed.

(** ** Materialisation: claims C3 and C10 *)

(** C3: for a well-formed descriptor whose logical string is [bytes] and a
    buffer size [buffer_size >= 0], [ecma_string_to_utf8_string] writes
    exactly [bytes] at the start of the buffer and returns their number when
    that number is at most [buffer_size] and [buffer_size > 0]; otherwise it
    returns the negated number of bytes and leaves the buffer as it was. *)
Theorem C3_to_utf8_string_writes_or_reports_size
    E h s (bytes buffer : list Z) (buffer_size : Z) :
  string_ok E h s →
  logical_bytes E h s = Some bytes →
  0 ≤ buffer_size →
  (Z.of_nat (length bytes) ≤ buffer_size ∧ 0 < buffer_size →
   ecma_string_to_utf8_string E h s buffer buffer_size
   = Some (Z.of_nat (length bytes), bytes ++ drop (length bytes) buffer)) ∧
  (¬ (Z.of_nat (length bytes) ≤ buffer_size ∧ 0 < buffer_size) →
   ecma_string_to_utf8_string E h s buffer buffer_size
   = Some (- Z.of_nat (length bytes), buffer)).
Proof.
  intros Hok Hb _. rewrite (to_utf8_string_logical E h s bytes buffer buffer_size Hok Hb).
  split; intros Hc.
  - rewrite bool_decide_eq_true_2 by exact Hc. reflexivity.
  - rewrite bool_decide_eq_false_2 by exact Hc. reflexivity.
Qed.

Lemma sample_chunk_string_ok r bytes :
  string_ok Sample.env (Sample.chunk_heap r bytes) (Sample.chunk_string r bytes).
Proof.
  split; [eexists; reflexivity|]. split; [intros Hc; discriminate Hc|].
  intros _ c Hc. cbn in Hc. rewrite lookup_singleton_eq in Hc.
  injection Hc as <-. split; reflexivity.
Defined.

Lemma C3_to_utf8_string_witness :
  ecma_string_to_utf8_string Sample.env (Sample.chunk_heap 1 [104; 105])
    (Sample.chunk_string 1 [104; 105]) [7; 7; 7] 3 = Some (2, [104; 105; 7])
  ∧ ecma_string_to_utf8_string Sample.env (Sample.chunk_heap 1 [104; 105])
      (Sample.chunk_string 1 [104; 105]) [7] 1 = Some (-2, [7]).
Proof.
  split.
  - apply (C3_to_utf8_string_writes_or_reports_size Sample.env
             (Sample.chunk_heap 1 [104; 105]) (Sample.chunk_string 1 [104; 105])
             [104; 105] [7; 7; 7] 3
             (sample_chunk_string_ok 1 [104; 105]) eq_refl).
    + lia.
    + cbn. lia.
  - apply (C3_to_utf8_string_writes_or_reports_size Sample.env
             (Sample.chunk_heap 1 [104; 105]) (Sample.chunk_string 1 [104; 105])
             [104; 105] [7] 1
             (sample_chunk_string_ok 1 [104; 105]) eq_refl).
    + lia.
    + cbn. lia.
Defined.

(** C10: when the logical string of a well-formed descriptor is empty and
    the buffer size is 0, [ecma_string_to_utf8_string] returns 0, which is
    not negative, and leaves the buffer as it was. *)
Theorem C10_empty_string_zero_buffer_returns_zero E h s (buffer : list Z) :
  string_ok E h s →
  logical_bytes E h s = Some [] →
  ecma_string_to_utf8_string E h s buffer 0 = Some (0, buffer) ∧ 0 ≤ 0.
Proof.
  intros Hok Hb. split; [|lia].
  rewrite (to_utf8_string_logical E h s [] buffer 0 Hok Hb).
  rewrite bool_decide_eq_false_2 by lia. reflexivity.
Qed.

Lemma sample_empty_magic_ok h :
  string_ok Sample.env h (Sample.magic_string 0 []).
Proof.
  split; [eexists; reflexivity|]. split; intros Hc; discriminate Hc.
Defined.

Lemma C10_empty_string_witness :
  ecma_string_to_utf8_string Sample.env Sample.empty_heap (Sample.magic_string 0 []) [] 0
  = Some (0, []) ∧ 0 ≤ 0.
Proof.
  exact (C10_empty_string_zero_buffer_returns_zero Sample.env Sample.empty_heap
           (Sample.magic_string 0 []) [] (sample_empty_magic_ok Sample.empty_heap) eq_refl).
Defined.

(** ** Numbers kept in the descriptor: claims C6 and C7 *)

Lemma heap_set_string_lookup p s h : strings (heap_set_string p s h) !! p = Some s.
Proof. cbn. apply lookup_insert_eq. Qed.

(** C7: the descriptor built by [ecma_new_ecma_string_from_uint32 (n)] is an
    array index with value [n] for every [0 <= n < 2^32 - 1], and is not an
    array index for the sentinel [n = 2^32 - 1]. *)
Theorem C7_array_index_of_uint32 E h :
  (∀ n, 0 ≤ n < 2 ^ 32 - 1 →
     ∃ s, strings (ecma_new_ecma_string_from_uint32 E h n).2
            !! (ecma_new_ecma_string_from_uint32 E h n).1 = Some s ∧
          ecma_string_get_array_index E (ecma_new_ecma_string_from_uint32 E h n).2 s
          = Some (true, n, (ecma_new_ecma_string_from_uint32 E h n).2)) ∧
  (∃ s, strings (ecma_new_ecma_string_from_uint32 E h (2 ^ 32 - 1)).2
          !! (ecma_new_ecma_string_from_uint32 E h (2 ^ 32 - 1)).1 = Some s ∧
        ecma_string_get_array_index E (ecma_new_ecma_string_from_uint32 E h (2 ^ 32 - 1)).2 s
        = Some (false, 2 ^ 32 - 1, (ecma_new_ecma_string_from_uint32 E h (2 ^ 32 - 1)).2)).
Proof.
  split.
  - intros n Hn. eexists. split; [apply heap_set_string_lookup|].
    unfold ecma_string_get_array_index. cbn [container common_field].
    rewrite bool_decide_eq_true_2 by reflexivity.
    unfold ECMA_MAX_VALUE_OF_VALID_ARRAY_INDEX.
    destruct (Z.eqb_spec n (2 ^ 32 - 1)) as [Heq|_]; [lia|reflexivity].
  - eexists. split; [apply heap_set_string_lookup|]. reflexivity.
Qed.

Lemma C7_array_index_witness :
  ∃ s, strings (ecma_new_ecma_string_from_uint32 Sample.env Sample.empty_heap 42).2
         !! (ecma_new_ecma_string_from_uint32 Sample.env Sample.empty_heap 42).1 = Some s ∧
       ecma_string_get_array_index Sample.env
         (ecma_new_ecma_string_from_uint32 Sample.env Sample.empty_heap 42).2 s
       = Some (true, 42, (ecma_new_ecma_string_from_uint32 Sample.env Sample.empty_heap 42).2).
Proof.
  apply (proj1 (C7_array_index_of_uint32 Sample.env Sample.empty_heap) 42). lia.
Defined.

(** C6: when the number conversions agree on 32-bit unsigned integers,
    [ecma_new_ecma_string_from_number] applied to [ecma_uint32_to_number (n)]
    is [ecma_new_ecma_string_from_uint32 (n)]: a descriptor of container
    [UINT32_IN_DESC] holding [n], with reference counter 1 and the hash of
    the decimal bytes of [n]. *)
Theorem C6_from_number_of_uint32 E h n :
  uint32_number_roundtrip E →
  0 ≤ n < 2 ^ 32 →
  ∃ p h' s,
    ecma_new_ecma_string_from_number E h (ecma_uint32_to_number E n) = Some (p, h') ∧
    strings h' !! p = Some s ∧
    container s = ECMA_STRING_CONTAINER_UINT32_IN_DESC ∧
    common_field s = n ∧
    refs s = 1 ∧
    hash s = lit_utf8_string_calc_hash E (ecma_uint32_to_utf8_string n).
Proof.
  intros Hrt Hn. destruct (Hrt n Hn) as [Hback Heq].
  unfold ecma_new_ecma_string_from_number. rewrite Hback, Heq.
  eexists _, _, _. split; [reflexivity|].
  split; [apply heap_set_string_lookup|]. cbn. auto.
Qed.

Lemma sample_uint32_number_roundtrip : uint32_number_roundtrip Sample.env.
Proof.
  intros n Hn. cbn. split; [apply Z.mod_small; exact Hn | apply Z.eqb_refl].
Defined.

Lemma C6_from_number_witness :
  ∃ p h' s,
    ecma_new_ecma_string_from_number Sample.env Sample.empty_heap
      (ecma_uint32_to_number Sample.env 42) = Some (p, h') ∧
    strings h' !! p = Some s ∧
    container s = ECMA_STRING_CONTAINER_UINT32_IN_DESC ∧
    common_field s = 42 ∧
    refs s = 1 ∧
    hash s = lit_utf8_string_calc_hash Sample.env (ecma_uint32_to_utf8_string 42).
Proof.
  apply (C6_from_number_of_uint32 Sample.env Sample.empty_heap 42
           sample_uint32_number_roundtrip).
  lia.
Defined.

(** ** Allocation facts *)

Lemma ecma_alloc_string_fresh h :
  strings h !! ecma_alloc_string h = None ∧ ecma_alloc_string h ≠ 0.
Proof.
  unfold ecma_alloc_string.
  pose proof (is_fresh ({[0]} ∪ dom (strings h))) as Hf.
  split.
  - apply not_elem_of_dom. set_solver.
  - set_solver.
Qed.

Lemma mem_heap_alloc_block_fresh h size :
  chunks h !! mem_heap_alloc_block h size = None ∧ mem_heap_alloc_block h size ≠ 0.
Proof.
  unfold mem_heap_alloc_block.
  pose proof (is_fresh ({[0]} ∪ dom (chunks h) ∪ dom (blocks h))) as Hf.
  split.
  - apply not_elem_of_dom. set_solver.
  - set_solver.
Qed.

Lemma mem_heap_alloc_block_not_a_block h size :
  blocks h !! mem_heap_alloc_block h size = None.
Proof.
  unfold mem_heap_alloc_block.
  pose proof (is_fresh ({[0]} ∪ dom (chunks h) ∪ dom (blocks h))) as Hf.
  apply not_elem_of_dom. set_solver.
Qed.

Lemma set_collection_cp_same s : set_collection_cp s (common_field s) = s.
Proof. destruct s. reflexivity. Qed.

(** ** Reference counter overflow: claim C1 *)

(** C1 (the code departs from the claim): when acquiring a [HEAP_CHUNKS]
    descriptor overflows its reference counter and the counter is unchanged
    after the collector has run, [ecma_copy_or_ref_ecma_string] returns a
    distinct descriptor, and a block holding a clone of the chunk is
    allocated; but the returned descriptor is a bitwise copy of the original:
    its reference counter is the saturated value, not 1, and its collection
    pointer is the block of the original, not the new block. *)
Theorem C1_copy_of_heap_chunks_keeps_old_block E h p s s2 data :
  strings h !! p = Some s →
  to_refs E (refs s + 1) = 0 →
  strings (ecma_gc_run E (heap_set_string p (set_refs s (to_refs E (0 - 1))) h)) !! p
    = Some s2 →
  refs s2 = to_refs E (0 - 1) →
  container s2 = ECMA_STRING_CONTAINER_HEAP_CHUNKS →
  chunks (ecma_gc_run E (heap_set_string p (set_refs s (to_refs E (0 - 1))) h))
    !! common_field s2 = Some data →
  ∃ new_str_p new_data_p h',
    ecma_copy_or_ref_ecma_string E h p = Some (new_str_p, h') ∧
    new_str_p ≠ p ∧
    strings h' !! new_str_p = Some s2 ∧
    strings h' !! p = Some s2 ∧
    chunks h' !! common_field s2 = Some data ∧
    new_data_p ≠ common_field s2 ∧
    chunks h' !! new_data_p
      = Some (mk_chunk (data_size data) (data_length data)
                (take (Z.to_nat (data_size data)) (data_bytes data))).
Proof.
  intros Hs Hsat Hs2 Hrefs Hcont Hdata.
  unfold ecma_copy_or_ref_ecma_string. rewrite Hs. cbn [mbind option_bind].
  rewrite Hsat. cbn [Z.eqb].
  set (h2 := ecma_gc_run E _) in *. rewrite Hs2. cbn [mbind option_bind].
  rewrite Hrefs, Z.eqb_refl.
  unfold ecma_copy_ecma_string. rewrite Hs2. cbn [mbind option_bind]. rewrite Hcont.
  cbn [chunks heap_set_string]. rewrite Hdata. cbn [mbind option_bind].
  rewrite set_collection_cp_same.
  destruct (ecma_alloc_string_fresh h2) as [Hfresh _].
  set (h1 := heap_set_string (ecma_alloc_string h2) s2 h2).
  set (dp := mem_heap_alloc_block h1 (data_size data + sizeof_ecma_string_heap_header_t)).
  destruct (mem_heap_alloc_block_fresh h1
              (data_size data + sizeof_ecma_string_heap_header_t)) as [Hblock _].
  fold dp in Hblock.
  assert (Hne : ecma_alloc_string h2 ≠ p) by (intros Heq; rewrite Heq in Hfresh; congruence).
  assert (Hbne : dp ≠ common_field s2).
  { intros Heq. rewrite Heq in Hblock. cbn in Hblock. congruence. }
  eexists _, dp, _. split; [reflexivity|].
  split; [exact Hne|].
  split; [apply heap_set_string_lookup|].
  split.
  { cbn. rewrite !lookup_insert_ne by exact Hne. exact Hs2. }
  split.
  { cbn. rewrite lookup_insert_ne by exact Hbne. exact Hdata. }
  split; [exact Hbne|].
  cbn. apply lookup_insert_eq.
Qed.

Lemma C1_copy_of_heap_chunks_witness :
  ∃ new_str_p new_data_p h',
    ecma_copy_or_ref_ecma_string Sample.env (Sample.chunk_heap 255 [104; 105]) 1
      = Some (new_str_p, h') ∧
    new_str_p ≠ 1 ∧
    strings h' !! new_str_p = Some (Sample.chunk_string 255 [104; 105]) ∧
    strings h' !! 1 = Some (Sample.chunk_string 255 [104; 105]) ∧
    chunks h' !! 1 = Some (Sample.chunk_of [104; 105]) ∧
    new_data_p ≠ 1 ∧
    chunks h' !! new_data_p = Some (mk_chunk 2 2 [104; 105]).
Proof.
  apply (C1_copy_of_heap_chunks_keeps_old_block Sample.env
           (Sample.chunk_heap 255 [104; 105]) 1
           (Sample.chunk_string 255 [104; 105]) (Sample.chunk_string 255 [104; 105])
           (Sample.chunk_of [104; 105]));
    reflexivity.
Defined.

(** ** Comparison: claim C2 *)

(** The fast path: descriptors with different hashes are unequal, and
    descriptors with the same hash, container and payload word are equal. *)
Lemma compare_different_hashes E h a b :
  hash a ≠ hash b → ecma_compare_ecma_strings E h a b = Some false.
Proof.
  intros Hne. unfold ecma_compare_ecma_strings.
  destruct (Z.eqb_spec (hash a) (hash b)); [contradiction|reflexivity].
Qed.

Lemma compare_same_container_and_field E h a b :
  hash a = hash b → container a = container b → common_field a = common_field b →
  ecma_compare_ecma_strings E h a b = Some true.
Proof.
  intros Hh Hc Hf. unfold ecma_compare_ecma_strings.
  rewrite Hh, Hf, !Z.eqb_refl, bool_decide_eq_true_2 by exact Hc. reflexivity.
Qed.

(** C2 (the code departs from the claim): two chunk strings of the same
    size, length and hash whose first byte is the null character compare
    equal whatever bytes follow, because the bytes are compared with
    [strncmp], which stops at a null character. *)
Theorem C2_compare_stops_at_null_byte E h a b (da db : ecma_string_heap_chunk)
    (ta tb : list Z) :
  container a = ECMA_STRING_CONTAINER_HEAP_CHUNKS →
  container b = ECMA_STRING_CONTAINER_HEAP_CHUNKS →
  common_field a ≠ common_field b →
  chunks h !! common_field a = Some da →
  chunks h !! common_field b = Some db →
  hash a = hash b →
  data_size da = data_size db →
  0 < data_size da →
  data_length da = data_length db →
  data_bytes da = 0 :: ta →
  data_bytes db = 0 :: tb →
  ecma_compare_ecma_strings E h a b = Some true.
Proof.
  intros Hca Hcb Hne Hda Hdb Hh Hsz Hpos Hlen Hba Hbb.
  unfold ecma_compare_ecma_strings. rewrite Hh, Z.eqb_refl. cbn [negb].
  rewrite Hca, Hcb, bool_decide_eq_true_2 by reflexivity.
  destruct (Z.eqb_spec (common_field a) (common_field b)) as [Heq|_]; [contradiction|].
  cbn [andb].
  unfold ecma_compare_ecma_strings_longpath, ecma_string_get_size.
  rewrite Hca, Hcb, bool_decide_eq_true_2 by reflexivity. cbn [andb].
  rewrite Hda, Hdb. cbn [mbind option_bind].
  rewrite <- Hsz, Z.eqb_refl. cbn [negb].
  destruct (Z.eqb_spec (data_size da) 0) as [H0|_]; [lia|].
  rewrite <- Hlen, Z.eqb_refl. cbn [negb].
  rewrite Hba, Hbb.
  destruct (Z.to_nat (data_size da)) as [|n] eqn:Hn; [lia|]. reflexivity.
Qed.

(** The two strings ["\0aa"] and ["\0hn"] are what the constructor builds,
    they are well formed with the hash of their bytes cached, their logical
    strings differ, and they compare equal. *)
Example sample_nul_strings_built :
  ('(p, h1) ← ecma_new_ecma_string_from_utf8 Sample.env Sample.empty_heap Sample.nul_aa;
   '(q, h2) ← ecma_new_ecma_string_from_utf8 Sample.env h1 Sample.nul_hn;
   Some (p, q, h2))
  = Some (1, 2, Sample.nul_heap).
Proof. vm_compute. reflexivity. Qed.

Lemma C2_compare_null_byte_witness :
  logical_bytes Sample.env Sample.nul_heap Sample.nul_aa_string = Some [0; 97; 97] ∧
  logical_bytes Sample.env Sample.nul_heap Sample.nul_hn_string = Some [0; 104; 110] ∧
  hash Sample.nul_aa_string = lit_utf8_string_calc_hash Sample.env [0; 97; 97] ∧
  hash Sample.nul_hn_string = lit_utf8_string_calc_hash Sample.env [0; 104; 110] ∧
  ecma_compare_ecma_strings Sample.env Sample.nul_heap
    Sample.nul_aa_string Sample.nul_hn_string = Some true.
Proof.
  repeat (split; [reflexivity|]).
  apply (C2_compare_stops_at_null_byte Sample.env Sample.nul_heap
           Sample.nul_aa_string Sample.nul_hn_string
           (Sample.chunk_of Sample.nul_aa) (Sample.chunk_of Sample.nul_hn)
           [97; 97] [104; 110]);
    first [ reflexivity | cbn; lia ].
Defined.

(** ** Empty heap chunks: claim C9 *)

Lemma magic_table_find_get tbl key id :
  magic_table_find tbl key = Some id → magic_table_get tbl id = Some key.
Proof.
  unfold magic_table_find, magic_table_get. intros Hf.
  destruct (list_find (λ m, m = key) tbl) as [[i m]|] eqn:Hl; [|discriminate].
  cbn in Hf. injection Hf as <-.
  apply list_find_Some in Hl as (Hi & -> & _).
  rewrite bool_decide_eq_true_2 by lia. rewrite Nat2Z.id. exact Hi.
Qed.

(** The empty slice is never stored in a chunk: it is the magic string
    [LIT_MAGIC_STRING__EMPTY]. *)
Lemma from_utf8_empty_is_magic E h :
  magic_empty_ok E →
  ecma_new_ecma_string_from_utf8 E h []
  = Some (ecma_alloc_string h,
          heap_set_string (ecma_alloc_string h)
            (mk_ecma_string 1 ECMA_STRING_CONTAINER_MAGIC_STRING
               (lit_utf8_string_calc_hash E []) (LIT_MAGIC_STRING__EMPTY E)) h).
Proof.
  intros Hm. unfold ecma_new_ecma_string_from_utf8. rewrite Hm.
  unfold ecma_get_magic_string, ecma_new_ecma_string_from_magic_string_id,
    ecma_init_ecma_string_from_magic_string_id, lit_get_magic_string_utf8.
  rewrite (magic_table_find_get _ _ _ Hm). reflexivity.
Qed.

(** C9 (the code departs from the claim): a slice of 65536 bytes that is
    not a magic string is stored by [ecma_new_ecma_string_from_utf8] in a
    chunk whose [uint16_t] size field wraps to 0, so the resulting
    [HEAP_CHUNKS] descriptor has byte-size 0. *)
Theorem C9_from_utf8_of_65536_bytes_has_size_zero E h (bytes : list Z) :
  Z.of_nat (length bytes) = 2 ^ 16 →
  lit_is_utf8_string_magic E bytes = None →
  lit_is_ex_utf8_string_magic E bytes = None →
  ∃ p h' s,
    ecma_new_ecma_string_from_utf8 E h bytes = Some (p, h') ∧
    strings h' !! p = Some s ∧
    container s = ECMA_STRING_CONTAINER_HEAP_CHUNKS ∧
    ecma_string_get_size E h' s = Some 0.
Proof.
  intros Hlen Hm Hex. unfold ecma_new_ecma_string_from_utf8. rewrite Hm, Hex.
  eexists _, _, _. split; [reflexivity|].
  split; [apply heap_set_string_lookup|]. split; [reflexivity|].
  unfold ecma_string_get_size. cbn [container common_field chunks heap_set_string heap_set_chunk].
  rewrite lookup_insert_eq. cbn [mbind option_bind data_size].
  rewrite Hlen. reflexivity.
Qed.

Lemma C9_from_utf8_size_zero_witness :
  ∃ p h' s,
    ecma_new_ecma_string_from_utf8 Sample.env Sample.empty_heap Sample.long_a
      = Some (p, h') ∧
    strings h' !! p = Some s ∧
    container s = ECMA_STRING_CONTAINER_HEAP_CHUNKS ∧
    ecma_string_get_size Sample.env h' s = Some 0.
Proof.
  apply (C9_from_utf8_of_65536_bytes_has_size_zero Sample.env Sample.empty_heap
           Sample.long_a); vm_compute; reflexivity.
Defined.


(** ** Heap extension *)

Lemma heap_extends_refl h : heap_extends h h.
Proof. split; reflexivity. Qed.

Lemma heap_extends_trans h1 h2 h3 :
  heap_extends h1 h2 → heap_extends h2 h3 → heap_extends h1 h3.
Proof. intros [? ?] [? ?]. split; etrans; eassumption. Qed.

Lemma heap_extends_set_string p s h : heap_extends h (heap_set_string p s h).
Proof. split; reflexivity. Qed.

Lemma heap_extends_set_chunk p c h :
  chunks h !! p = None → heap_extends h (heap_set_chunk p c h).
Proof. intros Hp. split; [apply insert_subseteq; exact Hp | reflexivity]. Qed.

Lemma logical_bytes_extends E h h' s bytes :
  heap_extends h h' → logical_bytes E h s = Some bytes → logical_bytes E h' s = Some bytes.
Proof.
  intros [Hc Hn]. unfold logical_bytes.
  destruct (container s); try (intros H; exact H).
  - destruct (chunks h !! common_field s) as [c|] eqn:Hl; [|discriminate].
    rewrite (lookup_weaken _ _ _ _ Hl Hc). intros H; exact H.
  - destruct (numbers h !! common_field s) as [c|] eqn:Hl; [|discriminate].
    rewrite (lookup_weaken _ _ _ _ Hl Hn). intros H; exact H.
Qed.

Lemma string_ok_extends E h h' s :
  heap_extends h h' → string_ok E h s → string_ok E h' s.
Proof.
  intros Hext ([bytes Hb] & Hu & Hchunk).
  split; [exists bytes; eapply logical_bytes_extends; eassumption|].
  split; [exact Hu|].
  intros Hc c Hl. apply (Hchunk Hc).
  unfold logical_bytes in Hb. rewrite Hc in Hb.
  destruct (chunks h !! common_field s) as [c0|] eqn:Hl0; [|discriminate].
  destruct Hext as [Hsub _]. rewrite (lookup_weaken _ _ _ _ Hl0 Hsub) in Hl.
  exact Hl.
Qed.

(** ** The codec's length *)

Lemma utf8_string_length_loop_bounds E fuel : ∀ bytes len,
  len ≤ utf8_string_length_loop E fuel bytes len ≤ len + Z.of_nat fuel.
Proof.
  induction fuel as [|fuel IH]; intros bytes len; cbn [utf8_string_length_loop]; [lia|].
  destruct bytes as [|first tl]; [lia|].
  specialize (IH (drop (lit_get_unicode_char_size_by_utf8_first_byte E first) (first :: tl))
                 (len + 1)). lia.
Qed.

Lemma lit_utf8_string_length_bounds E bytes :
  0 ≤ lit_utf8_string_length E bytes ≤ Z.of_nat (length bytes).
Proof. apply utf8_string_length_loop_bounds. Qed.

Lemma utf8_string_length_loop_units E bytes n :
  code_units E bytes n →
  ∀ fuel len, (length bytes ≤ fuel)%nat →
              utf8_string_length_loop E fuel bytes len = len + Z.of_nat n.
Proof.
  induction 1 as [|first tl n Hw Hrest IH]; intros fuel len Hfuel.
  - destruct fuel; cbn; lia.
  - destruct fuel as [|fuel]; [cbn in Hfuel; lia|].
    cbn [utf8_string_length_loop]. rewrite IH.
    + lia.
    + rewrite length_drop. cbn [length] in *. lia.
Qed.

Lemma lit_utf8_string_length_units E bytes n :
  code_units E bytes n → lit_utf8_string_length E bytes = Z.of_nat n.
Proof.
  intros Hu. unfold lit_utf8_string_length.
  rewrite (utf8_string_length_loop_units E bytes n Hu) by lia. lia.
Qed.

Lemma code_units_length E bytes n : code_units E bytes n → (n ≤ length bytes)%nat.
Proof.
  intros Hu. pose proof (lit_utf8_string_length_units E bytes n Hu).
  pose proof (lit_utf8_string_length_bounds E bytes). lia.
Qed.

Lemma code_units_app E a m b n :
  code_units E a m → code_units E b n → code_units E (a ++ b) (m + n).
Proof.
  induction 1 as [|first tl m Hw Hrest IH]; intros Hb; [exact Hb|].
  change ((first :: tl) ++ b) with (first :: (tl ++ b)).
  change (S m + n)%nat with (S (m + n)).
  apply code_units_step.
  - cbn [length] in *. rewrite length_app. lia.
  - change (first :: tl ++ b) with ((first :: tl) ++ b).
    rewrite drop_app_le by lia. apply IH. exact Hb.
Qed.

Lemma code_units_zero E bytes : code_units E bytes 0 → bytes = [].
Proof. inversion 1. reflexivity. Qed.

Lemma code_units_nonempty E bytes n : code_units E bytes (S n) → bytes ≠ [].
Proof. inversion 1. discriminate. Qed.


Lemma skip_code_units_add E buf m : ∀ n p,
  skip_code_units E buf (m + n) p = skip_code_units E buf m p ≫= skip_code_units E buf n.
Proof.
  induction m as [|m IH]; intros n p; [reflexivity|].
  cbn [skip_code_units Nat.add]. destruct (buf !! p) as [first|]; [|reflexivity].
  cbn [mbind option_bind]. apply IH.
Qed.

Lemma skip_code_units_units E buf m : ∀ p n,
  (p ≤ length buf)%nat →
  code_units E (drop p buf) n →
  (m ≤ n)%nat →
  ∃ q, skip_code_units E buf m p = Some (p + q)%nat ∧
       (p + q ≤ length buf)%nat ∧
       code_units E (take q (drop p buf)) m ∧
       code_units E (drop (p + q) buf) (n - m).
Proof.
  induction m as [|m IH]; intros p n Hp Hu Hmn.
  - exists 0%nat. rewrite Nat.add_0_r, Nat.sub_0_r. cbn [skip_code_units take].
    split; [reflexivity|]. split; [exact Hp|]. split; [constructor|exact Hu].
  - destruct n as [|n]; [lia|].
    remember (drop p buf) as bs eqn:Hbs.
    inversion Hu as [|first tl n' Hw Hrest Heq1 Heq2]. clear Heq2 n'. subst bs.
    set (w := lit_get_unicode_char_size_by_utf8_first_byte E first) in *.
    assert (Hfirst : buf !! p = Some first).
    { pose proof (lookup_drop buf p 0) as Hl. rewrite <- Heq1 in Hl.
      rewrite Nat.add_0_r in Hl. symmetry. exact Hl. }
    assert (Hlen : length (first :: tl) = (length buf - p)%nat).
    { rewrite Heq1. apply length_drop. }
    assert (Hdrop : drop w (first :: tl) = drop (p + w) buf).
    { rewrite Heq1. apply drop_drop. }
    rewrite Hdrop in Hrest.
    destruct (IH (p + w)%nat n) as (q & Hskip & Hq & Htake & Hrem); [lia|exact Hrest|lia|].
    exists (w + q)%nat. cbn [skip_code_units]. rewrite Hfirst. cbn [mbind option_bind].
    fold w. rewrite Hskip.
    split; [f_equal; lia|]. split; [lia|]. split.
    + assert (Htk : take (w + q) (first :: tl) = first :: take (w + q - 1) tl).
      { destruct (w + q)%nat as [|k] eqn:Hk; [lia|]. cbn. rewrite Nat.sub_0_r. reflexivity. }
      rewrite Htk. apply code_units_step; fold w.
      * rewrite <- Htk, length_take. lia.
      * rewrite <- Htk. rewrite <- take_drop_commute. rewrite Hdrop. exact Htake.
    + cbn [Nat.sub]. rewrite Nat.add_assoc. exact Hrem.
Qed.


(** ** Comparison of equal strings *)

Lemma strncmp_is_zero_same (bytes r1 r2 : list Z) :
  strncmp_is_zero (bytes ++ r1) (bytes ++ r2) (length bytes) = Some true.
Proof.
  induction bytes as [|c bytes IH]; [reflexivity|].
  cbn [app length strncmp_is_zero]. rewrite Z.eqb_refl. cbn [negb].
  destruct (c =? 0); [reflexivity|exact IH].
Qed.

Lemma local_array_length n : length (local_array n) = Z.to_nat n.
Proof. apply length_replicate. Qed.

Lemma longpath_utf8_string_logical E h s bytes :
  string_ok E h s → logical_bytes E h s = Some bytes → bytes ≠ [] →
  ∃ r, longpath_utf8_string E h s (Z.of_nat (length bytes)) = Some (bytes ++ r).
Proof.
  intros Hok Hb Hne.
  assert (Hlen : 0 < Z.of_nat (length bytes)) by (destruct bytes; [congruence|cbn; lia]).
  assert (Hgen : ∃ r,
    ('(_, utf8_string_p) ←
       ecma_string_to_utf8_string E h s (local_array (Z.of_nat (length bytes)))
         (Z.of_nat (length bytes));
     Some utf8_string_p) = Some (bytes ++ r)).
  { rewrite (to_utf8_string_logical E h s bytes _ _ Hok Hb).
    rewrite bool_decide_eq_true_2 by lia. eexists. reflexivity. }
  unfold longpath_utf8_string.
  destruct (container s) eqn:Hc; try exact Hgen.
  - unfold logical_bytes in Hb. rewrite Hc in Hb. exists []. rewrite app_nil_r. exact Hb.
  - unfold logical_bytes in Hb. rewrite Hc in Hb.
    destruct (chunks h !! common_field s) as [c|]; [|discriminate].
    cbn in *. injection Hb as <-. exists []. rewrite app_nil_r. reflexivity.
Qed.

(** Descriptors with the same logical string and the same cached hash
    compare equal, unless they are two distinct descriptors of the same
    container other than [HEAP_CHUNKS] (distinct identifiers, numbers or
    cells). *)
Lemma compare_equal_bytes E h a b bytes :
  string_ok E h a → string_ok E h b →
  logical_bytes E h a = Some bytes → logical_bytes E h b = Some bytes →
  hash a = hash b →
  (container a = container b →
   container a ≠ ECMA_STRING_CONTAINER_HEAP_CHUNKS →
   common_field a = common_field b) →
  ecma_compare_ecma_strings E h a b = Some true.
Proof.
  intros Hoka Hokb Hba Hbb Hh Hsame.
  unfold ecma_compare_ecma_strings. rewrite Hh, Z.eqb_refl. cbn [negb].
  destruct (bool_decide (container a = container b) && (common_field a =? common_field b))
    eqn:Hfast; [reflexivity|].
  unfold ecma_compare_ecma_strings_longpath.
  rewrite (get_size_logical E h a bytes Hoka Hba), (get_size_logical E h b bytes Hokb Hbb).
  cbn [mbind option_bind]. rewrite Z.eqb_refl. cbn [negb].
  destruct (decide (container a = container b)) as [Hc|Hc].
  - rewrite bool_decide_eq_true_2 in * by exact Hc. cbn [andb] in *.
    destruct (decide (container a = ECMA_STRING_CONTAINER_HEAP_CHUNKS)) as [Hchunk|Hnc].
    + rewrite Hchunk. cbn [andb].
      destruct (Z.eqb_spec (Z.of_nat (length bytes)) 0) as [|Hnz]; [reflexivity|].
      assert (Hcb : container b = ECMA_STRING_CONTAINER_HEAP_CHUNKS) by congruence.
      destruct Hoka as (_ & _ & Hha). destruct Hokb as (_ & _ & Hhb).
      unfold logical_bytes in Hba, Hbb. rewrite Hchunk in Hba. rewrite Hcb in Hbb.
      destruct (chunks h !! common_field a) as [da|]; [|discriminate].
      destruct (chunks h !! common_field b) as [db|]; [|discriminate].
      cbn in Hba, Hbb. injection Hba as Hba. injection Hbb as Hbb.
      destruct (Hha Hchunk da eq_refl) as [_ Hla].
      destruct (Hhb Hcb db eq_refl) as [_ Hlb].
      cbn [mbind option_bind]. rewrite Hla, Hlb, Hba, Hbb, Z.eqb_refl. cbn [negb].
      rewrite Nat2Z.id. rewrite <- (app_nil_r bytes) at 1 2. apply strncmp_is_zero_same.
    + specialize (Hsame Hc Hnc). rewrite Hsame, Z.eqb_refl in Hfast. discriminate.
  - rewrite bool_decide_eq_false_2 by exact Hc. cbn [andb].
    destruct (Z.eqb_spec (Z.of_nat (length bytes)) 0) as [|Hnz]; [reflexivity|].
    assert (Hne : bytes ≠ []) by (intros ->; cbn in Hnz; lia).
    destruct (longpath_utf8_string_logical E h a bytes Hoka Hba Hne) as [ra ->].
    destruct (longpath_utf8_string_logical E h b bytes Hokb Hbb Hne) as [rb ->].
    cbn [mbind option_bind]. rewrite Nat2Z.id. apply strncmp_is_zero_same.
Qed.

(** ** Length against the logical string *)

Lemma get_length_logical E h s bytes :
  string_ok E h s → logical_bytes E h s = Some bytes →
  ∃ l, ecma_string_get_length E h s = Some l ∧ 0 ≤ l ≤ Z.of_nat (length bytes) ∧
       (container s ≠ ECMA_STRING_CONTAINER_UINT32_IN_DESC →
        container s ≠ ECMA_STRING_CONTAINER_HEAP_NUMBER →
        l = lit_utf8_string_length E bytes).
Proof.
  intros (_ & Hcf & Hchunk) Hb.
  pose proof (lit_utf8_string_length_bounds E bytes) as Hbound.
  unfold logical_bytes in Hb. unfold ecma_string_get_length.
  destruct (container s) eqn:Hc.
  - rewrite Hb. eexists. split; [reflexivity|]. split; [exact Hbound|reflexivity].
  - destruct (chunks h !! common_field s) as [c|] eqn:Hl; [|discriminate].
    cbn in *. injection Hb as <-. destruct (Hchunk eq_refl c eq_refl) as [_ ->].
    eexists. split; [reflexivity|]. split; [exact Hbound|reflexivity].
  - unfold ecma_string_get_heap_number_size.
    destruct (numbers h !! common_field s) as [num|]; [|discriminate].
    cbn in *. injection Hb as <-. eexists. split; [reflexivity|]. split; [lia|congruence].
  - injection Hb as <-. rewrite <- number_in_desc_size_digits by exact (Hcf eq_refl).
    eexists. split; [reflexivity|]. split; [lia|congruence].
  - rewrite Hb. eexists. split; [reflexivity|]. split; [exact Hbound|reflexivity].
  - rewrite Hb. eexists. split; [reflexivity|]. split; [exact Hbound|reflexivity].
Qed.

(** ** Acquiring a reference without overflow *)

Lemma copy_or_ref_no_overflow E h p s :
  strings h !! p = Some s →
  to_refs E (refs s + 1) ≠ 0 →
  ecma_copy_or_ref_ecma_string E h p
  = Some (p, heap_set_string p (set_refs s (to_refs E (refs s + 1))) h).
Proof.
  intros Hs Hno. unfold ecma_copy_or_ref_ecma_string. rewrite Hs. cbn [mbind option_bind].
  destruct (Z.eqb_spec (to_refs E (refs s + 1)) 0); [contradiction|reflexivity].
Qed.


(** ** What the constructor from bytes builds *)

Lemma from_utf8_spec E h (bytes : list Z) :
  Z.of_nat (length bytes) < 2 ^ 16 →
  ∃ s h',
    ecma_new_ecma_string_from_utf8 E h bytes = Some (ecma_alloc_string h, h') ∧
    strings h' = <[ecma_alloc_string h := s]> (strings h) ∧
    heap_extends h h' ∧
    string_ok E h' s ∧
    logical_bytes E h' s = Some bytes ∧
    hash s = lit_utf8_string_calc_hash E bytes ∧
    refs s = 1 ∧
    (container s = ECMA_STRING_CONTAINER_MAGIC_STRING ∧
     lit_is_utf8_string_magic E bytes = Some (common_field s)
     ∨ container s = ECMA_STRING_CONTAINER_MAGIC_STRING_EX ∧
       lit_is_ex_utf8_string_magic E bytes = Some (common_field s)
     ∨ container s = ECMA_STRING_CONTAINER_HEAP_CHUNKS ∧
       chunks h !! common_field s = None).
Proof.
  intros Hlen. unfold ecma_new_ecma_string_from_utf8.
  destruct (lit_is_utf8_string_magic E bytes) as [id|] eqn:Hm.
  { pose proof (magic_table_find_get _ _ _ Hm) as Hget.
    unfold ecma_get_magic_string, ecma_new_ecma_string_from_magic_string_id,
      ecma_init_ecma_string_from_magic_string_id, lit_get_magic_string_utf8.
    rewrite Hget. cbn [mbind option_bind].
    eexists _, _. split; [reflexivity|]. split; [reflexivity|].
    split; [apply heap_extends_set_string|].
    split.
    { split; [exists bytes; exact Hget|]. split; intros Hc; discriminate Hc. }
    split; [exact Hget|]. split; [reflexivity|]. split; [reflexivity|].
    left. split; reflexivity. }
  destruct (lit_is_ex_utf8_string_magic E bytes) as [id|] eqn:Hex.
  { pose proof (magic_table_find_get _ _ _ Hex) as Hget.
    unfold ecma_get_magic_string_ex, ecma_new_ecma_string_from_magic_string_ex_id,
      ecma_init_ecma_string_from_magic_string_ex_id, lit_get_magic_string_ex_utf8.
    rewrite Hget. cbn [mbind option_bind].
    eexists _, _. split; [reflexivity|]. split; [reflexivity|].
    split; [apply heap_extends_set_string|].
    split.
    { split; [exists bytes; exact Hget|]. split; intros Hc; discriminate Hc. }
    split; [exact Hget|]. split; [reflexivity|]. split; [reflexivity|].
    right. left. split; reflexivity. }
  set (dp := mem_heap_alloc_block h
                (Z.of_nat (length bytes) + sizeof_ecma_string_heap_header_t)).
  destruct (mem_heap_alloc_block_fresh h
              (Z.of_nat (length bytes) + sizeof_ecma_string_heap_header_t)) as [Hfresh _].
  fold dp in Hfresh.
  pose proof (lit_utf8_string_length_bounds E bytes) as Hbound.
  assert (Hlook : logical_bytes E
            (heap_set_string (ecma_alloc_string h)
               (mk_ecma_string 1 ECMA_STRING_CONTAINER_HEAP_CHUNKS
                  (lit_utf8_string_calc_hash E bytes) dp)
               (heap_set_chunk dp
                  (mk_chunk (to_uint16 (Z.of_nat (length bytes)))
                     (to_uint16 (lit_utf8_string_length E bytes)) bytes) h))
            (mk_ecma_string 1 ECMA_STRING_CONTAINER_HEAP_CHUNKS
               (lit_utf8_string_calc_hash E bytes) dp)
          = Some bytes).
  { unfold logical_bytes. cbn. rewrite lookup_insert_eq. reflexivity. }
  eexists _, _. split; [reflexivity|]. split; [reflexivity|].
  split.
  { eapply heap_extends_trans; [apply heap_extends_set_chunk; exact Hfresh|].
    apply heap_extends_set_string. }
  split.
  { split; [exists bytes; exact Hlook|]. split; [intros Hc; discriminate Hc|].
    intros _ c Hc. cbn in Hc. rewrite lookup_insert_eq in Hc. injection Hc as <-.
    unfold chunk_header_ok, to_uint16. cbn [data_size data_length data_bytes].
    rewrite !Z.mod_small by lia. split; reflexivity. }
  split; [exact Hlook|]. split; [reflexivity|]. split; [reflexivity|].
  right. right. split; [reflexivity|exact Hfresh].
Qed.

(** ** What concatenation of two non-empty strings builds *)

Lemma concat_spec E h p1 p2 s1 s2 (b1 b2 : list Z) l1 l2 :
  strings h !! p1 = Some s1 → strings h !! p2 = Some s2 →
  string_ok E h s1 → string_ok E h s2 →
  logical_bytes E h s1 = Some b1 → logical_bytes E h s2 = Some b2 →
  b1 ≠ [] → b2 ≠ [] →
  Z.of_nat (length b1) + Z.of_nat (length b2) < 2 ^ 32 →
  ecma_string_get_length E h s1 = Some l1 →
  ecma_string_get_length E h s2 = Some l2 →
  ecma_concat_ecma_strings E h p1 p2
  = Some (ecma_alloc_string h,
          heap_set_string (ecma_alloc_string h)
            (mk_ecma_string 1 ECMA_STRING_CONTAINER_HEAP_CHUNKS
               (lit_utf8_string_hash_combine E (hash s1) b2)
               (mem_heap_alloc_block h
                  (Z.of_nat (length b1) + Z.of_nat (length b2)
                   + sizeof_ecma_string_heap_header_t)))
            (heap_set_chunk
               (mem_heap_alloc_block h
                  (Z.of_nat (length b1) + Z.of_nat (length b2)
                   + sizeof_ecma_string_heap_header_t))
               (mk_chunk (to_uint16 (Z.of_nat (length b1) + Z.of_nat (length b2)))
                  (to_uint16 (l1 + l2)) (b1 ++ b2))
               h)).
Proof.
  intros Hp1 Hp2 Hok1 Hok2 Hb1 Hb2 Hne1 Hne2 Hsum Hl1 Hl2.
  assert (Hpos1 : 0 < Z.of_nat (length b1)) by (destruct b1; [congruence|cbn; lia]).
  assert (Hpos2 : 0 < Z.of_nat (length b2)) by (destruct b2; [congruence|cbn; lia]).
  unfold ecma_concat_ecma_strings. rewrite Hp1, Hp2. cbn [mbind option_bind].
  rewrite (get_size_logical E h s1 b1 Hok1 Hb1), (get_size_logical E h s2 b2 Hok2 Hb2).
  cbn [mbind option_bind].
  destruct (Z.eqb_spec (Z.of_nat (length b1)) 0) as [|_]; [lia|].
  destruct (Z.eqb_spec (Z.of_nat (length b2)) 0) as [|_]; [lia|].
  unfold to_uint32. rewrite (Z.mod_small (_ + _)) by lia.
  rewrite (to_utf8_string_logical E h s1 b1 _ _ Hok1 Hb1).
  rewrite bool_decide_eq_true_2 by lia. cbn [mbind option_bind].
  rewrite !Nat2Z.id.
  rewrite (to_utf8_string_logical E h s2 b2 _ _ Hok2 Hb2).
  rewrite bool_decide_eq_true_2 by lia. cbn [mbind option_bind].
  rewrite Hl1, Hl2. cbn [mbind option_bind].
  rewrite (take_app_length b1), !(drop_app_length b1).
  rewrite (drop_ge (drop _ _)).
  2:{ rewrite length_drop, local_array_length. lia. }
  rewrite app_nil_r, firstn_all. reflexivity.
Qed.


(** ** Concatenation and the magic tables: claim C5 *)

Lemma sample_two_chunk_heap_ok a b :
  string_ok Sample.env (Sample.two_chunk_heap a b) (Sample.chunk_string_at 1 a) ∧
  string_ok Sample.env (Sample.two_chunk_heap a b) (Sample.chunk_string_at 2 b).
Proof.
  split.
  - split; [eexists; reflexivity|]. split; [intros Hc; discriminate Hc|].
    intros _ c Hc. cbn in Hc. rewrite lookup_insert_ne, lookup_singleton_eq in Hc by lia.
    injection Hc as <-. split; reflexivity.
  - split; [eexists; reflexivity|]. split; [intros Hc; discriminate Hc|].
    intros _ c Hc. cbn in Hc. rewrite lookup_insert_eq in Hc.
    injection Hc as <-. split; reflexivity.
Defined.

Lemma sample_hash_combine_law : hash_combine_law Sample.env.
Proof.
  intros a b. cbn. unfold Sample.calc_hash, Sample.hash_combine.
  rewrite fold_left_app. reflexivity.
Defined.

Lemma sample_debug_two_chunk_heap_ok a b :
  string_ok Sample.debug_env (Sample.two_chunk_heap a b) (Sample.chunk_string_at 1 a) ∧
  string_ok Sample.debug_env (Sample.two_chunk_heap a b) (Sample.chunk_string_at 2 b).
Proof.
  split.
  - split; [eexists; reflexivity|]. split; [intros Hc; discriminate Hc|].
    intros _ c Hc. cbn in Hc. rewrite lookup_insert_ne, lookup_singleton_eq in Hc by lia.
    injection Hc as <-. split; reflexivity.
  - split; [eexists; reflexivity|]. split; [intros Hc; discriminate Hc|].
    intros _ c Hc. cbn in Hc. rewrite lookup_insert_eq in Hc.
    injection Hc as <-. split; reflexivity.
Defined.

Lemma sample_debug_hash_combine_law : hash_combine_law Sample.debug_env.
Proof.
  intros a b. cbn. unfold Sample.calc_hash, Sample.hash_combine.
  rewrite fold_left_app. reflexivity.
Defined.

(** C5 (the code departs from the claim in a build with assertions): the
    concatenation of two well-formed descriptors of non-zero byte-size is a
    [HEAP_CHUNKS] descriptor, also when its bytes are those of a built-in or
    of an external magic string, and (for fewer than 2^16 bytes) it compares
    equal to the descriptor built from that identifier when the hash of the
    first operand is the hash of its bytes and hashes combine.  On this
    result [ecma_is_string_magic] answers false in a build with
    [JERRY_NDEBUG].  In a build with assertions, for a result of at most
    [LIT_MAGIC_STRING_LENGTH_LIMIT] bytes, it answers false only when no
    built-in magic string has these bytes; when one has, the assertion of
    its [else] branch fails and the engine stops. *)
Theorem C5_concat_result_fails_magic_assertion E h p1 p2 s1 s2 (b1 b2 : list Z) :
  strings h !! p1 = Some s1 → strings h !! p2 = Some s2 →
  string_ok E h s1 → string_ok E h s2 →
  logical_bytes E h s1 = Some b1 → logical_bytes E h s2 = Some b2 →
  b1 ≠ [] → b2 ≠ [] →
  Z.of_nat (length b1) + Z.of_nat (length b2) < 2 ^ 32 →
  ∃ p h' c,
    ecma_concat_ecma_strings E h p1 p2 = Some (p, h') ∧
    strings h' !! p = Some c ∧
    container c = ECMA_STRING_CONTAINER_HEAP_CHUNKS ∧
    (JERRY_NDEBUG E = true → ecma_is_string_magic E h' c = Some None) ∧
    (JERRY_NDEBUG E = false →
     Z.of_nat (length (b1 ++ b2)) < 2 ^ 16 →
     Z.of_nat (length (b1 ++ b2)) ≤ LIT_MAGIC_STRING_LENGTH_LIMIT E →
     ecma_is_string_magic E h' c
     = match lit_is_utf8_string_magic E (b1 ++ b2) with
       | Some _ => None
       | None => Some None
       end) ∧
    (∀ id,
       lit_get_magic_string_utf8 E id = Some (b1 ++ b2) →
       Z.of_nat (length (b1 ++ b2)) < 2 ^ 16 →
       hash_ok E h s1 → hash_combine_law E →
       ∃ q h'' m,
         ecma_new_ecma_string_from_magic_string_id E h' id = Some (q, h'') ∧
         strings h'' !! q = Some m ∧
         container m = ECMA_STRING_CONTAINER_MAGIC_STRING ∧
         common_field m = id ∧
         strings h'' !! p = Some c ∧
         ecma_compare_ecma_strings E h'' c m = Some true) ∧
    (∀ id,
       lit_get_magic_string_ex_utf8 E id = Some (b1 ++ b2) →
       Z.of_nat (length (b1 ++ b2)) < 2 ^ 16 →
       hash_ok E h s1 → hash_combine_law E →
       ∃ q h'' m,
         ecma_new_ecma_string_from_magic_string_ex_id E h' id = Some (q, h'') ∧
         strings h'' !! q = Some m ∧
         container m = ECMA_STRING_CONTAINER_MAGIC_STRING_EX ∧
         common_field m = id ∧
         strings h'' !! p = Some c ∧
         ecma_compare_ecma_strings E h'' c m = Some true).
Proof.
  intros Hp1 Hp2 Hok1 Hok2 Hb1 Hb2 Hne1 Hne2 Hsum.
  assert (Hlen : Z.of_nat (length (b1 ++ b2)) = Z.of_nat (length b1) + Z.of_nat (length b2)).
  { rewrite length_app. lia. }
  assert (Hpos : 0 < Z.of_nat (length (b1 ++ b2))).
  { destruct b1; [congruence|cbn; lia]. }
  assert (Hne : b1 ++ b2 ≠ []) by (destruct b1; [congruence|discriminate]).
  destruct (get_length_logical E h s1 b1 Hok1 Hb1) as (l1 & Hl1 & Hbound1 & _).
  destruct (get_length_logical E h s2 b2 Hok2 Hb2) as (l2 & Hl2 & Hbound2 & _).
  rewrite (concat_spec E h p1 p2 s1 s2 b1 b2 l1 l2) by (assumption || lia).
  set (p := ecma_alloc_string h). set (dp := mem_heap_alloc_block h _).
  set (c := mk_ecma_string 1 ECMA_STRING_CONTAINER_HEAP_CHUNKS _ dp).
  set (chunk := mk_chunk _ _ _).
  set (h' := heap_set_string p c (heap_set_chunk dp chunk h)).
  exists p, h', c. split; [reflexivity|].
  assert (Hpc : strings h' !! p = Some c) by apply heap_set_string_lookup.
  assert (Hchunk' : chunks h' !! dp = Some chunk) by (cbn; apply lookup_insert_eq).
  split; [exact Hpc|]. split; [reflexivity|].
  (* the comparison with any descriptor of another container that has the
     same bytes and their hash *)
  assert (Hcmp : ∀ h'' m,
            Z.of_nat (length (b1 ++ b2)) < 2 ^ 16 →
            chunks h'' !! dp = Some chunk →
            string_ok E h'' m → logical_bytes E h'' m = Some (b1 ++ b2) →
            hash m = lit_utf8_string_calc_hash E (b1 ++ b2) →
            container m ≠ ECMA_STRING_CONTAINER_HEAP_CHUNKS →
            hash_ok E h s1 → hash_combine_law E →
            ecma_compare_ecma_strings E h'' c m = Some true).
  { intros h'' m Hsmall Hchunk Hmok Hmb Hmh Hmc Hhash Hlaw.
    unfold ecma_compare_ecma_strings.
    assert (Hh : hash c = hash m).
    { cbn [hash c]. rewrite (Hhash b1 Hb1), Hmh. apply Hlaw. }
    rewrite Hh, Z.eqb_refl. cbn [negb].
    rewrite bool_decide_eq_false_2 by (cbn [container c]; congruence). cbn [andb].
    unfold ecma_compare_ecma_strings_longpath.
    rewrite bool_decide_eq_false_2 by (cbn [container c]; congruence). cbn [andb].
    rewrite (get_size_logical E h'' m (b1 ++ b2) Hmok Hmb).
    unfold ecma_string_get_size at 1. cbn [container c common_field]. rewrite Hchunk.
    cbn [mbind option_bind data_size chunk].
    unfold to_uint16. rewrite Z.mod_small by lia.
    rewrite <- Hlen, Z.eqb_refl. cbn [negb].
    destruct (Z.eqb_spec (Z.of_nat (length (b1 ++ b2))) 0) as [|_]; [lia|].
    destruct (longpath_utf8_string_logical E h'' m (b1 ++ b2) Hmok Hmb Hne) as [r ->].
    unfold longpath_utf8_string. cbn [container c common_field]. rewrite Hchunk.
    cbn [mbind option_bind data_bytes chunk]. rewrite Nat2Z.id.
    rewrite <- (app_nil_r (b1 ++ b2)) at 1. apply strncmp_is_zero_same. }
  split.
  { intros Hrelease. unfold ecma_is_string_magic, JERRY_ASSERT.
    rewrite bool_decide_eq_false_2 by (cbn [container c]; discriminate).
    rewrite Hrelease. reflexivity. }
  split.
  { intros Hdebug Hsmall Hlimit. unfold ecma_is_string_magic.
    rewrite bool_decide_eq_false_2 by (cbn [container c]; discriminate).
    unfold ecma_string_get_length. cbn [container c common_field]. rewrite Hchunk'.
    cbn [mbind option_bind data_length chunk].
    unfold to_uint16 at 1. rewrite Z.mod_small by lia.
    destruct (Z.ltb_spec (LIT_MAGIC_STRING_LENGTH_LIMIT E) (l1 + l2)) as [|_]; [lia|].
    unfold ecma_is_string_magic_longpath, ecma_string_to_utf8_string, ecma_string_get_size.
    cbn [container c common_field]. rewrite Hchunk'.
    cbn [mbind option_bind data_size chunk].
    unfold to_uint16. rewrite Z.mod_small by lia.
    destruct (Z.ltb_spec (LIT_MAGIC_STRING_LENGTH_LIMIT E)
                (Z.of_nat (length b1) + Z.of_nat (length b2))) as [|_]; [lia|].
    destruct (Z.eqb_spec (LIT_MAGIC_STRING_LENGTH_LIMIT E) 0) as [|_]; [lia|].
    cbn [orb]. unfold ecma_string_copied_bytes. cbn [container c common_field].
    rewrite Hchunk'. cbn [mbind option_bind data_size data_bytes chunk].
    unfold to_uint16. rewrite Z.mod_small by lia.
    replace (Z.to_nat (Z.of_nat (length b1) + Z.of_nat (length b2)))
      with (length (b1 ++ b2)) by lia.
    rewrite firstn_all. unfold JERRY_ASSERT at 2. rewrite Hdebug.
    destruct (Z.ltb_spec 0 (Z.of_nat (length b1) + Z.of_nat (length b2))) as [_|]; [|lia].
    cbn [mbind option_bind]. unfold to_uint32. rewrite Z.mod_small by lia.
    unfold memcpy.
    rewrite bool_decide_eq_true_2 by (rewrite length_app; lia).
    cbn [mbind option_bind].
    replace (Z.to_nat (Z.of_nat (length b1) + Z.of_nat (length b2)))
      with (length (b1 ++ b2)) by lia.
    rewrite (take_app_length (b1 ++ b2)).
    unfold JERRY_ASSERT. rewrite Hdebug.
    destruct (lit_is_utf8_string_magic E (b1 ++ b2)); reflexivity. }
  split.
  - intros id Hid Hsmall Hhash Hlaw.
    unfold ecma_new_ecma_string_from_magic_string_id, ecma_init_ecma_string_from_magic_string_id.
    rewrite Hid. cbn [mbind option_bind].
    set (q := ecma_alloc_string h').
    set (m := mk_ecma_string 1 ECMA_STRING_CONTAINER_MAGIC_STRING _ id).
    set (h'' := heap_set_string q m h').
    exists q, h'', m. split; [reflexivity|].
    split; [apply heap_set_string_lookup|]. split; [reflexivity|]. split; [reflexivity|].
    assert (Hq : q ≠ p).
    { destruct (ecma_alloc_string_fresh h') as [Hf _]. fold q in Hf. congruence. }
    split.
    { unfold h''. cbn. rewrite lookup_insert_ne by exact Hq. exact Hpc. }
    apply (Hcmp h'' m).
    + exact Hsmall.
    + cbn. apply lookup_insert_eq.
    + split; [exists (b1 ++ b2); exact Hid|]. split; intros Hc; discriminate Hc.
    + exact Hid.
    + reflexivity.
    + discriminate.
    + exact Hhash.
    + exact Hlaw.
  - intros id Hid Hsmall Hhash Hlaw.
    unfold ecma_new_ecma_string_from_magic_string_ex_id,
      ecma_init_ecma_string_from_magic_string_ex_id.
    rewrite Hid. cbn [mbind option_bind].
    set (q := ecma_alloc_string h').
    set (m := mk_ecma_string 1 ECMA_STRING_CONTAINER_MAGIC_STRING_EX _ id).
    set (h'' := heap_set_string q m h').
    exists q, h'', m. split; [reflexivity|].
    split; [apply heap_set_string_lookup|]. split; [reflexivity|]. split; [reflexivity|].
    assert (Hq : q ≠ p).
    { destruct (ecma_alloc_string_fresh h') as [Hf _]. fold q in Hf. congruence. }
    split.
    { unfold h''. cbn. rewrite lookup_insert_ne by exact Hq. exact Hpc. }
    apply (Hcmp h'' m).
    + exact Hsmall.
    + cbn. apply lookup_insert_eq.
    + split; [exists (b1 ++ b2); exact Hid|]. split; intros Hc; discriminate Hc.
    + exact Hid.
    + reflexivity.
    + discriminate.
    + exact Hhash.
    + exact Hlaw.
Qed.

(** C5 at the strings ["leng"] and ["th"] in a build with assertions: the
    concatenation is a [HEAP_CHUNKS] descriptor that compares equal to the
    magic string ["length"], and [ecma_is_string_magic] stops on it at the
    assertion of its [else] branch. *)
Lemma C5_concat_magic_assertion_witness :
  ∃ p h' c,
    ecma_concat_ecma_strings Sample.debug_env
      (Sample.two_chunk_heap Sample.leng Sample.th) 1 2 = Some (p, h') ∧
    strings h' !! p = Some c ∧
    container c = ECMA_STRING_CONTAINER_HEAP_CHUNKS ∧
    ecma_is_string_magic Sample.debug_env h' c = None ∧
    ∃ q h'' m,
      ecma_new_ecma_string_from_magic_string_id Sample.debug_env h' 1 = Some (q, h'') ∧
      strings h'' !! q = Some m ∧
      container m = ECMA_STRING_CONTAINER_MAGIC_STRING ∧
      common_field m = 1 ∧
      strings h'' !! p = Some c ∧
      ecma_compare_ecma_strings Sample.debug_env h'' c m = Some true.
Proof.
  destruct (C5_concat_result_fails_magic_assertion Sample.debug_env
              (Sample.two_chunk_heap Sample.leng Sample.th) 1 2
              (Sample.chunk_string_at 1 Sample.leng) (Sample.chunk_string_at 2 Sample.th)
              Sample.leng Sample.th eq_refl eq_refl
              (proj1 (sample_debug_two_chunk_heap_ok Sample.leng Sample.th))
              (proj2 (sample_debug_two_chunk_heap_ok Sample.leng Sample.th))
              eq_refl eq_refl)
    as (p & h' & c & Hconcat & Hp & Hc & _ & Hdebug & Heq & _).
  - discriminate.
  - discriminate.
  - cbn. lia.
  - exists p, h', c. repeat (split; [assumption|]).
    split.
    + apply Hdebug; [reflexivity|cbn; lia|cbn; lia].
    + apply (Heq 1).
      * reflexivity.
      * cbn. lia.
      * intros bytes Hb. injection Hb as <-. reflexivity.
      * exact sample_debug_hash_combine_law.
Defined.

(** In a build with [JERRY_NDEBUG] the same test answers false. *)
Example C5_concat_release_build :
  ∃ p h' c,
    ecma_concat_ecma_strings Sample.env
      (Sample.two_chunk_heap Sample.leng Sample.th) 1 2 = Some (p, h') ∧
    strings h' !! p = Some c ∧
    ecma_is_string_magic Sample.env h' c = Some None.
Proof.
  eexists _, _, _. split; [vm_compute; reflexivity|].
  split; [vm_compute; reflexivity|]. reflexivity.
Qed.


(** ** Concatenation with an empty operand *)

Lemma concat_empty_left E h p1 p2 s1 s2 (b2 : list Z) :
  strings h !! p1 = Some s1 → strings h !! p2 = Some s2 →
  string_ok E h s1 → string_ok E h s2 →
  logical_bytes E h s1 = Some [] → logical_bytes E h s2 = Some b2 →
  ecma_concat_ecma_strings E h p1 p2 = ecma_copy_or_ref_ecma_string E h p2.
Proof.
  intros Hp1 Hp2 Hok1 Hok2 Hb1 Hb2.
  unfold ecma_concat_ecma_strings. rewrite Hp1, Hp2. cbn [mbind option_bind].
  rewrite (get_size_logical E h s1 [] Hok1 Hb1), (get_size_logical E h s2 b2 Hok2 Hb2).
  reflexivity.
Qed.

Lemma concat_empty_right E h p1 p2 s1 s2 (b1 : list Z) :
  strings h !! p1 = Some s1 → strings h !! p2 = Some s2 →
  string_ok E h s1 → string_ok E h s2 →
  logical_bytes E h s1 = Some b1 → logical_bytes E h s2 = Some [] →
  b1 ≠ [] →
  ecma_concat_ecma_strings E h p1 p2 = ecma_copy_or_ref_ecma_string E h p1.
Proof.
  intros Hp1 Hp2 Hok1 Hok2 Hb1 Hb2 Hne1.
  assert (Hpos1 : 0 < Z.of_nat (length b1)) by (destruct b1; [congruence|cbn; lia]).
  unfold ecma_concat_ecma_strings. rewrite Hp1, Hp2. cbn [mbind option_bind].
  rewrite (get_size_logical E h s1 b1 Hok1 Hb1), (get_size_logical E h s2 [] Hok2 Hb2).
  cbn [mbind option_bind].
  destruct (Z.eqb_spec (Z.of_nat (length b1)) 0) as [|_]; [lia|]. reflexivity.
Qed.

(** ** Concatenation: claim C4 *)



Lemma sample_magic_string_ok h r id bytes :
  lit_get_magic_string_utf8 Sample.env id = Some bytes →
  string_ok Sample.env h
    (mk_ecma_string r ECMA_STRING_CONTAINER_MAGIC_STRING (Sample.calc_hash bytes) id).
Proof.
  intros Hid. split; [exists bytes; exact Hid|]. split; intros Hc; discriminate Hc.
Defined.



(** ** Substrings: claim C8 *)

(** The byte offsets of the code units [i <= j] of a slice made of whole
    code units; the bytes between them are [j - i] whole code units. *)
Lemma code_unit_offsets E (bytes : list Z) n i j :
  code_units E bytes n →
  (i ≤ j)%nat → (j ≤ n)%nat →
  ∃ a b,
    skip_code_units E bytes i 0 = Some a ∧
    skip_code_units E bytes j 0 = Some b ∧
    (a ≤ b ≤ length bytes)%nat ∧
    code_units E (take (b - a) (drop a bytes)) (j - i).
Proof.
  intros Hu Hij Hj.
  destruct (skip_code_units_units E bytes i 0 n) as (a & Ha & Hale & _ & Hrest);
    [lia|exact Hu|lia|].
  cbn [Nat.add] in Ha, Hale, Hrest.
  destruct (skip_code_units_units E bytes (j - i) a (n - i))
    as (q & Hq & Hqle & Hslice & _); [lia|exact Hrest|lia|].
  exists a, (a + q)%nat. split; [exact Ha|].
  split.
  { replace j with (i + (j - i))%nat at 1 by lia.
    rewrite skip_code_units_add, Ha. exact Hq. }
  split; [lia|].
  replace (a + q - a)%nat with q by lia. exact Hslice.
Qed.

Lemma heap_extends_set_block p b h : heap_extends h (heap_set_block p b h).
Proof. split; reflexivity. Qed.

Lemma from_utf8_builds E h (x : list Z) :
  Z.of_nat (length x) < 2 ^ 16 → builds E h x (ecma_new_ecma_string_from_utf8 E h x).
Proof. exact (from_utf8_spec E h x). Qed.

(** The constructors leave scratch blocks alone, and put no chunk at the
    address of one. *)
Lemma get_magic_string_heap E h id p h' :
  ecma_get_magic_string E h id = Some (p, h') →
  blocks h' = blocks h ∧ chunks h' = chunks h.
Proof.
  unfold ecma_get_magic_string, ecma_new_ecma_string_from_magic_string_id.
  destruct (ecma_init_ecma_string_from_magic_string_id E id) as [m|]; [|discriminate].
  cbn [mbind option_bind]. intros Hf. injection Hf as _ <-. split; reflexivity.
Qed.

Lemma get_magic_string_ex_heap E h id p h' :
  ecma_get_magic_string_ex E h id = Some (p, h') →
  blocks h' = blocks h ∧ chunks h' = chunks h.
Proof.
  unfold ecma_get_magic_string_ex, ecma_new_ecma_string_from_magic_string_ex_id.
  destruct (ecma_init_ecma_string_from_magic_string_ex_id E id) as [m|]; [|discriminate].
  cbn [mbind option_bind]. intros Hf. injection Hf as _ <-. split; reflexivity.
Qed.

Lemma from_utf8_keeps_blocks E h (x : list Z) p h' :
  ecma_new_ecma_string_from_utf8 E h x = Some (p, h') →
  blocks h' = blocks h ∧
  ∀ q, is_Some (blocks h !! q) → chunks h' !! q = chunks h !! q.
Proof.
  unfold ecma_new_ecma_string_from_utf8.
  destruct (lit_is_utf8_string_magic E x) as [id|].
  { intros Hf. destruct (get_magic_string_heap E h id p h' Hf) as [Hb Hc].
    split; [exact Hb|]. intros q _. rewrite Hc. reflexivity. }
  destruct (lit_is_ex_utf8_string_magic E x) as [id|].
  { intros Hf. destruct (get_magic_string_ex_heap E h id p h' Hf) as [Hb Hc].
    split; [exact Hb|]. intros q _. rewrite Hc. reflexivity. }
  intros Hf. injection Hf as _ <-. split; [reflexivity|].
  intros q [b Hq]. cbn [chunks heap_set_string heap_set_chunk].
  apply lookup_insert_ne. intros Heq. subst q.
  rewrite mem_heap_alloc_block_not_a_block in Hq. discriminate Hq.
Qed.

(** Giving back a scratch array that is still in the heap. *)
Lemma finalize_local_array var_name number h :
  0 ≤ number →
  chunks h !! var_name = None →
  blocks h !! var_name = Some (local_array number) →
  MEM_FINALIZE_LOCAL_ARRAY var_name number h
  = Some (mk_heap (strings h) (chunks h) (numbers h) (delete var_name (blocks h))).
Proof.
  intros Hn Hc Hb. unfold MEM_FINALIZE_LOCAL_ARRAY, mem_heap_free_block.
  rewrite Hc, Hb. cbn [mbind option_bind]. rewrite local_array_length.
  destruct (Z.eqb_spec number (Z.of_nat (Z.to_nat number))) as [_|Hne]; [reflexivity|lia].
Qed.

(** A string built while a scratch array is held, the array given back
    afterwards: the result is what the builder contract says, in the heap
    without the array. *)
Lemma builds_under_local_array E h (x : list Z) number r :
  0 ≤ number →
  builds E (MEM_DEFINE_LOCAL_ARRAY h number).2 x r →
  (∀ p h2, r = Some (p, h2) →
     blocks h2 = blocks (MEM_DEFINE_LOCAL_ARRAY h number).2 ∧
     chunks h2 !! (MEM_DEFINE_LOCAL_ARRAY h number).1 = None) →
  builds E h x
    ('(p, h2) ← r;
     h3 ← MEM_FINALIZE_LOCAL_ARRAY (MEM_DEFINE_LOCAL_ARRAY h number).1 number h2;
     Some (p, h3)) ∧
  ∀ p h3,
    ('(p, h2) ← r;
     h3 ← MEM_FINALIZE_LOCAL_ARRAY (MEM_DEFINE_LOCAL_ARRAY h number).1 number h2;
     Some (p, h3)) = Some (p, h3) →
    blocks h3 = blocks h.
Proof.
  intros Hn (c & h2 & Hr & Hstr & Hext & Hok & Hb & Hh & Hrefs & Hk) Hkeep.
  destruct (Hkeep _ _ Hr) as [Hblocks Hnochunk].
  unfold MEM_DEFINE_LOCAL_ARRAY in *. cbn [fst snd] in *.
  set (var_name := mem_heap_alloc_block h number) in *.
  set (h1 := heap_set_block var_name (local_array number) h) in *.
  assert (Hfree : blocks h !! var_name = None)
    by apply mem_heap_alloc_block_not_a_block.
  assert (Hheld : blocks h2 !! var_name = Some (local_array number)).
  { rewrite Hblocks. cbn. apply lookup_insert_eq. }
  rewrite Hr. cbn [mbind option_bind].
  rewrite (finalize_local_array var_name number h2 Hn Hnochunk Hheld).
  cbn [mbind option_bind].
  set (h3 := mk_heap (strings h2) (chunks h2) (numbers h2) (delete var_name (blocks h2))).
  assert (Hext23 : heap_extends h2 h3) by (split; reflexivity).
  split.
  - exists c, h3. split; [reflexivity|]. split; [exact Hstr|].
    split.
    { apply (heap_extends_trans h h1 h3); [apply heap_extends_set_block|].
      apply (heap_extends_trans h1 h2 h3); assumption. }
    split; [exact (string_ok_extends E h2 h3 c Hext23 Hok)|].
    split; [exact (logical_bytes_extends E h2 h3 c x Hext23 Hb)|].
    split; [exact Hh|]. split; [exact Hrefs|]. exact Hk.
  - intros p h3' Heq. injection Heq as _ <-. unfold h3. cbn [blocks].
    rewrite Hblocks. cbn. apply delete_insert_id. exact Hfree.
Qed.

(** The substring between the code units [i <= j] is built from the bytes
    between their offsets, and the scratch array is gone when it returns. *)
Lemma substr_builds E h s (bytes : list Z) n i j a b :
  string_ok E h s → logical_bytes E h s = Some bytes →
  code_units E bytes n →
  Z.of_nat (length bytes) < 2 ^ 16 →
  0 ≤ i → i ≤ j → j ≤ Z.of_nat n →
  skip_code_units E bytes (Z.to_nat i) 0 = Some a →
  skip_code_units E bytes (Z.to_nat j) 0 = Some b →
  (a ≤ b ≤ length bytes)%nat →
  builds E h (take (b - a) (drop a bytes)) (ecma_string_substr E h s i j) ∧
  ∀ p h', ecma_string_substr E h s i j = Some (p, h') → blocks h' = blocks h.
Proof.
  intros Hok Hb Hu Hlen Hi Hij Hj Ha Hbo Hab.
  assert (Hxlen : Z.of_nat (length (take (b - a) (drop a bytes))) < 2 ^ 16).
  { rewrite length_take, length_drop. lia. }
  unfold ecma_string_substr.
  destruct (Z.ltb_spec i j) as [Hlt|Hge].
  - rewrite (get_size_logical E h s bytes Hok Hb). cbn [mbind option_bind].
    pose proof (code_units_length E bytes n Hu) as Hn.
    set (number := Z.of_nat (length bytes)) in *.
    rewrite (surjective_pairing (MEM_DEFINE_LOCAL_ARRAY h number)).
    set (h1 := (MEM_DEFINE_LOCAL_ARRAY h number).2).
    assert (Hext1 : heap_extends h h1) by apply heap_extends_set_block.
    pose proof (string_ok_extends E h h1 s Hext1 Hok) as Hok1.
    pose proof (logical_bytes_extends E h h1 s bytes Hext1 Hb) as Hb1.
    rewrite (to_utf8_string_logical E h1 s bytes _ _ Hok1 Hb1).
    rewrite bool_decide_eq_true_2 by lia. cbn [mbind option_bind].
    rewrite (drop_ge (local_array _)) by (rewrite local_array_length; lia).
    rewrite app_nil_r. rewrite Ha. cbn [mbind option_bind].
    unfold to_uint32. rewrite Z.mod_small by lia.
    assert (Hq : skip_code_units E bytes (Z.to_nat (j - i)) a = Some b).
    { replace (Z.to_nat j) with (Z.to_nat i + Z.to_nat (j - i))%nat in Hbo by lia.
      rewrite skip_code_units_add, Ha in Hbo. exact Hbo. }
    rewrite Hq. cbn [mbind option_bind].
    rewrite bool_decide_eq_true_2 by lia.
    apply (builds_under_local_array E h (take (b - a) (drop a bytes)) number).
    + lia.
    + apply from_utf8_builds. exact Hxlen.
    + intros p h2 Hf.
      destruct (from_utf8_keeps_blocks E h1 _ p h2 Hf) as [Hblocks Hchunks].
      split; [exact Hblocks|].
      rewrite Hchunks.
      * exact (proj1 (mem_heap_alloc_block_fresh h number)).
      * exists (local_array number). cbn. apply lookup_insert_eq.
  - assert (Heq : a = b).
    { replace j with i in Hbo by lia. congruence. }
    subst b. rewrite Nat.sub_diag in *. cbn [take] in *.
    split; [apply from_utf8_builds; exact Hxlen|].
    intros p h' Hf. apply (from_utf8_keeps_blocks E h [] p h' Hf).
Qed.

Lemma logical_bytes_set_refs E h s r :
  logical_bytes E h (set_refs s r) = logical_bytes E h s.
Proof. reflexivity. Qed.

Lemma string_ok_set_refs E h s r : string_ok E h s → string_ok E h (set_refs s r).
Proof. intros H. exact H. Qed.

(** Acquiring a string built from [x] and comparing it with a second string
    built from [x] by the builder [B]. *)
Lemma acquire_then_rebuild_equal E h p s (x : list Z)
    (B : ecma_heap → option (Z * ecma_heap)) :
  (∀ h', heap_extends h h' → builds E h' x (B h')) →
  strings h !! p = Some s →
  string_ok E h s → logical_bytes E h s = Some x →
  hash s = lit_utf8_string_calc_hash E x →
  refs s = 1 →
  to_refs E 2 ≠ 0 →
  Z.of_nat (length x) < 2 ^ 16 →
  (container s = ECMA_STRING_CONTAINER_MAGIC_STRING ∧
   lit_is_utf8_string_magic E x = Some (common_field s)
   ∨ container s = ECMA_STRING_CONTAINER_MAGIC_STRING_EX ∧
     lit_is_ex_utf8_string_magic E x = Some (common_field s)
   ∨ container s = ECMA_STRING_CONTAINER_HEAP_CHUNKS) →
  ∃ h3 p3 h4 c d,
    ecma_copy_or_ref_ecma_string E h p = Some (p, h3) ∧
    heap_extends h h3 ∧
    B h3 = Some (p3, h4) ∧
    strings h4 !! p = Some c ∧
    strings h4 !! p3 = Some d ∧
    logical_bytes E h4 c = Some x ∧
    logical_bytes E h4 d = Some x ∧
    ecma_compare_ecma_strings E h4 c d = Some true.
Proof.
  intros HB Hp Hok Hb Hh Hr Hroom Hlen Hk.
  rewrite (copy_or_ref_no_overflow E h p s Hp) by (rewrite Hr; exact Hroom).
  set (c := set_refs s (to_refs E (refs s + 1))).
  set (h3 := heap_set_string p c h).
  destruct (HB h3 (heap_extends_set_string p c h))
    as (d & h4 & Hf & Hstr & Hext & Hokd & Hbd & Hhd & _ & Hkd).
  assert (Hpc : strings h3 !! p = Some c) by apply heap_set_string_lookup.
  assert (Hne : ecma_alloc_string h3 ≠ p).
  { destruct (ecma_alloc_string_fresh h3) as [Hfresh _]. congruence. }
  assert (Hext3 : heap_extends h h4).
  { eapply heap_extends_trans; [apply heap_extends_set_string|exact Hext]. }
  assert (Hbc : logical_bytes E h4 c = Some x).
  { apply (logical_bytes_extends E h h4 s x Hext3 Hb). }
  exists h3, (ecma_alloc_string h3), h4, c, d.
  split; [reflexivity|]. split; [apply heap_extends_set_string|]. split; [exact Hf|].
  split; [rewrite Hstr, lookup_insert_ne by exact Hne; exact Hpc|].
  split; [rewrite Hstr; apply lookup_insert_eq|].
  split; [exact Hbc|]. split; [exact Hbd|].
  apply (compare_equal_bytes E h4 c d x).
  - apply (string_ok_extends E h h4 s Hext3 Hok).
  - exact Hokd.
  - exact Hbc.
  - exact Hbd.
  - cbn [hash c set_refs]. congruence.
  - cbn [container common_field c set_refs]. intros Hceq Hnchunk.
    destruct Hk as [[Hc Hm]|[[Hc Hm]|Hc]];
      destruct Hkd as [[Hcd Hmd]|[[Hcd Hmd]|[Hcd _]]]; congruence.
Qed.

(** Two strings built from [x1] and [x2], concatenated, against the string
    built from [x1 ++ x2]; [B1], [B2] and [B3] are the three builders. *)
Lemma built_concat_equal E h (x1 x2 : list Z) m1 m2
    (B1 B2 B3 : ecma_heap → option (Z * ecma_heap)) :
  (∀ h', heap_extends h h' → builds E h' x1 (B1 h')) →
  (∀ h', heap_extends h h' → builds E h' x2 (B2 h')) →
  (∀ h', heap_extends h h' → builds E h' (x1 ++ x2) (B3 h')) →
  code_units E x1 m1 → code_units E x2 m2 →
  Z.of_nat (length (x1 ++ x2)) < 2 ^ 16 →
  hash_combine_law E →
  to_refs E 2 ≠ 0 →
  ∃ p1 h1 p2 h2 pc h3 p3 h4 c d,
    B1 h = Some (p1, h1) ∧
    heap_extends h h1 ∧
    B2 h1 = Some (p2, h2) ∧
    ecma_concat_ecma_strings E h2 p1 p2 = Some (pc, h3) ∧
    heap_extends h h3 ∧
    B3 h3 = Some (p3, h4) ∧
    strings h4 !! pc = Some c ∧
    strings h4 !! p3 = Some d ∧
    logical_bytes E h4 c = Some (x1 ++ x2) ∧
    logical_bytes E h4 d = Some (x1 ++ x2) ∧
    ecma_compare_ecma_strings E h4 c d = Some true.
Proof.
  intros HB1 HB2 HB3 Hu1 Hu2 Hlen Hlaw Hroom.
  rewrite length_app in Hlen.
  destruct (HB1 h (heap_extends_refl h))
    as (s1 & h1 & Hf1 & Hstr1 & Hext1 & Hok1 & Hb1 & Hh1 & Hr1 & Hk1).
  destruct (HB2 h1 Hext1)
    as (s2 & h2 & Hf2 & Hstr2 & Hext2 & Hok2 & Hb2 & Hh2 & Hr2 & Hk2).
  set (p1 := ecma_alloc_string h) in *. set (p2 := ecma_alloc_string h1) in *.
  assert (Hp1h1 : strings h1 !! p1 = Some s1) by (rewrite Hstr1; apply lookup_insert_eq).
  assert (Hne21 : p2 ≠ p1).
  { destruct (ecma_alloc_string_fresh h1) as [Hfresh _]. fold p2 in Hfresh. congruence. }
  assert (Hp1 : strings h2 !! p1 = Some s1).
  { rewrite Hstr2, lookup_insert_ne by exact Hne21. exact Hp1h1. }
  assert (Hp2 : strings h2 !! p2 = Some s2) by (rewrite Hstr2; apply lookup_insert_eq).
  pose proof (string_ok_extends E h1 h2 s1 Hext2 Hok1) as Hok1'.
  pose proof (logical_bytes_extends E h1 h2 s1 x1 Hext2 Hb1) as Hb1'.
  assert (Hext02 : heap_extends h h2) by (eapply heap_extends_trans; eassumption).
  assert (Hk1' : container s1 = ECMA_STRING_CONTAINER_MAGIC_STRING ∧
                 lit_is_utf8_string_magic E x1 = Some (common_field s1)
                 ∨ container s1 = ECMA_STRING_CONTAINER_MAGIC_STRING_EX ∧
                   lit_is_ex_utf8_string_magic E x1 = Some (common_field s1)
                 ∨ container s1 = ECMA_STRING_CONTAINER_HEAP_CHUNKS).
  { destruct Hk1 as [?|[?|[? _]]]; auto. }
  assert (Hk2' : container s2 = ECMA_STRING_CONTAINER_MAGIC_STRING ∧
                 lit_is_utf8_string_magic E x2 = Some (common_field s2)
                 ∨ container s2 = ECMA_STRING_CONTAINER_MAGIC_STRING_EX ∧
                   lit_is_ex_utf8_string_magic E x2 = Some (common_field s2)
                 ∨ container s2 = ECMA_STRING_CONTAINER_HEAP_CHUNKS).
  { destruct Hk2 as [?|[?|[? _]]]; auto. }
  destruct (decide (x1 = [])) as [Hx1|Hx1].
  { (* the first part is empty: the second is acquired *)
    subst x1. cbn [app length] in *.
    assert (HB3' : ∀ h', heap_extends h2 h' → builds E h' x2 (B3 h')).
    { intros h' Hext'. apply HB3. eapply heap_extends_trans; eassumption. }
    destruct (acquire_then_rebuild_equal E h2 p2 s2 x2 B3 HB3' Hp2 Hok2 Hb2 Hh2 Hr2 Hroom)
      as (h3 & p3 & h4 & c & d & Hcopy & Hext3 & Hf3 & Hc & Hd & Hbc & Hbd & Hcmp);
      [lia|exact Hk2'|].
    exists p1, h1, p2, h2, p2, h3, p3, h4, c, d.
    split; [exact Hf1|]. split; [exact Hext1|]. split; [exact Hf2|].
    split.
    { rewrite (concat_empty_left E h2 p1 p2 s1 s2 x2 Hp1 Hp2 Hok1' Hok2 Hb1' Hb2).
      exact Hcopy. }
    split; [eapply heap_extends_trans; eassumption|].
    repeat (split; [assumption|]). assumption. }
  destruct (decide (x2 = [])) as [Hx2|Hx2].
  { (* the second part is empty: the first is acquired *)
    subst x2. rewrite app_nil_r in *. cbn [length] in *.
    assert (HB3' : ∀ h', heap_extends h2 h' → builds E h' x1 (B3 h')).
    { intros h' Hext'. apply HB3. eapply heap_extends_trans; eassumption. }
    destruct (acquire_then_rebuild_equal E h2 p1 s1 x1 B3 HB3' Hp1 Hok1' Hb1' Hh1 Hr1 Hroom)
      as (h3 & p3 & h4 & c & d & Hcopy & Hext3 & Hf3 & Hc & Hd & Hbc & Hbd & Hcmp);
      [lia|exact Hk1'|].
    exists p1, h1, p2, h2, p1, h3, p3, h4, c, d.
    split; [exact Hf1|]. split; [exact Hext1|]. split; [exact Hf2|].
    split.
    { rewrite (concat_empty_right E h2 p1 p2 s1 s2 x1 Hp1 Hp2 Hok1' Hok2 Hb1' Hb2 Hx1).
      exact Hcopy. }
    split; [eapply heap_extends_trans; eassumption|].
    repeat (split; [assumption|]). assumption. }
  (* both parts are non-empty: a new chunk *)
  destruct (get_length_logical E h2 s1 x1 Hok1' Hb1') as (l1 & Hl1 & _ & Hl1u).
  destruct (get_length_logical E h2 s2 x2 Hok2 Hb2) as (l2 & Hl2 & _ & Hl2u).
  assert (Hl1v : l1 = Z.of_nat m1).
  { rewrite <- (lit_utf8_string_length_units E x1 m1 Hu1).
    apply Hl1u; destruct Hk1' as [[? _]|[[? _]|?]]; congruence. }
  assert (Hl2v : l2 = Z.of_nat m2).
  { rewrite <- (lit_utf8_string_length_units E x2 m2 Hu2).
    apply Hl2u; destruct Hk2' as [[? _]|[[? _]|?]]; congruence. }
  pose proof (code_units_length E x1 m1 Hu1) as Hm1.
  pose proof (code_units_length E x2 m2 Hu2) as Hm2.
  pose proof (concat_spec E h2 p1 p2 s1 s2 x1 x2 l1 l2 Hp1 Hp2 Hok1' Hok2 Hb1' Hb2 Hx1 Hx2)
    as Hcat.
  specialize (Hcat ltac:(lia) Hl1 Hl2).
  set (pc := ecma_alloc_string h2) in *.
  set (dp := mem_heap_alloc_block h2
               (Z.of_nat (length x1) + Z.of_nat (length x2)
                + sizeof_ecma_string_heap_header_t)) in *.
  set (c := mk_ecma_string 1 ECMA_STRING_CONTAINER_HEAP_CHUNKS _ dp) in *.
  set (chunk := mk_chunk _ _ _) in *.
  set (h3 := heap_set_string pc c (heap_set_chunk dp chunk h2)) in *.
  assert (Hext23 : heap_extends h2 h3).
  { apply (heap_extends_trans h2 (heap_set_chunk dp chunk h2) h3).
    - apply heap_extends_set_chunk. apply mem_heap_alloc_block_fresh.
    - apply heap_extends_set_string. }
  assert (Hchunk : chunks h3 !! dp = Some chunk) by (cbn; apply lookup_insert_eq).
  assert (Hbc3 : logical_bytes E h3 c = Some (x1 ++ x2)).
  { unfold logical_bytes. cbn [container c common_field]. rewrite Hchunk. reflexivity. }
  assert (Hokc : string_ok E h3 c).
  { split; [exists (x1 ++ x2); exact Hbc3|]. split; [intros Hc; discriminate Hc|].
    intros _ c0 Hc0. cbn [common_field c] in Hc0. rewrite Hchunk in Hc0. injection Hc0 as <-.
    unfold chunk_header_ok. cbn [data_size data_length data_bytes chunk].
    unfold to_uint16. rewrite !Z.mod_small by lia. rewrite length_app.
    rewrite (lit_utf8_string_length_units E (x1 ++ x2) (m1 + m2)
               (code_units_app E x1 m1 x2 m2 Hu1 Hu2)).
    split; lia. }
  destruct (HB3 h3 (heap_extends_trans h h2 h3 Hext02 Hext23))
    as (d & h4 & Hf3 & Hstr3 & Hext3 & Hokd & Hbd & Hhd & _ & _).
  assert (Hpc : strings h3 !! pc = Some c) by apply heap_set_string_lookup.
  assert (Hne3 : ecma_alloc_string h3 ≠ pc).
  { destruct (ecma_alloc_string_fresh h3) as [Hfresh _]. congruence. }
  exists p1, h1, p2, h2, pc, h3, (ecma_alloc_string h3), h4, c, d.
  split; [exact Hf1|]. split; [exact Hext1|]. split; [exact Hf2|].
  split; [exact Hcat|].
  split; [eapply heap_extends_trans; eassumption|].
  split; [exact Hf3|].
  split; [rewrite Hstr3, lookup_insert_ne by exact Hne3; exact Hpc|].
  split; [rewrite Hstr3; apply lookup_insert_eq|].
  pose proof (logical_bytes_extends E h3 h4 c _ Hext3 Hbc3) as Hbc4.
  split; [exact Hbc4|]. split; [exact Hbd|].
  apply (compare_equal_bytes E h4 c d (x1 ++ x2)).
  - apply (string_ok_extends E h3 h4 c Hext3 Hokc).
  - exact Hokd.
  - exact Hbc4.
  - exact Hbd.
  - rewrite Hhd. cbn [hash c]. rewrite Hh1. apply Hlaw.
  - intros _ Hnchunk. exfalso. apply Hnchunk. reflexivity.
Qed.

(** C8: for a well-formed descriptor whose bytes are [n] whole code units
    (its length), with less than 2^16 bytes, in an engine where hashes
    combine, the empty string is a magic string and the reference counter
    has room for a second reference: for all [0 <= i <= j <= k <= n] the
    concatenation of the substrings [i, j) and [j, k) has the logical string
    of the substring [i, k) and compares equal to it; and the substring
    [i, i) is the magic string [LIT_MAGIC_STRING__EMPTY]. *)
Theorem C8_substr_concat_and_empty E h s (bytes : list Z) n :
  string_ok E h s → logical_bytes E h s = Some bytes →
  code_units E bytes n →
  ecma_string_get_length E h s = Some (Z.of_nat n) →
  Z.of_nat (length bytes) < 2 ^ 16 →
  hash_combine_law E → magic_empty_ok E → to_refs E 2 ≠ 0 →
  (∀ i j k, 0 ≤ i → i ≤ j → j ≤ k → k ≤ Z.of_nat n →
     ∃ p1 h1 p2 h2 pc h3 p3 h4 c d x,
       ecma_string_substr E h s i j = Some (p1, h1) ∧
       ecma_string_substr E h1 s j k = Some (p2, h2) ∧
       ecma_concat_ecma_strings E h2 p1 p2 = Some (pc, h3) ∧
       ecma_string_substr E h3 s i k = Some (p3, h4) ∧
       strings h4 !! pc = Some c ∧
       strings h4 !! p3 = Some d ∧
       logical_bytes E h4 c = Some x ∧
       logical_bytes E h4 d = Some x ∧
       ecma_compare_ecma_strings E h4 c d = Some true) ∧
  (∀ i, 0 ≤ i ≤ Z.of_nat n →
     ∃ p h',
       ecma_string_substr E h s i i = Some (p, h') ∧
       strings h' !! p
       = Some (mk_ecma_string 1 ECMA_STRING_CONTAINER_MAGIC_STRING
                 (lit_utf8_string_calc_hash E []) (LIT_MAGIC_STRING__EMPTY E))).
Proof.
  intros Hok Hb Hu _ Hlen Hlaw Hempty Hroom. split.
  - intros i j k Hi Hij Hjk Hk.
    destruct (code_unit_offsets E bytes n (Z.to_nat i) (Z.to_nat j) Hu)
      as (a & b & Ha & Hbo & Hab & Hu1); [lia|lia|].
    destruct (code_unit_offsets E bytes n (Z.to_nat j) (Z.to_nat k) Hu)
      as (b' & c0 & Hbo' & Hco & Hbc & Hu2); [lia|lia|].
    assert (b' = b) by congruence. subst b'.
    set (x1 := take (b - a) (drop a bytes)) in *.
    set (x2 := take (c0 - b) (drop b bytes)) in *.
    assert (Hx : x1 ++ x2 = take (c0 - a) (drop a bytes)).
    { unfold x1, x2. replace (drop b bytes) with (drop (b - a) (drop a bytes)).
      - rewrite take_take_drop. f_equal. lia.
      - rewrite drop_drop. f_equal. lia. }
    assert (Hxlen : Z.of_nat (length (x1 ++ x2)) < 2 ^ 16).
    { rewrite Hx, length_take, length_drop. lia. }
    assert (HB1 : ∀ h', heap_extends h h' → builds E h' x1 (ecma_string_substr E h' s i j)).
    { intros h' Hext'.
      apply (substr_builds E h' s bytes n i j a b);
        [eapply string_ok_extends; eassumption
        |eapply logical_bytes_extends; eassumption|assumption|lia..|assumption|assumption|lia]. }
    assert (HB2 : ∀ h', heap_extends h h' → builds E h' x2 (ecma_string_substr E h' s j k)).
    { intros h' Hext'.
      apply (substr_builds E h' s bytes n j k b c0);
        [eapply string_ok_extends; eassumption
        |eapply logical_bytes_extends; eassumption|assumption|lia..|assumption|assumption|lia]. }
    assert (HB3 : ∀ h', heap_extends h h' →
                        builds E h' (x1 ++ x2) (ecma_string_substr E h' s i k)).
    { intros h' Hext'. rewrite Hx.
      apply (substr_builds E h' s bytes n i k a c0);
        [eapply string_ok_extends; eassumption
        |eapply logical_bytes_extends; eassumption|assumption|lia..|assumption|assumption|lia]. }
    destruct (built_concat_equal E h x1 x2 _ _ _ _ _ HB1 HB2 HB3 Hu1 Hu2 Hxlen Hlaw Hroom)
      as (p1 & h1 & p2 & h2 & pc & h3 & p3 & h4 & c & d
          & Hf1 & Hext1 & Hf2 & Hcat & Hext3 & Hf3 & Hc & Hd & Hbc4 & Hbd4 & Hcmp).
    exists p1, h1, p2, h2, pc, h3, p3, h4, c, d, (x1 ++ x2).
    repeat (split; [assumption|]). assumption.
  - intros i Hi. unfold ecma_string_substr. rewrite Z.ltb_irrefl.
    rewrite (from_utf8_empty_is_magic E h Hempty).
    eexists _, _. split; [reflexivity|]. apply heap_set_string_lookup.
Qed.

Lemma sample_a_e_b_units : code_units Sample.env Sample.a_e_b 3.
Proof.
  unfold Sample.a_e_b.
  apply code_units_step; [vm_compute; lia|].
  change (code_units Sample.env [195; 169; 98] 2).
  apply code_units_step; [vm_compute; lia|].
  change (code_units Sample.env [98] 1).
  apply code_units_step; [vm_compute; lia|].
  apply code_units_nil.
Defined.

Lemma C8_substr_witness :
  (∃ p1 h1 p2 h2 pc h3 p3 h4 c d x,
     ecma_string_substr Sample.env (Sample.chunk_heap 1 Sample.a_e_b)
       (Sample.chunk_string 1 Sample.a_e_b) 1 2 = Some (p1, h1) ∧
     ecma_string_substr Sample.env h1 (Sample.chunk_string 1 Sample.a_e_b) 2 3
       = Some (p2, h2) ∧
     ecma_concat_ecma_strings Sample.env h2 p1 p2 = Some (pc, h3) ∧
     ecma_string_substr Sample.env h3 (Sample.chunk_string 1 Sample.a_e_b) 1 3
       = Some (p3, h4) ∧
     strings h4 !! pc = Some c ∧
     strings h4 !! p3 = Some d ∧
     logical_bytes Sample.env h4 c = Some x ∧
     logical_bytes Sample.env h4 d = Some x ∧
     ecma_compare_ecma_strings Sample.env h4 c d = Some true) ∧
  (∃ p h',
     ecma_string_substr Sample.env (Sample.chunk_heap 1 Sample.a_e_b)
       (Sample.chunk_string 1 Sample.a_e_b) 1 1 = Some (p, h') ∧
     strings h' !! p
     = Some (mk_ecma_string 1 ECMA_STRING_CONTAINER_MAGIC_STRING
               (lit_utf8_string_calc_hash Sample.env []) (LIT_MAGIC_STRING__EMPTY Sample.env))).
Proof.
  assert (Hroom : to_refs Sample.env 2 ≠ 0) by discriminate.
  assert (Hlen : Z.of_nat (length Sample.a_e_b) < 2 ^ 16) by (cbn; lia).
  destruct (C8_substr_concat_and_empty Sample.env (Sample.chunk_heap 1 Sample.a_e_b)
              (Sample.chunk_string 1 Sample.a_e_b) Sample.a_e_b 3
              (sample_chunk_string_ok 1 Sample.a_e_b) eq_refl sample_a_e_b_units eq_refl
              Hlen sample_hash_combine_law eq_refl Hroom) as [Hcat Hempty].
  split.
  - apply (Hcat 1 2 3); lia.
  - apply (Hempty 1). lia.
Defined.

(** ** Non-empty chunks below the 16-bit limit *)

(** A chunk built by the constructor from fewer than 65536 bytes has a
    byte-size of at least 1: the empty slice is the empty magic string, and
    the size field holds the number of bytes. *)
Lemma from_utf8_chunk_size_positive E h (bytes : list Z) p h' s :
  magic_empty_ok E →
  Z.of_nat (length bytes) < 2 ^ 16 →
  ecma_new_ecma_string_from_utf8 E h bytes = Some (p, h') →
  strings h' !! p = Some s →
  container s = ECMA_STRING_CONTAINER_HEAP_CHUNKS →
  ∃ size, ecma_string_get_size E h' s = Some size ∧ 1 ≤ size.
Proof.
  intros Hempty Hlen Hf Hs Hc.
  destruct (from_utf8_spec E h bytes Hlen)
    as (s0 & h0 & Hf0 & Hstr & _ & Hok & Hb & _ & _ & _).
  rewrite Hf in Hf0. inversion Hf0; subst p h'.
  rewrite Hstr, lookup_insert_eq in Hs. inversion Hs; subst s0.
  exists (Z.of_nat (length bytes)). split; [apply get_size_logical; assumption|].
  destruct bytes as [|b bytes]; [|cbn; lia].
  rewrite (from_utf8_empty_is_magic E h Hempty) in Hf. inversion Hf as [Hh].
  assert (Hl : strings h0 !! ecma_alloc_string h = Some s) by (rewrite Hstr; apply lookup_insert_eq).
  rewrite <- Hh in Hl. cbn in Hl. rewrite lookup_insert_eq in Hl.
  inversion Hl as [Hsv]. rewrite <- Hsv in Hc. discriminate Hc.
Qed.

(** The heap with ["leng"] and ["th"] is what two calls of the constructor
    build from the empty heap. *)
Example sample_leng_th_built :
  ('(p, h1) ← ecma_new_ecma_string_from_utf8 Sample.env Sample.empty_heap Sample.leng;
   '(q, h2) ← ecma_new_ecma_string_from_utf8 Sample.env h1 Sample.th;
   Some (p, q, h2))
  = Some (1, 2, Sample.two_chunk_heap Sample.leng Sample.th).
Proof. vm_compute. reflexivity. Qed.

(** ** Chunk strings without null bytes *)

Lemma strncmp_is_zero_without_null (s1 : list Z) : ∀ s2 : list Z,
  length s1 = length s2 →
  Forall (λ c, c ≠ 0) s1 →
  strncmp_is_zero s1 s2 (length s1) = Some (bool_decide (s1 = s2)).
Proof.
  induction s1 as [|c1 s1 IH]; intros [|c2 s2] Hlen Hnz; try discriminate Hlen.
  - reflexivity.
  - cbn [length strncmp_is_zero]. inversion Hnz as [|? ? Hc Hrest]; subst.
    destruct (Z.eqb_spec c1 c2) as [->|Hne]; cbn [negb].
    + destruct (Z.eqb_spec c2 0) as [|_]; [contradiction|].
      rewrite IH by (cbn in Hlen; congruence || assumption).
      f_equal. apply bool_decide_ext. split; congruence.
    + rewrite bool_decide_eq_false_2 by congruence. reflexivity.
Qed.

(** For two well-formed chunk strings with the hash of their bytes cached
    and no null byte in the first, the comparison does decide equality of
    the logical strings. *)
Lemma compare_chunks_without_null E h a b (ba bb : list Z) :
  container a = ECMA_STRING_CONTAINER_HEAP_CHUNKS →
  container b = ECMA_STRING_CONTAINER_HEAP_CHUNKS →
  string_ok E h a → string_ok E h b →
  logical_bytes E h a = Some ba → logical_bytes E h b = Some bb →
  hash_ok E h a → hash_ok E h b →
  Forall (λ c, c ≠ 0) ba →
  ecma_compare_ecma_strings E h a b = Some true ↔ ba = bb.
Proof.
  intros Hca Hcb Hoka Hokb Hba Hbb Hha Hhb Hnz. split.
  - unfold ecma_compare_ecma_strings.
    destruct (Z.eqb_spec (hash a) (hash b)) as [Hh|]; [|discriminate]. cbn [negb].
    rewrite Hca, Hcb, bool_decide_eq_true_2 by reflexivity. cbn [andb].
    destruct (Z.eqb_spec (common_field a) (common_field b)) as [Hf|Hf].
    { intros _. unfold logical_bytes in Hba, Hbb. rewrite Hca in Hba. rewrite Hcb in Hbb.
      rewrite Hf in Hba. congruence. }
    unfold ecma_compare_ecma_strings_longpath.
    rewrite Hca, Hcb, bool_decide_eq_true_2 by reflexivity. cbn [andb].
    rewrite (get_size_logical E h a ba Hoka Hba), (get_size_logical E h b bb Hokb Hbb).
    cbn [mbind option_bind].
    destruct (Z.eqb_spec (Z.of_nat (length ba)) (Z.of_nat (length bb))) as [Hlen|];
      [|discriminate]. cbn [negb].
    destruct (Z.eqb_spec (Z.of_nat (length ba)) 0) as [H0|_].
    { intros _. destruct ba; [|cbn in H0; lia]. destruct bb; [reflexivity|cbn in Hlen; lia]. }
    unfold logical_bytes in Hba, Hbb. rewrite Hca in Hba. rewrite Hcb in Hbb.
    destruct (chunks h !! common_field a) as [da|]; [|discriminate].
    destruct (chunks h !! common_field b) as [db|]; [|discriminate].
    cbn in Hba, Hbb. injection Hba as Hba. injection Hbb as Hbb.
    cbn [mbind option_bind]. rewrite Hba, Hbb.
    destruct (negb (data_length da =? data_length db)); [discriminate|].
    rewrite Nat2Z.id, strncmp_is_zero_without_null by (lia || assumption).
    intros Heq. injection Heq as Heq. apply bool_decide_eq_true_1 in Heq. exact Heq.
  - intros <-. apply (compare_equal_bytes E h a b ba); try assumption.
    + rewrite (Hha ba Hba), (Hhb ba Hbb). reflexivity.
    + intros _ Hnc. contradiction.
Qed.


(** * Further properties of the code *)

(** ** The life of a reference *)

Lemma dealloc_fresh_string p s h :
  strings h !! p = None → ecma_dealloc_string p (heap_set_string p s h) = h.
Proof.
  intros Hp. destruct h as [ss cs ns bs]. unfold ecma_dealloc_string, heap_set_string.
  cbn in *. rewrite delete_insert_id by exact Hp. reflexivity.
Qed.

Lemma free_fresh_block p c h :
  chunks h !! p = None →
  mem_heap_free_block p
    (Z.of_nat (length (data_bytes c)) + sizeof_ecma_string_heap_header_t)
    (heap_set_chunk p c h)
  = Some h.
Proof.
  intros Hp. destruct h as [ss cs ns bs]. unfold mem_heap_free_block, heap_set_chunk.
  cbn in *. rewrite lookup_insert_eq, Z.eqb_refl.
  rewrite delete_insert_id by exact Hp. reflexivity.
Qed.

Lemma free_fresh_scratch_block p b h :
  chunks h !! p = None → blocks h !! p = None →
  mem_heap_free_block p (Z.of_nat (length b)) (heap_set_block p b h) = Some h.
Proof.
  intros Hc Hp. destruct h as [ss cs ns bs]. unfold mem_heap_free_block, heap_set_block.
  cbn in *. rewrite Hc. cbn. rewrite lookup_insert_eq. cbn. rewrite Z.eqb_refl.
  rewrite delete_insert_id by exact Hp. reflexivity.
Qed.

Lemma dealloc_fresh_number p n h :
  numbers h !! p = None → ecma_dealloc_number p (heap_set_number p n h) = h.
Proof.
  intros Hp. destruct h as [ss cs ns bs]. unfold ecma_dealloc_number, heap_set_number.
  cbn in *. rewrite delete_insert_id by exact Hp. reflexivity.
Qed.

Lemma ecma_alloc_number_fresh h :
  numbers h !! ecma_alloc_number h = None ∧ ecma_alloc_number h ≠ 0.
Proof.
  unfold ecma_alloc_number.
  pose proof (is_fresh ({[0]} ∪ dom (numbers h))) as Hf.
  split.
  - apply not_elem_of_dom. set_solver.
  - set_solver.
Qed.

Lemma to_refs_zero E : to_refs E (1 - 1) = 0.
Proof. unfold to_refs. apply Zmod_0_l. Qed.

(** Releasing the only reference of a descriptor that owns nothing frees
    the descriptor. *)
Lemma deref_last_in_descriptor E h p s :
  strings h !! p = None →
  refs s = 1 →
  container s ≠ ECMA_STRING_CONTAINER_HEAP_CHUNKS →
  container s ≠ ECMA_STRING_CONTAINER_HEAP_NUMBER →
  ecma_deref_ecma_string E (heap_set_string p s h) p = Some h.
Proof.
  intros Hp Hr Hc1 Hc2. unfold ecma_deref_ecma_string.
  rewrite heap_set_string_lookup. cbn [mbind option_bind].
  rewrite Hr, to_refs_zero. cbn [Z.eqb negb].
  destruct (container s); try contradiction; rewrite dealloc_fresh_string by exact Hp;
    reflexivity.
Qed.

(** An acquire that does not overflow followed by a release leaves the heap
    as it was; in between, the counter is one larger. *)
Theorem acquire_then_release_restores_heap E h p s :
  strings h !! p = Some s →
  0 < refs s →
  refs s + 1 < 2 ^ CONFIG_ECMA_REFERENCE_COUNTER_WIDTH E →
  ∃ h1,
    ecma_copy_or_ref_ecma_string E h p = Some (p, h1) ∧
    refs <$> strings h1 !! p = Some (refs s + 1) ∧
    chunks h1 = chunks h ∧ numbers h1 = numbers h ∧
    ecma_deref_ecma_string E h1 p = Some h.
Proof.
  intros Hs Hpos Hroom.
  assert (Hinc : to_refs E (refs s + 1) = refs s + 1).
  { unfold to_refs. apply Z.mod_small. lia. }
  rewrite (copy_or_ref_no_overflow E h p s Hs) by (rewrite Hinc; lia).
  eexists. split; [reflexivity|].
  split; [rewrite heap_set_string_lookup, Hinc; reflexivity|].
  split; [reflexivity|]. split; [reflexivity|].
  unfold ecma_deref_ecma_string. rewrite heap_set_string_lookup. cbn [mbind option_bind].
  cbn [refs set_refs]. rewrite Hinc.
  replace (refs s + 1 - 1) with (refs s) by lia.
  assert (Hdec : to_refs E (refs s) = refs s).
  { unfold to_refs. apply Z.mod_small. lia. }
  rewrite Hdec. destruct (Z.eqb_spec (refs s) 0) as [|_]; [lia|]. cbn [negb].
  f_equal. destruct h as [ss cs ns bs]. destruct s as [r c hs cf].
  unfold heap_set_string, set_refs. cbn in *.
  rewrite insert_insert_eq, insert_id by exact Hs. reflexivity.
Qed.

Lemma acquire_then_release_witness :
  ∃ h1,
    ecma_copy_or_ref_ecma_string Sample.env (Sample.chunk_heap 1 [104; 105]) 1
      = Some (1, h1) ∧
    refs <$> strings h1 !! 1 = Some 2 ∧
    chunks h1 = chunks (Sample.chunk_heap 1 [104; 105]) ∧
    numbers h1 = numbers (Sample.chunk_heap 1 [104; 105]) ∧
    ecma_deref_ecma_string Sample.env h1 1 = Some (Sample.chunk_heap 1 [104; 105]).
Proof.
  apply (acquire_then_release_restores_heap Sample.env (Sample.chunk_heap 1 [104; 105]) 1
           (Sample.chunk_string 1 [104; 105]) eq_refl); cbn; lia.
Defined.

(** A string built from fewer than 2^16 bytes and released at once leaves
    the heap as it was: the descriptor sits at an address that was free, and
    the release frees it together with the chunk it owns, with the size the
    chunk was allocated with.  From 2^16 bytes on, the size handed to
    [mem_heap_free_block] is computed from the 16-bit header field and is
    not the size the chunk of a [HEAP_CHUNKS] string was allocated with. *)
Theorem from_utf8_then_release_restores_heap E h (bytes : list Z) :
  (Z.of_nat (length bytes) < 2 ^ 16 →
   ∃ p h',
     ecma_new_ecma_string_from_utf8 E h bytes = Some (p, h') ∧
     strings h !! p = None ∧
     ecma_deref_ecma_string E h' p = Some h) ∧
  (2 ^ 16 ≤ Z.of_nat (length bytes) →
   lit_is_utf8_string_magic E bytes = None →
   lit_is_ex_utf8_string_magic E bytes = None →
   ∃ p h',
     ecma_new_ecma_string_from_utf8 E h bytes = Some (p, h') ∧
     ecma_deref_ecma_string E h' p = None).
Proof.
  destruct (ecma_alloc_string_fresh h) as [Hfresh _].
  destruct (mem_heap_alloc_block_fresh h
              (Z.of_nat (length bytes) + sizeof_ecma_string_heap_header_t)) as [Hblock _].
  split.
  - intros Hlen. unfold ecma_new_ecma_string_from_utf8.
    destruct (lit_is_utf8_string_magic E bytes) as [id|] eqn:Hm.
    { unfold ecma_get_magic_string, ecma_new_ecma_string_from_magic_string_id,
        ecma_init_ecma_string_from_magic_string_id, lit_get_magic_string_utf8.
      rewrite (magic_table_find_get _ _ _ Hm). cbn [mbind option_bind].
      eexists _, _. split; [reflexivity|]. split; [exact Hfresh|].
      apply deref_last_in_descriptor; [exact Hfresh|reflexivity|discriminate|discriminate]. }
    destruct (lit_is_ex_utf8_string_magic E bytes) as [id|] eqn:Hex.
    { unfold ecma_get_magic_string_ex, ecma_new_ecma_string_from_magic_string_ex_id,
        ecma_init_ecma_string_from_magic_string_ex_id, lit_get_magic_string_ex_utf8.
      rewrite (magic_table_find_get _ _ _ Hex). cbn [mbind option_bind].
      eexists _, _. split; [reflexivity|]. split; [exact Hfresh|].
      apply deref_last_in_descriptor; [exact Hfresh|reflexivity|discriminate|discriminate]. }
    eexists _, _. split; [reflexivity|]. split; [exact Hfresh|].
    unfold ecma_deref_ecma_string. rewrite heap_set_string_lookup. cbn [mbind option_bind].
    cbn [refs container common_field]. rewrite to_refs_zero. cbn [Z.eqb negb].
    cbn [chunks heap_set_string heap_set_chunk]. rewrite lookup_insert_eq.
    cbn [mbind option_bind data_size].
    unfold to_uint16. rewrite Z.mod_small by lia.
    set (dp := mem_heap_alloc_block h _) in *.
    set (c := mk_chunk _ _ bytes).
    assert (Hfree : mem_heap_free_block dp
                      (Z.of_nat (length bytes) + sizeof_ecma_string_heap_header_t)
                      (heap_set_string (ecma_alloc_string h)
                         (mk_ecma_string 1 ECMA_STRING_CONTAINER_HEAP_CHUNKS
                            (lit_utf8_string_calc_hash E bytes) dp)
                         (heap_set_chunk dp c h))
                    = Some (heap_set_string (ecma_alloc_string h)
                              (mk_ecma_string 1 ECMA_STRING_CONTAINER_HEAP_CHUNKS
                                 (lit_utf8_string_calc_hash E bytes) dp) h)).
    { destruct h as [ss cs ns bs].
      unfold mem_heap_free_block, heap_set_string, heap_set_chunk. cbn in *.
      rewrite lookup_insert_eq. cbn. rewrite Z.eqb_refl.
      rewrite delete_insert_id by exact Hblock. reflexivity. }
    rewrite Hfree. cbn [mbind option_bind].
    rewrite dealloc_fresh_string by exact Hfresh. reflexivity.
  - intros Hlen Hm Hex. unfold ecma_new_ecma_string_from_utf8. rewrite Hm, Hex.
    eexists _, _. split; [reflexivity|].
    unfold ecma_deref_ecma_string. rewrite heap_set_string_lookup. cbn [mbind option_bind].
    cbn [refs container common_field]. rewrite to_refs_zero. cbn [Z.eqb negb].
    cbn [chunks heap_set_string heap_set_chunk]. rewrite lookup_insert_eq.
    cbn [mbind option_bind data_size].
    unfold mem_heap_free_block. cbn [chunks heap_set_string heap_set_chunk].
    rewrite lookup_insert_eq. cbn [data_bytes].
    pose proof (Z.mod_pos_bound (Z.of_nat (length bytes)) (2 ^ 16) ltac:(lia)) as Hmod.
    unfold to_uint16.
    destruct (Z.eqb_spec (Z.of_nat (length bytes) mod 2 ^ 16 + sizeof_ecma_string_heap_header_t)
                (Z.of_nat (length bytes) + sizeof_ecma_string_heap_header_t)) as [Heq|_];
      [lia|reflexivity].
Qed.

Lemma from_utf8_then_release_witness :
  ∃ p h',
    ecma_new_ecma_string_from_utf8 Sample.env Sample.empty_heap [104; 105] = Some (p, h') ∧
    strings Sample.empty_heap !! p = None ∧
    ecma_deref_ecma_string Sample.env h' p = Some Sample.empty_heap.
Proof.
  apply (proj1 (from_utf8_then_release_restores_heap Sample.env Sample.empty_heap
                  [104; 105])).
  cbn. lia.
Defined.

(** A string built from a number and released at once leaves the heap as
    it was, whichever container the number was given: the number cell of a
    [HEAP_NUMBER] descriptor is freed with it. *)
Theorem from_number_then_release_restores_heap E h (num : Z) :
  ∃ p h',
    ecma_new_ecma_string_from_number E h num = Some (p, h') ∧
    strings h !! p = None ∧
    ecma_deref_ecma_string E h' p = Some h.
Proof.
  destruct (ecma_alloc_string_fresh h) as [Hfresh _].
  destruct (ecma_alloc_number_fresh h) as [Hcell _].
  unfold ecma_new_ecma_string_from_number.
  destruct (ecma_number_eq E num _).
  { eexists _, _. split; [reflexivity|]. split; [exact Hfresh|].
    apply deref_last_in_descriptor; [exact Hfresh|reflexivity|discriminate|discriminate]. }
  destruct (lit_is_utf8_string_magic E _) as [id|] eqn:Hm.
  { unfold ecma_get_magic_string, ecma_new_ecma_string_from_magic_string_id,
      ecma_init_ecma_string_from_magic_string_id, lit_get_magic_string_utf8.
    rewrite (magic_table_find_get _ _ _ Hm). cbn [mbind option_bind].
    eexists _, _. split; [reflexivity|]. split; [exact Hfresh|].
    apply deref_last_in_descriptor; [exact Hfresh|reflexivity|discriminate|discriminate]. }
  destruct (lit_is_ex_utf8_string_magic E _) as [id|] eqn:Hex.
  { unfold ecma_get_magic_string_ex, ecma_new_ecma_string_from_magic_string_ex_id,
      ecma_init_ecma_string_from_magic_string_ex_id, lit_get_magic_string_ex_utf8.
    rewrite (magic_table_find_get _ _ _ Hex). cbn [mbind option_bind].
    eexists _, _. split; [reflexivity|]. split; [exact Hfresh|].
    apply deref_last_in_descriptor; [exact Hfresh|reflexivity|discriminate|discriminate]. }
  eexists _, _. split; [reflexivity|]. split; [exact Hfresh|].
  unfold ecma_deref_ecma_string. rewrite heap_set_string_lookup. cbn [mbind option_bind].
  cbn [refs container common_field]. rewrite to_refs_zero. cbn [Z.eqb negb].
  cbn [numbers heap_set_string heap_set_number]. rewrite lookup_insert_eq.
  cbn [mbind option_bind]. f_equal.
  destruct h as [ss cs ns bs].
  unfold ecma_dealloc_string, ecma_dealloc_number, heap_set_string, heap_set_number.
  cbn in *. rewrite !delete_insert_id by assumption. reflexivity.
Qed.


(** When the counter of a descriptor that keeps its string in the
    descriptor itself (literal, magic, external magic, 32-bit number)
    overflows and the collector leaves it unchanged, the acquire returns a
    distinct, new descriptor with counter 1 and the same container, hash and
    payload; the original, the chunks and the number cells are untouched. *)
Theorem acquire_overflow_copies_in_descriptor_string E h p s s2 :
  strings h !! p = Some s →
  to_refs E (refs s + 1) = 0 →
  strings (ecma_gc_run E (heap_set_string p (set_refs s (to_refs E (0 - 1))) h)) !! p
    = Some s2 →
  refs s2 = to_refs E (0 - 1) →
  container s2 ≠ ECMA_STRING_CONTAINER_HEAP_CHUNKS →
  container s2 ≠ ECMA_STRING_CONTAINER_HEAP_NUMBER →
  ∃ new_str_p h',
    ecma_copy_or_ref_ecma_string E h p = Some (new_str_p, h') ∧
    new_str_p ≠ p ∧
    strings (ecma_gc_run E (heap_set_string p (set_refs s (to_refs E (0 - 1))) h))
      !! new_str_p = None ∧
    strings h' !! new_str_p = Some (set_refs s2 1) ∧
    strings h' !! p = Some s2 ∧
    chunks h' = chunks (ecma_gc_run E (heap_set_string p (set_refs s (to_refs E (0 - 1))) h)) ∧
    numbers h' = numbers (ecma_gc_run E (heap_set_string p (set_refs s (to_refs E (0 - 1))) h)).
Proof.
  intros Hs Hsat Hs2 Hrefs Hc1 Hc2.
  unfold ecma_copy_or_ref_ecma_string. rewrite Hs. cbn [mbind option_bind].
  rewrite Hsat. cbn [Z.eqb].
  set (h2 := ecma_gc_run E _) in *. rewrite Hs2. cbn [mbind option_bind].
  rewrite Hrefs, Z.eqb_refl.
  destruct (ecma_alloc_string_fresh h2) as [Hfresh _].
  assert (Hne : ecma_alloc_string h2 ≠ p) by (intros Heq; rewrite Heq in Hfresh; congruence).
  assert (Hcopy : ecma_copy_ecma_string E h2 p
                  = Some (ecma_alloc_string h2,
                          heap_set_string (ecma_alloc_string h2) (set_refs s2 1) h2)).
  { unfold ecma_copy_ecma_string. rewrite Hs2. cbn [mbind option_bind].
    destruct (container s2); try contradiction; reflexivity. }
  rewrite Hcopy. eexists _, _. split; [reflexivity|].
  split; [exact Hne|]. split; [exact Hfresh|].
  split; [apply heap_set_string_lookup|].
  split; [cbn; rewrite lookup_insert_ne by exact Hne; exact Hs2|].
  split; reflexivity.
Qed.

Lemma acquire_overflow_copies_witness :
  ∃ new_str_p h',
    ecma_copy_or_ref_ecma_string Sample.env Sample.saturated_heap 1 = Some (new_str_p, h') ∧
    new_str_p ≠ 1 ∧
    strings Sample.saturated_heap !! new_str_p = None ∧
    strings h' !! new_str_p
      = Some (mk_ecma_string 1 ECMA_STRING_CONTAINER_MAGIC_STRING
                (Sample.calc_hash [108; 101; 110; 103; 116; 104]) 1) ∧
    strings h' !! 1
      = Some (mk_ecma_string 255 ECMA_STRING_CONTAINER_MAGIC_STRING
                (Sample.calc_hash [108; 101; 110; 103; 116; 104]) 1) ∧
    chunks h' = chunks Sample.saturated_heap ∧
    numbers h' = numbers Sample.saturated_heap.
Proof.
  apply (acquire_overflow_copies_in_descriptor_string Sample.env Sample.saturated_heap 1
           (mk_ecma_string 255 ECMA_STRING_CONTAINER_MAGIC_STRING
              (Sample.calc_hash [108; 101; 110; 103; 116; 104]) 1)
           (mk_ecma_string 255 ECMA_STRING_CONTAINER_MAGIC_STRING
              (Sample.calc_hash [108; 101; 110; 103; 116; 104]) 1));
    first [reflexivity | discriminate].
Defined.

Lemma from_number_result_refs E h num :
  ∃ p h' r,
    ecma_new_ecma_string_from_number E h num = Some (p, h') ∧
    strings h' !! p = Some r ∧ refs r = 1.
Proof.
  unfold ecma_new_ecma_string_from_number.
  destruct (ecma_number_eq E num _).
  { eexists _, _, _. split; [reflexivity|]. split; [apply heap_set_string_lookup|reflexivity]. }
  destruct (lit_is_utf8_string_magic E _) as [id|] eqn:Hm.
  { unfold ecma_get_magic_string, ecma_new_ecma_string_from_magic_string_id,
      ecma_init_ecma_string_from_magic_string_id, lit_get_magic_string_utf8.
    rewrite (magic_table_find_get _ _ _ Hm). cbn [mbind option_bind].
    eexists _, _, _. split; [reflexivity|]. split; [apply heap_set_string_lookup|reflexivity]. }
  destruct (lit_is_ex_utf8_string_magic E _) as [id|] eqn:Hex.
  { unfold ecma_get_magic_string_ex, ecma_new_ecma_string_from_magic_string_ex_id,
      ecma_init_ecma_string_from_magic_string_ex_id, lit_get_magic_string_ex_utf8.
    rewrite (magic_table_find_get _ _ _ Hex). cbn [mbind option_bind].
    eexists _, _, _. split; [reflexivity|]. split; [apply heap_set_string_lookup|reflexivity]. }
  eexists _, _, _. split; [reflexivity|]. split; [apply heap_set_string_lookup|reflexivity].
Qed.

(** An acquire never hands out a descriptor whose counter is zero: for a
    counter of positive width holding a value in its range, and a descriptor
    that is still well formed after a collector pass, every path of
    [ecma_copy_or_ref_ecma_string] (increment, increment after the collector
    lowered the counter, copy) returns a descriptor with a non-zero
    counter. *)
Theorem acquire_result_counter_is_not_zero E h p s :
  0 < CONFIG_ECMA_REFERENCE_COUNTER_WIDTH E →
  strings h !! p = Some s →
  (∀ s2, strings (ecma_gc_run E (heap_set_string p (set_refs s (to_refs E (0 - 1))) h)) !! p
         = Some s2 →
         0 ≤ refs s2 < 2 ^ CONFIG_ECMA_REFERENCE_COUNTER_WIDTH E) →
  (∃ s2, strings (ecma_gc_run E (heap_set_string p (set_refs s (to_refs E (0 - 1))) h)) !! p
         = Some s2 ∧
         string_ok E (ecma_gc_run E (heap_set_string p (set_refs s (to_refs E (0 - 1))) h)) s2) →
  ∃ q h' r,
    ecma_copy_or_ref_ecma_string E h p = Some (q, h') ∧
    strings h' !! q = Some r ∧
    refs r ≠ 0.
Proof.
  intros Hw Hs Hrange (s2 & Hs2 & Hok).
  assert (Hpow : 1 < 2 ^ CONFIG_ECMA_REFERENCE_COUNTER_WIDTH E).
  { apply Z.pow_gt_1; lia. }
  assert (Hmax : to_refs E (0 - 1) = 2 ^ CONFIG_ECMA_REFERENCE_COUNTER_WIDTH E - 1).
  { unfold to_refs.
    replace (0 - 1) with (2 ^ CONFIG_ECMA_REFERENCE_COUNTER_WIDTH E - 1
                          + (-1) * 2 ^ CONFIG_ECMA_REFERENCE_COUNTER_WIDTH E) by lia.
    rewrite Z.mod_add by lia. apply Z.mod_small. lia. }
  unfold ecma_copy_or_ref_ecma_string. rewrite Hs. cbn [mbind option_bind].
  destruct (Z.eqb_spec (to_refs E (refs s + 1)) 0) as [Hsat|Hno].
  2:{ eexists _, _, _. split; [reflexivity|]. split; [apply heap_set_string_lookup|].
      exact Hno. }
  rewrite Hsat. cbn [Z.sub Z.opp Z.add].
  change (to_refs E (-1)) with (to_refs E (0 - 1)).
  set (h2 := ecma_gc_run E _) in *. rewrite Hs2. cbn [mbind option_bind].
  specialize (Hrange s2 Hs2).
  destruct (Z.eqb_spec (to_refs E (0 - 1)) (refs s2)) as [Heq|Hlower].
  2:{ eexists _, _, _. split; [reflexivity|]. split; [apply heap_set_string_lookup|].
      cbn [refs set_refs]. unfold to_refs. rewrite Z.mod_small by lia. lia. }
  unfold ecma_copy_ecma_string. rewrite Hs2. cbn [mbind option_bind].
  destruct Hok as ([bytes Hb] & _ & _). unfold logical_bytes in Hb.
  destruct (container s2) eqn:Hc.
  - eexists _, _, _. split; [reflexivity|]. split; [apply heap_set_string_lookup|].
    discriminate.
  - cbn [chunks heap_set_string].
    destruct (chunks h2 !! common_field s2) as [c|]; [|discriminate].
    cbn [mbind option_bind].
    eexists _, _, _. split; [reflexivity|]. split; [apply heap_set_string_lookup|].
    cbn [refs set_collection_cp]. lia.
  - destruct (numbers h2 !! common_field s2) as [n|]; [|discriminate].
    cbn [mbind option_bind].
    destruct (from_number_result_refs E h2 n) as (q & h' & r & Hf & Hr & Hone).
    exists q, h', r. split; [exact Hf|]. split; [exact Hr|]. lia.
  - eexists _, _, _. split; [reflexivity|]. split; [apply heap_set_string_lookup|].
    discriminate.
  - eexists _, _, _. split; [reflexivity|]. split; [apply heap_set_string_lookup|].
    discriminate.
  - eexists _, _, _. split; [reflexivity|]. split; [apply heap_set_string_lookup|].
    discriminate.
Qed.

Lemma acquire_result_counter_witness :
  ∃ q h' r,
    ecma_copy_or_ref_ecma_string Sample.env (Sample.chunk_heap 255 [104; 105]) 1
      = Some (q, h') ∧
    strings h' !! q = Some r ∧
    refs r ≠ 0.
Proof.
  apply (acquire_result_counter_is_not_zero Sample.env (Sample.chunk_heap 255 [104; 105]) 1
           (Sample.chunk_string 255 [104; 105])).
  - cbn. lia.
  - reflexivity.
  - intros s2 Hs2. cbn in Hs2. rewrite lookup_insert_eq in Hs2.
    injection Hs2 as <-. vm_compute. split; [discriminate|reflexivity].
  - exists (Sample.chunk_string 255 [104; 105]). split.
    + cbn. rewrite lookup_insert_eq. reflexivity.
    + split; [eexists; reflexivity|]. split; [intros Hc; discriminate Hc|].
      intros _ c Hc. cbn in Hc. rewrite lookup_singleton_eq in Hc.
      injection Hc as <-. split; reflexivity.
Defined.


(** ** Constructors and what they store *)

(** Round trip through the constructor from bytes: for fewer than 2^16
    bytes, the new descriptor has counter 1 and the hash of the bytes, its
    byte-size is their number, and writing it to a buffer of that size gives
    the bytes back. *)
Theorem from_utf8_gives_its_bytes_back E h (bytes buffer : list Z) :
  Z.of_nat (length bytes) < 2 ^ 16 →
  ∃ p h' s,
    ecma_new_ecma_string_from_utf8 E h bytes = Some (p, h') ∧
    strings h' !! p = Some s ∧
    refs s = 1 ∧
    hash s = lit_utf8_string_calc_hash E bytes ∧
    ecma_string_get_size E h' s = Some (Z.of_nat (length bytes)) ∧
    ecma_string_to_utf8_string E h' s buffer (Z.of_nat (length bytes))
    = Some (Z.of_nat (length bytes), bytes ++ drop (length bytes) buffer).
Proof.
  intros Hlen.
  destruct (from_utf8_spec E h bytes Hlen)
    as (s & h' & Hf & Hstr & _ & Hok & Hb & Hh & Hr & _).
  exists (ecma_alloc_string h), h', s. split; [exact Hf|].
  split; [rewrite Hstr; apply lookup_insert_eq|].
  split; [exact Hr|]. split; [exact Hh|].
  split; [apply get_size_logical; assumption|].
  rewrite (to_utf8_string_logical E h' s bytes _ _ Hok Hb).
  destruct bytes as [|b bytes].
  - rewrite bool_decide_eq_false_2 by (cbn; lia). reflexivity.
  - rewrite bool_decide_eq_true_2 by (cbn; lia). reflexivity.
Qed.

Lemma from_utf8_gives_its_bytes_back_witness :
  ∃ p h' s,
    ecma_new_ecma_string_from_utf8 Sample.env Sample.empty_heap [104; 105] = Some (p, h') ∧
    strings h' !! p = Some s ∧
    refs s = 1 ∧
    hash s = lit_utf8_string_calc_hash Sample.env [104; 105] ∧
    ecma_string_get_size Sample.env h' s = Some 2 ∧
    ecma_string_to_utf8_string Sample.env h' s [7; 7; 7] 2 = Some (2, [104; 105; 7]).
Proof.
  apply (from_utf8_gives_its_bytes_back Sample.env Sample.empty_heap [104; 105] [7; 7; 7]).
  cbn. lia.
Defined.

(** Canonical form.  In a build with [JERRY_NDEBUG], on a descriptor built
    from bytes the magic test answers exactly what the search of the
    built-in table answers for the bytes, and the external test answers what
    the external table answers when the built-in table has no such entry.
    In a build with assertions the external test stops on the empty string:
    its long path copies no byte and asserts that it copied some. *)
Theorem magic_test_is_exact_on_built_strings E h (bytes : list Z) :
  ∃ p h' s,
    ecma_new_ecma_string_from_utf8 E h bytes = Some (p, h') ∧
    strings h' !! p = Some s ∧
    (JERRY_NDEBUG E = true →
     ecma_is_string_magic E h' s = Some (lit_is_utf8_string_magic E bytes) ∧
     ecma_is_ex_string_magic E h' s
     = Some (match lit_is_utf8_string_magic E bytes with
             | Some _ => None
             | None => lit_is_ex_utf8_string_magic E bytes
             end)) ∧
    (JERRY_NDEBUG E = false →
     bytes = [] → magic_empty_ok E → 0 ≤ LIT_MAGIC_STRING_LENGTH_LIMIT E →
     ecma_is_ex_string_magic E h' s = None).
Proof.
  unfold ecma_new_ecma_string_from_utf8.
  destruct (lit_is_utf8_string_magic E bytes) as [id|] eqn:Hm.
  { pose proof (magic_table_find_get _ _ _ Hm) as Hget.
    unfold ecma_get_magic_string, ecma_new_ecma_string_from_magic_string_id,
      ecma_init_ecma_string_from_magic_string_id, lit_get_magic_string_utf8.
    rewrite Hget. cbn [mbind option_bind].
    eexists _, _, _. split; [reflexivity|]. split; [apply heap_set_string_lookup|].
    split.
    - intros Hrelease. unfold ecma_is_string_magic, ecma_is_ex_string_magic, JERRY_ASSERT.
      rewrite Hrelease. split; reflexivity.
    - intros Hdebug -> Hempty Hlimit.
      rewrite Hempty in Hm. injection Hm as <-.
      unfold ecma_is_ex_string_magic.
      rewrite bool_decide_eq_false_2 by (cbn [container]; discriminate).
      unfold ecma_string_get_length. cbn [container common_field].
      unfold lit_get_magic_string_utf8. rewrite Hget. cbn [fmap option_fmap option_map].
      cbn [mbind option_bind].
      change (lit_utf8_string_length E []) with 0.
      destruct (Z.ltb_spec (LIT_MAGIC_STRING_LENGTH_LIMIT E) 0) as [|_]; [lia|].
      unfold ecma_is_ex_string_magic_longpath, ecma_string_to_utf8_string,
        ecma_string_get_size, lit_get_magic_string_size, lit_get_magic_string_utf8.
      cbn [container common_field]. rewrite Hget.
      cbn [fmap option_fmap option_map mbind option_bind length].
      change (Z.of_nat 0) with 0.
      destruct ((LIT_MAGIC_STRING_LENGTH_LIMIT E <? 0)
                || (LIT_MAGIC_STRING_LENGTH_LIMIT E =? 0)).
      + cbn [mbind option_bind Z.opp]. unfold JERRY_ASSERT. rewrite Hdebug. reflexivity.
      + unfold ecma_string_copied_bytes, lit_get_magic_string_utf8.
        cbn [container common_field]. rewrite Hget. cbn [mbind option_bind].
        unfold JERRY_ASSERT. rewrite Hdebug. reflexivity. }
  destruct (lit_is_ex_utf8_string_magic E bytes) as [id|] eqn:Hex.
  { unfold ecma_get_magic_string_ex, ecma_new_ecma_string_from_magic_string_ex_id,
      ecma_init_ecma_string_from_magic_string_ex_id, lit_get_magic_string_ex_utf8.
    rewrite (magic_table_find_get _ _ _ Hex). cbn [mbind option_bind].
    eexists _, _, _. split; [reflexivity|]. split; [apply heap_set_string_lookup|].
    split.
    - intros Hrelease. unfold ecma_is_string_magic, ecma_is_ex_string_magic, JERRY_ASSERT.
      rewrite Hrelease. split; reflexivity.
    - intros _ -> Hempty _. rewrite Hempty in Hm. discriminate Hm. }
  eexists _, _, _. split; [reflexivity|]. split; [apply heap_set_string_lookup|].
  split.
  - intros Hrelease. unfold ecma_is_string_magic, ecma_is_ex_string_magic, JERRY_ASSERT.
    rewrite Hrelease. split; reflexivity.
  - intros _ -> Hempty _. rewrite Hempty in Hm. discriminate Hm.
Qed.

Lemma magic_test_on_built_strings_witness :
  (∃ p h' s,
     ecma_new_ecma_string_from_utf8 Sample.env Sample.empty_heap
       [108; 101; 110; 103; 116; 104] = Some (p, h') ∧
     strings h' !! p = Some s ∧
     ecma_is_string_magic Sample.env h' s = Some (Some 1) ∧
     ecma_is_ex_string_magic Sample.env h' s = Some None) ∧
  (∃ p h' s,
     ecma_new_ecma_string_from_utf8 Sample.debug_env Sample.empty_heap [] = Some (p, h') ∧
     strings h' !! p = Some s ∧
     ecma_is_ex_string_magic Sample.debug_env h' s = None).
Proof.
  split.
  - destruct (magic_test_is_exact_on_built_strings Sample.env Sample.empty_heap
                [108; 101; 110; 103; 116; 104]) as (p & h' & s & Hf & Hs & Hrelease & _).
    exists p, h', s. split; [exact Hf|]. split; [exact Hs|].
    apply Hrelease. reflexivity.
  - destruct (magic_test_is_exact_on_built_strings Sample.debug_env Sample.empty_heap [])
      as (p & h' & s & Hf & Hs & _ & Hdebug).
    exists p, h', s. split; [exact Hf|]. split; [exact Hs|].
    apply Hdebug; [reflexivity|reflexivity|reflexivity|cbn; lia].
Defined.

Lemma number_in_desc_size_range n : 1 ≤ ecma_string_get_number_in_desc_size n ≤ 10.
Proof.
  unfold ecma_string_get_number_in_desc_size.
  cbn [nums_with_ascending_length drop number_in_desc_size_loop].
  repeat (destruct (_ <=? n); [|lia]). lia.
Qed.

(** A 32-bit number kept in the descriptor has between 1 and 10
    characters, as many as its decimal form has digits; its size and its
    length are that number, and a buffer of 10 bytes always receives the
    whole decimal form. *)
Theorem uint32_string_fits_ten_bytes E h n (buffer : list Z) :
  0 ≤ n < 2 ^ 32 →
  ∃ s k,
    strings (ecma_new_ecma_string_from_uint32 E h n).2
      !! (ecma_new_ecma_string_from_uint32 E h n).1 = Some s ∧
    1 ≤ k ≤ 10 ∧
    k = Z.of_nat (length (ecma_uint32_to_utf8_string n)) ∧
    ecma_string_get_size E (ecma_new_ecma_string_from_uint32 E h n).2 s = Some k ∧
    ecma_string_get_length E (ecma_new_ecma_string_from_uint32 E h n).2 s = Some k ∧
    ecma_string_to_utf8_string E (ecma_new_ecma_string_from_uint32 E h n).2 s buffer 10
    = Some (k, ecma_uint32_to_utf8_string n
               ++ drop (length (ecma_uint32_to_utf8_string n)) buffer).
Proof.
  intros Hn. pose proof (number_in_desc_size_range n) as Hrange.
  pose proof (number_in_desc_size_digits n Hn) as Hdigits.
  eexists _, (ecma_string_get_number_in_desc_size n).
  split; [apply heap_set_string_lookup|].
  split; [exact Hrange|]. split; [symmetry; exact Hdigits|].
  split; [reflexivity|]. split; [reflexivity|].
  unfold ecma_string_to_utf8_string, ecma_string_get_size, ecma_string_copied_bytes.
  cbn [container common_field mbind option_bind].
  destruct (Z.ltb_spec 10 (ecma_string_get_number_in_desc_size n)) as [|_]; [lia|].
  reflexivity.
Qed.

Lemma uint32_string_fits_witness :
  ∃ s k,
    strings (ecma_new_ecma_string_from_uint32 Sample.env Sample.empty_heap 4294967295).2
      !! (ecma_new_ecma_string_from_uint32 Sample.env Sample.empty_heap 4294967295).1
      = Some s ∧
    1 ≤ k ≤ 10 ∧
    k = Z.of_nat (length (ecma_uint32_to_utf8_string 4294967295)) ∧
    ecma_string_get_size Sample.env
      (ecma_new_ecma_string_from_uint32 Sample.env Sample.empty_heap 4294967295).2 s = Some k ∧
    ecma_string_get_length Sample.env
      (ecma_new_ecma_string_from_uint32 Sample.env Sample.empty_heap 4294967295).2 s = Some k ∧
    ecma_string_to_utf8_string Sample.env
      (ecma_new_ecma_string_from_uint32 Sample.env Sample.empty_heap 4294967295).2 s
      (replicate 10 0) 10
    = Some (k, ecma_uint32_to_utf8_string 4294967295
               ++ drop (length (ecma_uint32_to_utf8_string 4294967295)) (replicate 10 0)).
Proof.
  apply (uint32_string_fits_ten_bytes Sample.env Sample.empty_heap 4294967295 (replicate 10 0)).
  lia.
Defined.

(** What the constructor from a number stores: a number that survives the
    round trip through [uint32] becomes a [UINT32_IN_DESC] descriptor whose
    string is the decimal form of the integer, and every other number a
    descriptor (magic, external magic or number cell) whose string is the
    canonical form of the number; the cached hash is the hash of that
    string; and converting the descriptor back yields the number itself
    from a number cell and a number equal to it from the descriptor. *)
Theorem from_number_stores_the_number E h (num : Z) :
  ∃ p h' s,
    ecma_new_ecma_string_from_number E h num = Some (p, h') ∧
    strings h' !! p = Some s ∧
    refs s = 1 ∧
    (if ecma_number_eq E num (ecma_uint32_to_number E (ecma_number_to_uint32 E num))
     then container s = ECMA_STRING_CONTAINER_UINT32_IN_DESC ∧
          common_field s = ecma_number_to_uint32 E num ∧
          logical_bytes E h' s
          = Some (ecma_uint32_to_utf8_string (ecma_number_to_uint32 E num)) ∧
          hash s
          = lit_utf8_string_calc_hash E
              (ecma_uint32_to_utf8_string (ecma_number_to_uint32 E num)) ∧
          ∃ back, ecma_string_to_number E h' s = Some back ∧
                  ecma_number_eq E num back = true
     else container s ≠ ECMA_STRING_CONTAINER_UINT32_IN_DESC ∧
          container s ≠ ECMA_STRING_CONTAINER_HEAP_CHUNKS ∧
          container s ≠ ECMA_STRING_CONTAINER_LIT_TABLE ∧
          logical_bytes E h' s = Some (ecma_number_to_utf8_string E num) ∧
          hash s = lit_utf8_string_calc_hash E (ecma_number_to_utf8_string E num) ∧
          (container s = ECMA_STRING_CONTAINER_HEAP_NUMBER →
           ecma_string_to_number E h' s = Some num)).
Proof.
  unfold ecma_new_ecma_string_from_number.
  destruct (ecma_number_eq E num _) eqn:Heq.
  { eexists _, _, _. split; [reflexivity|]. split; [apply heap_set_string_lookup|].
    split; [reflexivity|]. repeat (split; [reflexivity|]).
    eexists. split; [reflexivity|]. exact Heq. }
  destruct (lit_is_utf8_string_magic E _) as [id|] eqn:Hm.
  { pose proof (magic_table_find_get _ _ _ Hm) as Hget.
    unfold ecma_get_magic_string, ecma_new_ecma_string_from_magic_string_id,
      ecma_init_ecma_string_from_magic_string_id, lit_get_magic_string_utf8.
    rewrite Hget. cbn [mbind option_bind].
    eexists _, _, _. split; [reflexivity|]. split; [apply heap_set_string_lookup|].
    split; [reflexivity|]. repeat (split; [discriminate|]).
    split; [exact Hget|]. split; [reflexivity|]. discriminate. }
  destruct (lit_is_ex_utf8_string_magic E _) as [id|] eqn:Hex.
  { pose proof (magic_table_find_get _ _ _ Hex) as Hget.
    unfold ecma_get_magic_string_ex, ecma_new_ecma_string_from_magic_string_ex_id,
      ecma_init_ecma_string_from_magic_string_ex_id, lit_get_magic_string_ex_utf8.
    rewrite Hget. cbn [mbind option_bind].
    eexists _, _, _. split; [reflexivity|]. split; [apply heap_set_string_lookup|].
    split; [reflexivity|]. repeat (split; [discriminate|]).
    split; [exact Hget|]. split; [reflexivity|]. discriminate. }
  eexists _, _, _. split; [reflexivity|]. split; [apply heap_set_string_lookup|].
  split; [reflexivity|]. repeat (split; [discriminate|]).
  assert (Hcell : numbers
            (heap_set_string (ecma_alloc_string h)
               (mk_ecma_string 1 ECMA_STRING_CONTAINER_HEAP_NUMBER
                  (lit_utf8_string_calc_hash E (ecma_number_to_utf8_string E num))
                  (ecma_alloc_number h))
               (heap_set_number (ecma_alloc_number h) num h))
            !! ecma_alloc_number h = Some num) by (cbn; apply lookup_insert_eq).
  split.
  { unfold logical_bytes. cbn [container common_field]. rewrite Hcell. reflexivity. }
  split; [reflexivity|]. intros _.
  unfold ecma_string_to_number. cbn [container common_field]. exact Hcell.
Qed.


(** ** Comparison *)

Lemma strncmp_is_zero_sym (s1 : list Z) : ∀ (s2 : list Z) n,
  strncmp_is_zero s1 s2 n = strncmp_is_zero s2 s1 n.
Proof.
  induction s1 as [|c1 s1 IH]; intros [|c2 s2] [|n]; try reflexivity.
  cbn [strncmp_is_zero]. rewrite (Z.eqb_sym c2 c1).
  destruct (Z.eqb_spec c1 c2) as [->|_]; cbn [negb]; [|reflexivity].
  destruct (c2 =? 0); [reflexivity|apply IH].
Qed.

(** Equality of strings does not depend on the order of its operands, in
    an engine whose equality of numbers does not. *)
Theorem compare_is_symmetric E h a b :
  (∀ x y, ecma_number_eq E x y = ecma_number_eq E y x) →
  ecma_compare_ecma_strings E h a b = ecma_compare_ecma_strings E h b a.
Proof.
  intros Hnum. unfold ecma_compare_ecma_strings.
  rewrite (Z.eqb_sym (hash b) (hash a)).
  destruct (hash a =? hash b); cbn [negb]; [|reflexivity].
  rewrite (Z.eqb_sym (common_field b) (common_field a)).
  destruct (decide (container a = container b)) as [Hc|Hc].
  - rewrite !bool_decide_eq_true_2 by congruence. cbn [andb].
    destruct (common_field a =? common_field b); [reflexivity|].
    unfold ecma_compare_ecma_strings_longpath.
    rewrite !bool_decide_eq_true_2 by congruence. cbn [andb]. rewrite <- Hc.
    destruct (container a) eqn:Hca; try reflexivity.
    + (* HEAP_CHUNKS *)
      unfold ecma_string_get_size. rewrite <- Hc, Hca.
      destruct (chunks h !! common_field a) as [da|];
        destruct (chunks h !! common_field b) as [db|]; try reflexivity.
      cbn [mbind option_bind].
      rewrite (Z.eqb_sym (data_size db) (data_size da)).
      destruct (Z.eqb_spec (data_size da) (data_size db)) as [Hsz|_]; cbn [negb];
        [|reflexivity].
      rewrite <- Hsz. destruct (data_size da =? 0); [reflexivity|].
      rewrite (Z.eqb_sym (data_length db) (data_length da)).
      destruct (data_length da =? data_length db); cbn [negb]; [|reflexivity].
      apply strncmp_is_zero_sym.
    + (* HEAP_NUMBER *)
      unfold ecma_string_get_size. rewrite <- Hc, Hca.
      unfold ecma_string_get_heap_number_size.
      destruct (numbers h !! common_field a) as [na|];
        destruct (numbers h !! common_field b) as [nb|]; try reflexivity.
      cbn [mbind option_bind].
      rewrite (Z.eqb_sym (Z.of_nat (length (ecma_number_to_utf8_string E nb)))).
      destruct (Z.eqb_spec (Z.of_nat (length (ecma_number_to_utf8_string E na)))
                  (Z.of_nat (length (ecma_number_to_utf8_string E nb)))) as [Hsz|_];
        cbn [negb]; [|reflexivity].
      rewrite <- Hsz. destruct (_ =? 0); [reflexivity|].
      rewrite (andb_comm (ecma_number_is_nan E nb)), (Hnum nb na). reflexivity.
  - rewrite !bool_decide_eq_false_2 by congruence. cbn [andb].
    unfold ecma_compare_ecma_strings_longpath.
    rewrite !bool_decide_eq_false_2 by congruence. cbn [andb].
    destruct (ecma_string_get_size E h a) as [sa|];
      destruct (ecma_string_get_size E h b) as [sb|]; try reflexivity.
    cbn [mbind option_bind]. rewrite (Z.eqb_sym sb sa).
    destruct (Z.eqb_spec sa sb) as [<-|_]; cbn [negb]; [|reflexivity].
    destruct (sa =? 0); [reflexivity|].
    destruct (longpath_utf8_string E h a sa) as [ua|];
      destruct (longpath_utf8_string E h b sa) as [ub|]; try reflexivity.
    cbn [mbind option_bind]. apply strncmp_is_zero_sym.
Qed.

Lemma compare_is_symmetric_witness :
  ecma_compare_ecma_strings Sample.env (Sample.two_chunk_heap Sample.leng Sample.th)
    (Sample.chunk_string_at 1 Sample.leng) (Sample.chunk_string_at 2 Sample.th)
  = ecma_compare_ecma_strings Sample.env (Sample.two_chunk_heap Sample.leng Sample.th)
      (Sample.chunk_string_at 2 Sample.th) (Sample.chunk_string_at 1 Sample.leng).
Proof.
  apply (compare_is_symmetric Sample.env). intros x y. apply Z.eqb_sym.
Defined.

Lemma strncmp_is_zero_prefix_without_null (a : list Z) : ∀ (b r1 r2 : list Z),
  length a = length b →
  Forall (λ c, c ≠ 0) a →
  strncmp_is_zero (a ++ r1) (b ++ r2) (length a) = Some (bool_decide (a = b)).
Proof.
  induction a as [|c1 a IH]; intros [|c2 b] r1 r2 Hlen Hnz; try discriminate Hlen.
  - reflexivity.
  - cbn [app length strncmp_is_zero]. inversion Hnz as [|? ? Hc Hrest]; subst.
    destruct (Z.eqb_spec c1 c2) as [->|Hne]; cbn [negb].
    + destruct (Z.eqb_spec c2 0) as [|_]; [contradiction|].
      rewrite IH by (cbn in Hlen; congruence || assumption).
      f_equal. apply bool_decide_ext. split; congruence.
    + rewrite bool_decide_eq_false_2 by congruence. reflexivity.
Qed.

Lemma compare_across_containers E h a b (ba bb : list Z) :
  container a ≠ container b →
  string_ok E h a → string_ok E h b →
  logical_bytes E h a = Some ba → logical_bytes E h b = Some bb →
  hash_ok E h a → hash_ok E h b →
  Forall (λ c, c ≠ 0) ba ∨ Forall (λ c, c ≠ 0) bb →
  ecma_compare_ecma_strings E h a b = Some (bool_decide (ba = bb)).
Proof.
  intros Hc Hoka Hokb Hba Hbb Hha Hhb Hnz.
  unfold ecma_compare_ecma_strings.
  destruct (Z.eqb_spec (hash a) (hash b)) as [Hh|Hh]; cbn [negb].
  2:{ rewrite bool_decide_eq_false_2; [reflexivity|].
      intros ->. apply Hh. rewrite (Hha bb Hba), (Hhb bb Hbb). reflexivity. }
  rewrite bool_decide_eq_false_2 by exact Hc. cbn [andb].
  unfold ecma_compare_ecma_strings_longpath.
  rewrite bool_decide_eq_false_2 by exact Hc. cbn [andb].
  rewrite (get_size_logical E h a ba Hoka Hba), (get_size_logical E h b bb Hokb Hbb).
  cbn [mbind option_bind].
  destruct (Z.eqb_spec (Z.of_nat (length ba)) (Z.of_nat (length bb))) as [Hlen|Hlen];
    cbn [negb].
  2:{ rewrite bool_decide_eq_false_2; [reflexivity|]. intros ->. apply Hlen. reflexivity. }
  destruct (Z.eqb_spec (Z.of_nat (length ba)) 0) as [H0|H0].
  { destruct ba; [|cbn in H0; lia]. destruct bb; [reflexivity|cbn in Hlen; lia]. }
  assert (Hnea : ba ≠ []) by (intros ->; cbn in H0; lia).
  assert (Hneb : bb ≠ []) by (intros ->; cbn in Hlen; lia).
  destruct (longpath_utf8_string_logical E h a ba Hoka Hba Hnea) as [ra ->].
  rewrite Hlen.
  destruct (longpath_utf8_string_logical E h b bb Hokb Hbb Hneb) as [rb ->].
  cbn [mbind option_bind]. rewrite Nat2Z.id.
  destruct Hnz as [Hnz|Hnz].
  - replace (length bb) with (length ba) by lia.
    apply strncmp_is_zero_prefix_without_null; [lia|exact Hnz].
  - rewrite strncmp_is_zero_sym.
    rewrite strncmp_is_zero_prefix_without_null by (lia || exact Hnz).
    f_equal. apply bool_decide_ext. split; congruence.
Qed.

(** Between descriptors of different containers, the comparison decides
    equality of the logical strings, provided the hashes cached are those
    of the strings and one of the two strings has no null byte. *)
Theorem compare_across_containers_decides_equality E h a b (ba bb : list Z) :
  container a ≠ container b →
  string_ok E h a → string_ok E h b →
  logical_bytes E h a = Some ba → logical_bytes E h b = Some bb →
  hash_ok E h a → hash_ok E h b →
  Forall (λ c, c ≠ 0) ba ∨ Forall (λ c, c ≠ 0) bb →
  ecma_compare_ecma_strings E h a b = Some (bool_decide (ba = bb)).
Proof. apply compare_across_containers. Qed.

Lemma sample_forall_nonzero (l : list Z) :
  forallb (λ c, negb (c =? 0)) l = true → Forall (λ c, c ≠ 0) l.
Proof.
  intros H. apply Forall_forall. intros c Hc. apply list_elem_of_In in Hc.
  rewrite forallb_forall in H. specialize (H c Hc).
  destruct (Z.eqb_spec c 0); [discriminate|assumption].
Defined.

Lemma compare_across_containers_witness :
  ecma_compare_ecma_strings Sample.env (Sample.chunk_heap 1 [108; 101; 110; 103; 116; 104])
    (Sample.magic_string 1 [108; 101; 110; 103; 116; 104])
    (Sample.chunk_string 1 [108; 101; 110; 103; 116; 104])
  = Some true
  ∧ ecma_compare_ecma_strings Sample.env (Sample.chunk_heap 1 [108; 101; 110; 103; 116; 105])
      (Sample.magic_string 1 [108; 101; 110; 103; 116; 104])
      (Sample.chunk_string 1 [108; 101; 110; 103; 116; 105])
    = Some false.
Proof.
  split.
  - apply (compare_across_containers_decides_equality Sample.env _
             (Sample.magic_string 1 [108; 101; 110; 103; 116; 104])
             (Sample.chunk_string 1 [108; 101; 110; 103; 116; 104])
             [108; 101; 110; 103; 116; 104] [108; 101; 110; 103; 116; 104]).
    + discriminate.
    + apply sample_magic_string_ok. reflexivity.
    + apply sample_chunk_string_ok.
    + reflexivity.
    + reflexivity.
    + intros bytes Hb. vm_compute in Hb. injection Hb as <-. reflexivity.
    + intros bytes Hb. vm_compute in Hb. injection Hb as <-. reflexivity.
    + left. apply sample_forall_nonzero. reflexivity.
  - apply (compare_across_containers_decides_equality Sample.env _
             (Sample.magic_string 1 [108; 101; 110; 103; 116; 104])
             (Sample.chunk_string 1 [108; 101; 110; 103; 116; 105])
             [108; 101; 110; 103; 116; 104] [108; 101; 110; 103; 116; 105]).
    + discriminate.
    + apply sample_magic_string_ok. reflexivity.
    + apply sample_chunk_string_ok.
    + reflexivity.
    + reflexivity.
    + intros bytes Hb. vm_compute in Hb. injection Hb as <-. reflexivity.
    + intros bytes Hb. vm_compute in Hb. injection Hb as <-. reflexivity.
    + left. apply sample_forall_nonzero. reflexivity.
Defined.


(** ** Array indices written as text *)

Lemma uint32_digits_without_null fuel : ∀ n acc,
  Forall (λ c, c ≠ 0) acc → Forall (λ c, c ≠ 0) (uint32_digits fuel n acc).
Proof.
  induction fuel as [|fuel IH]; intros n acc Hacc; [exact Hacc|].
  cbn [uint32_digits].
  assert (Hacc' : Forall (λ c, c ≠ 0) ((48 + n mod 10) :: acc)).
  { constructor; [|exact Hacc]. pose proof (Z.mod_pos_bound n 10). lia. }
  destruct (n / 10 =? 0); [exact Hacc'|apply IH; exact Hacc'].
Qed.

(** For a descriptor that does not keep a number in itself,
    [ecma_string_get_array_index] converts the text to a number, takes its
    32-bit value [out], and answers whether the text is exactly the decimal
    form of [out] and [out] is not the largest 32-bit value; the temporary
    string it builds for the comparison is gone when it returns. *)
Theorem array_index_of_text_string E h s (bytes : list Z) num :
  container s ≠ ECMA_STRING_CONTAINER_UINT32_IN_DESC →
  string_ok E h s → logical_bytes E h s = Some bytes → hash_ok E h s →
  ecma_string_to_number E h s = Some num →
  0 ≤ ecma_number_to_uint32 E num < 2 ^ 32 →
  ecma_string_get_array_index E h s
  = Some (bool_decide (bytes = ecma_uint32_to_utf8_string (ecma_number_to_uint32 E num))
          && negb (ecma_number_to_uint32 E num =? ECMA_MAX_VALUE_OF_VALID_ARRAY_INDEX),
          ecma_number_to_uint32 E num, h).
Proof.
  intros Hc Hok Hb Hh Hnum Hrange.
  destruct (ecma_alloc_string_fresh h) as [Hfresh _].
  unfold ecma_string_get_array_index.
  rewrite bool_decide_eq_false_2 by exact Hc.
  rewrite Hnum. cbn [mbind option_bind].
  unfold ecma_new_ecma_string_from_uint32. cbv beta iota zeta.
  set (out := ecma_number_to_uint32 E num) in *.
  set (tmp := mk_ecma_string 1 ECMA_STRING_CONTAINER_UINT32_IN_DESC
                (lit_utf8_string_calc_hash E (ecma_uint32_to_utf8_string out)) out).
  set (h1 := heap_set_string (ecma_alloc_string h) tmp h).
  assert (Hl : strings h1 !! ecma_alloc_string h = Some tmp)
    by apply heap_set_string_lookup.
  rewrite Hl. cbn [mbind option_bind].
  assert (Hext : heap_extends h h1) by apply heap_extends_set_string.
  rewrite (compare_across_containers E h1 s tmp bytes (ecma_uint32_to_utf8_string out)).
  - cbn [mbind option_bind].
    unfold h1. rewrite (deref_last_in_descriptor E h _ tmp Hfresh eq_refl)
      by discriminate.
    reflexivity.
  - cbn [container tmp]. exact Hc.
  - exact (string_ok_extends E h h1 s Hext Hok).
  - split; [eexists; reflexivity|]. split; [intros _; exact Hrange|].
    intros Hcc; discriminate Hcc.
  - exact (logical_bytes_extends E h h1 s bytes Hext Hb).
  - reflexivity.
  - intros b' Hb'. apply Hh.
    pose proof (logical_bytes_extends E h h1 s bytes Hext Hb) as Hb1.
    rewrite Hb1 in Hb'. rewrite Hb. exact Hb'.
  - intros b' Hb'. injection Hb' as <-. reflexivity.
  - right. apply uint32_digits_without_null. constructor.
Qed.

Lemma array_index_of_text_witness :
  ecma_string_get_array_index Sample.env (Sample.chunk_heap 1 [52; 50])
    (Sample.chunk_string 1 [52; 50])
  = Some (true, 42, Sample.chunk_heap 1 [52; 50])
  ∧ ecma_string_get_array_index Sample.env (Sample.chunk_heap 1 [48; 52; 50])
      (Sample.chunk_string 1 [48; 52; 50])
    = Some (false, 42, Sample.chunk_heap 1 [48; 52; 50]).
Proof.
  split.
  - apply (array_index_of_text_string Sample.env (Sample.chunk_heap 1 [52; 50])
             (Sample.chunk_string 1 [52; 50]) [52; 50] 42).
    + discriminate.
    + apply sample_chunk_string_ok.
    + reflexivity.
    + intros bytes Hb. vm_compute in Hb. injection Hb as <-. reflexivity.
    + reflexivity.
    + vm_compute. split; [discriminate|reflexivity].
  - apply (array_index_of_text_string Sample.env (Sample.chunk_heap 1 [48; 52; 50])
             (Sample.chunk_string 1 [48; 52; 50]) [48; 52; 50] 42).
    + discriminate.
    + apply sample_chunk_string_ok.
    + reflexivity.
    + intros bytes Hb. vm_compute in Hb. injection Hb as <-. reflexivity.
    + reflexivity.
    + vm_compute. split; [discriminate|reflexivity].
Defined.

(** ** The relational comparison *)

(** Each operand of the relational comparison is read as its logical
    string, whether it is read in place, fits the stack buffer, or needs a
    block of its own. *)
Lemma relational_utf8_string_logical E T h s (bytes : list Z) :
  string_ok E h s → logical_bytes E h s = Some bytes →
  Z.of_nat (length bytes) < 2 ^ 32 →
  0 ≤ ECMA_MAX_CHARS_IN_STRINGIFIED_NUMBER T →
  relational_utf8_string E T h s = Some bytes.
Proof.
  intros Hok Hb Hlen Hcap.
  assert (Hgen :
    ('(req_size, utf8_string_buffer) ←
        ecma_string_to_utf8_string E h s
          (local_array (ECMA_MAX_CHARS_IN_STRINGIFIED_NUMBER T))
          (ECMA_MAX_CHARS_IN_STRINGIFIED_NUMBER T);
      if req_size <? 0
      then
        ('(bytes_copied, heap_buffer_p) ←
           ecma_string_to_utf8_string E h s (local_array (- req_size)) (- req_size);
         Some (take (Z.to_nat (to_uint32 bytes_copied)) heap_buffer_p))
      else Some (take (Z.to_nat (to_uint32 req_size)) utf8_string_buffer))
    = Some bytes).
  { rewrite (to_utf8_string_logical E h s bytes _ _ Hok Hb).
    destruct (decide (Z.of_nat (length bytes) ≤ ECMA_MAX_CHARS_IN_STRINGIFIED_NUMBER T
                      ∧ 0 < ECMA_MAX_CHARS_IN_STRINGIFIED_NUMBER T)) as [Hfit|Hnofit].
    - rewrite bool_decide_eq_true_2 by exact Hfit. cbn [mbind option_bind].
      destruct (Z.ltb_spec (Z.of_nat (length bytes)) 0) as [|_]; [lia|].
      unfold to_uint32. rewrite Z.mod_small by lia. rewrite Nat2Z.id.
      rewrite (take_app_length bytes). reflexivity.
    - rewrite bool_decide_eq_false_2 by exact Hnofit. cbn [mbind option_bind].
      destruct (Z.ltb_spec (- Z.of_nat (length bytes)) 0) as [Hneg|Hzero].
      + rewrite Z.opp_involutive.
        rewrite (to_utf8_string_logical E h s bytes _ _ Hok Hb).
        rewrite bool_decide_eq_true_2 by lia. cbn [mbind option_bind].
        unfold to_uint32. rewrite Z.mod_small by lia. rewrite Nat2Z.id.
        rewrite (take_app_length bytes). reflexivity.
      + destruct bytes; [|cbn in Hzero; lia]. reflexivity. }
  unfold relational_utf8_string.
  destruct (container s) eqn:Hc; try exact Hgen.
  - unfold logical_bytes in Hb. rewrite Hc in Hb. exact Hb.
  - destruct Hok as (_ & _ & Hchunk).
    unfold logical_bytes in Hb. rewrite Hc in Hb.
    destruct (chunks h !! common_field s) as [c|] eqn:Hl; [|discriminate].
    cbn in Hb |- *. injection Hb as <-.
    destruct (Hchunk Hc c eq_refl) as [-> _]. rewrite Nat2Z.id, firstn_all. reflexivity.
Qed.

(** The relational comparison answers [false] on operands the equality
    test calls equal, and otherwise what the comparator of the codec says
    of the two logical strings. *)
Theorem relational_compares_the_logical_strings E T h a b (ba bb : list Z) eq :
  string_ok E h a → string_ok E h b →
  logical_bytes E h a = Some ba → logical_bytes E h b = Some bb →
  Z.of_nat (length ba) < 2 ^ 32 → Z.of_nat (length bb) < 2 ^ 32 →
  0 ≤ ECMA_MAX_CHARS_IN_STRINGIFIED_NUMBER T →
  ecma_compare_ecma_strings E h a b = Some eq →
  ecma_compare_ecma_strings_relational E T h a b
  = Some (if eq then false else lit_compare_utf8_strings_relational T ba bb).
Proof.
  intros Hoka Hokb Hba Hbb Hla Hlb Hcap Heq.
  unfold ecma_compare_ecma_strings_relational. rewrite Heq. cbn [mbind option_bind].
  destruct eq; [reflexivity|].
  rewrite (relational_utf8_string_logical E T h a ba Hoka Hba Hla Hcap).
  rewrite (relational_utf8_string_logical E T h b bb Hokb Hbb Hlb Hcap).
  reflexivity.
Qed.

Lemma relational_compares_witness :
  ecma_compare_ecma_strings_relational Sample.env SampleText.env
    (Sample.two_chunk_heap Sample.leng Sample.th)
    (Sample.chunk_string_at 1 Sample.leng) (Sample.chunk_string_at 2 Sample.th)
  = Some true.
Proof.
  destruct (sample_two_chunk_heap_ok Sample.leng Sample.th) as [Hoka Hokb].
  apply (relational_compares_the_logical_strings Sample.env SampleText.env
           (Sample.two_chunk_heap Sample.leng Sample.th)
           (Sample.chunk_string_at 1 Sample.leng) (Sample.chunk_string_at 2 Sample.th)
           Sample.leng Sample.th false Hoka Hokb eq_refl eq_refl).
  - cbn. lia.
  - cbn. lia.
  - cbn. lia.
  - reflexivity.
Defined.


(** ** The hash of a concatenation *)

(** Concatenation keeps invariant 3: for two non-empty operands whose sizes
    add up to less than 2^16, when the first operand caches the hash of its
    bytes and hashes combine, the hash the result caches, which
    [ecma_string_hash] returns, is the hash of the bytes the result
    materialises, the bytes of the first operand followed by those of the
    second. *)
Theorem concat_keeps_the_hash_invariant E h p1 p2 s1 s2 (b1 b2 buffer : list Z) :
  strings h !! p1 = Some s1 → strings h !! p2 = Some s2 →
  string_ok E h s1 → string_ok E h s2 →
  logical_bytes E h s1 = Some b1 → logical_bytes E h s2 = Some b2 →
  b1 ≠ [] → b2 ≠ [] →
  Z.of_nat (length b1) + Z.of_nat (length b2) < 2 ^ 16 →
  hash_ok E h s1 → hash_combine_law E →
  ∃ p h' c,
    ecma_concat_ecma_strings E h p1 p2 = Some (p, h') ∧
    strings h' !! p = Some c ∧
    ecma_string_to_utf8_string E h' c buffer
      (Z.of_nat (length b1) + Z.of_nat (length b2))
    = Some (Z.of_nat (length b1) + Z.of_nat (length b2),
            (b1 ++ b2) ++ drop (length (b1 ++ b2)) buffer) ∧
    ecma_string_hash c = lit_utf8_string_calc_hash E (b1 ++ b2).
Proof.
  intros Hp1 Hp2 Hok1 Hok2 Hb1 Hb2 Hne1 Hne2 Hsum Hh1 Hlaw.
  destruct (get_length_logical E h s1 b1 Hok1 Hb1) as (l1 & Hl1 & _).
  destruct (get_length_logical E h s2 b2 Hok2 Hb2) as (l2 & Hl2 & _).
  rewrite (concat_spec E h p1 p2 s1 s2 b1 b2 l1 l2 Hp1 Hp2 Hok1 Hok2 Hb1 Hb2
             Hne1 Hne2 ltac:(lia) Hl1 Hl2).
  set (p := ecma_alloc_string h). set (dp := mem_heap_alloc_block h _).
  set (c := mk_ecma_string 1 ECMA_STRING_CONTAINER_HEAP_CHUNKS _ dp).
  set (chunk := mk_chunk _ _ _).
  set (h' := heap_set_string p c (heap_set_chunk dp chunk h)).
  assert (Hchunk : chunks h' !! dp = Some chunk) by (cbn; apply lookup_insert_eq).
  assert (Hpos1 : 0 < Z.of_nat (length b1)) by (destruct b1; [congruence|cbn; lia]).
  exists p, h', c. split; [reflexivity|].
  split; [apply heap_set_string_lookup|].
  split.
  - unfold ecma_string_to_utf8_string, ecma_string_get_size.
    cbn [container c common_field]. rewrite Hchunk.
    cbn [mbind option_bind data_size chunk].
    unfold to_uint16. rewrite Z.mod_small by lia.
    rewrite Z.ltb_irrefl. cbn [orb].
    destruct (Z.eqb_spec (Z.of_nat (length b1) + Z.of_nat (length b2)) 0) as [|_]; [lia|].
    unfold ecma_string_copied_bytes. cbn [container c common_field]. rewrite Hchunk.
    cbn [mbind option_bind data_size data_bytes chunk].
    unfold to_uint16. rewrite Z.mod_small by lia.
    replace (Z.to_nat (Z.of_nat (length b1) + Z.of_nat (length b2)))
      with (length (b1 ++ b2)) by (rewrite length_app; lia).
    rewrite firstn_all. reflexivity.
  - unfold ecma_string_hash. cbn [hash c]. rewrite (Hh1 b1 Hb1). apply Hlaw.
Qed.

Lemma concat_keeps_the_hash_witness :
  ∃ p h' c,
    ecma_concat_ecma_strings Sample.env (Sample.two_chunk_heap Sample.leng Sample.th) 1 2
      = Some (p, h') ∧
    strings h' !! p = Some c ∧
    ecma_string_to_utf8_string Sample.env h' c [7; 7; 7; 7; 7; 7; 7] 6
    = Some (6, [108; 101; 110; 103; 116; 104; 7]) ∧
    ecma_string_hash c = lit_utf8_string_calc_hash Sample.env [108; 101; 110; 103; 116; 104].
Proof.
  destruct (sample_two_chunk_heap_ok Sample.leng Sample.th) as [Hok1 Hok2].
  apply (concat_keeps_the_hash_invariant Sample.env
           (Sample.two_chunk_heap Sample.leng Sample.th) 1 2
           (Sample.chunk_string_at 1 Sample.leng) (Sample.chunk_string_at 2 Sample.th)
           Sample.leng Sample.th [7; 7; 7; 7; 7; 7; 7] eq_refl eq_refl Hok1 Hok2
           eq_refl eq_refl).
  - discriminate.
  - discriminate.
  - cbn. lia.
  - intros bytes Hb. vm_compute in Hb. injection Hb as <-. reflexivity.
  - exact sample_hash_combine_law.
Defined.

(** ** Substrings *)

(** The substring between the code units [i <= j] of a string made of [n]
    whole code units is a new string of exactly [j - i] code units, and the
    chunks and number cells of the heap are left as they were. *)
Theorem substr_has_the_requested_length E h s (bytes : list Z) n i j :
  string_ok E h s → logical_bytes E h s = Some bytes →
  code_units E bytes n →
  Z.of_nat (length bytes) < 2 ^ 16 →
  0 ≤ i → i ≤ j → j ≤ Z.of_nat n →
  ∃ p h' c x,
    ecma_string_substr E h s i j = Some (p, h') ∧
    strings h !! p = None ∧
    strings h' !! p = Some c ∧
    refs c = 1 ∧
    heap_extends h h' ∧
    logical_bytes E h' c = Some x ∧
    code_units E x (Z.to_nat (j - i)) ∧
    ecma_string_get_length E h' c = Some (j - i).
Proof.
  intros Hok Hb Hu Hlen Hi Hij Hj.
  destruct (code_unit_offsets E bytes n (Z.to_nat i) (Z.to_nat j) Hu)
    as (a & b & Ha & Hbo & Hab & Hslice); [lia|lia|].
  destruct (substr_builds E h s bytes n i j a b Hok Hb Hu Hlen Hi Hij Hj Ha Hbo Hab)
    as [(c & h' & Hnew & Hstr & Hext & Hokc & Hbc & _ & Hrefs & Hcont) _].
  set (x := take (b - a) (drop a bytes)) in *.
  destruct (ecma_alloc_string_fresh h) as [Hfresh _].
  exists (ecma_alloc_string h), h', c, x.
  split; [exact Hnew|]. split; [exact Hfresh|].
  split; [rewrite Hstr; apply lookup_insert_eq|].
  split; [exact Hrefs|]. split; [exact Hext|]. split; [exact Hbc|].
  replace (Z.to_nat (j - i)) with (Z.to_nat j - Z.to_nat i)%nat by lia.
  split; [exact Hslice|].
  destruct (get_length_logical E h' c x Hokc Hbc) as (l & Hl & _ & Hunits).
  rewrite Hl. f_equal. rewrite Hunits.
  - rewrite (lit_utf8_string_length_units E x _ Hslice). lia.
  - destruct Hcont as [[Hc _]|[[Hc _]|[Hc _]]]; rewrite Hc; discriminate.
  - destruct Hcont as [[Hc _]|[[Hc _]|[Hc _]]]; rewrite Hc; discriminate.
Qed.

Lemma substr_has_the_requested_length_witness :
  ∃ p h' c x,
    ecma_string_substr Sample.env (Sample.chunk_heap 1 Sample.a_e_b)
      (Sample.chunk_string 1 Sample.a_e_b) 1 3 = Some (p, h') ∧
    strings (Sample.chunk_heap 1 Sample.a_e_b) !! p = None ∧
    strings h' !! p = Some c ∧
    refs c = 1 ∧
    heap_extends (Sample.chunk_heap 1 Sample.a_e_b) h' ∧
    logical_bytes Sample.env h' c = Some x ∧
    code_units Sample.env x (Z.to_nat (3 - 1)) ∧
    ecma_string_get_length Sample.env h' c = Some (3 - 1).
Proof.
  apply (substr_has_the_requested_length Sample.env (Sample.chunk_heap 1 Sample.a_e_b)
           (Sample.chunk_string 1 Sample.a_e_b) Sample.a_e_b 3 1 3
           (sample_chunk_string_ok 1 Sample.a_e_b) eq_refl sample_a_e_b_units).
  - cbn. lia.
  - lia.
  - lia.
  - lia.
Defined.

(** The substring from 0 to the length of a string made of whole code
    units is a new string with the text of the original: a descriptor with
    counter 1 at an address that was free, whose bytes, as stored and as
    materialised, are those of the original, with their hash; the chunks and
    number cells of the heap are kept and the scratch array is given
    back. *)
Theorem substr_of_the_whole_string E h s (bytes buffer : list Z) n :
  string_ok E h s → logical_bytes E h s = Some bytes →
  code_units E bytes n →
  Z.of_nat (length bytes) < 2 ^ 16 →
  ∃ p h' c,
    ecma_string_substr E h s 0 (Z.of_nat n) = Some (p, h') ∧
    strings h !! p = None ∧
    strings h' !! p = Some c ∧
    refs c = 1 ∧
    heap_extends h h' ∧
    blocks h' = blocks h ∧
    logical_bytes E h' c = Some bytes ∧
    hash c = lit_utf8_string_calc_hash E bytes ∧
    ecma_string_to_utf8_string E h' c buffer (Z.of_nat (length bytes))
    = Some (Z.of_nat (length bytes), bytes ++ drop (length bytes) buffer).
Proof.
  intros Hok Hb Hu Hlen.
  destruct (skip_code_units_units E bytes n 0 n) as (q & Hq & Hqle & _ & Hrest);
    [lia|exact Hu|lia|].
  rewrite Nat.sub_diag in Hrest. apply code_units_zero in Hrest.
  cbn [Nat.add] in *.
  assert (Hqlen : q = length bytes).
  { apply (f_equal length) in Hrest. rewrite length_drop in Hrest. cbn in Hrest. lia. }
  subst q.
  destruct (substr_builds E h s bytes n 0 (Z.of_nat n) 0%nat (length bytes) Hok Hb Hu Hlen)
    as [(c & h' & Hnew & Hstr & Hext & Hokc & Hbc & Hh & Hrefs & _) Hblocks];
    [lia|lia|lia|reflexivity|rewrite Nat2Z.id; exact Hq|lia|].
  rewrite Nat.sub_0_r, drop_0, firstn_all in *.
  destruct (ecma_alloc_string_fresh h) as [Hfresh _].
  exists (ecma_alloc_string h), h', c.
  split; [exact Hnew|]. split; [exact Hfresh|].
  split; [rewrite Hstr; apply lookup_insert_eq|].
  split; [exact Hrefs|]. split; [exact Hext|].
  split; [exact (Hblocks _ _ Hnew)|].
  split; [exact Hbc|]. split; [exact Hh|].
  rewrite (to_utf8_string_logical E h' c bytes _ _ Hokc Hbc).
  destruct bytes as [|b0 bytes].
  - rewrite bool_decide_eq_false_2 by (cbn; lia). reflexivity.
  - rewrite bool_decide_eq_true_2 by (cbn [length]; lia). reflexivity.
Qed.

Lemma substr_of_the_whole_string_witness :
  ∃ p h' c,
    ecma_string_substr Sample.env (Sample.chunk_heap 1 Sample.a_e_b)
      (Sample.chunk_string 1 Sample.a_e_b) 0 (Z.of_nat 3) = Some (p, h') ∧
    strings (Sample.chunk_heap 1 Sample.a_e_b) !! p = None ∧
    strings h' !! p = Some c ∧
    refs c = 1 ∧
    heap_extends (Sample.chunk_heap 1 Sample.a_e_b) h' ∧
    blocks h' = blocks (Sample.chunk_heap 1 Sample.a_e_b) ∧
    logical_bytes Sample.env h' c = Some Sample.a_e_b ∧
    hash c = lit_utf8_string_calc_hash Sample.env Sample.a_e_b ∧
    ecma_string_to_utf8_string Sample.env h' c [7; 7; 7; 7; 7] 4
    = Some (4, [97; 195; 169; 98; 7]).
Proof.
  apply (substr_of_the_whole_string Sample.env (Sample.chunk_heap 1 Sample.a_e_b)
           (Sample.chunk_string 1 Sample.a_e_b) Sample.a_e_b [7; 7; 7; 7; 7] 3
           (sample_chunk_string_ok 1 Sample.a_e_b) eq_refl sample_a_e_b_units).
  cbn. lia.
Defined.

(** ** Reading one byte *)

(** [ecma_string_get_byte_at_pos] returns the byte of the logical string at
    the index, for every container, and reads outside the buffer exactly
    when the index is not below the size. *)
Theorem byte_at_pos_reads_the_logical_string E h s (bytes : list Z) index :
  string_ok E h s → logical_bytes E h s = Some bytes →
  0 ≤ index →
  ecma_string_get_byte_at_pos E h s index = bytes !! Z.to_nat index.
Proof.
  intros Hok Hb Hidx. unfold ecma_string_get_byte_at_pos.
  rewrite (get_size_logical E h s bytes Hok Hb). cbn [mbind option_bind].
  rewrite (to_utf8_string_logical E h s bytes _ _ Hok Hb).
  rewrite bool_decide_eq_true_2 by exact Hidx.
  destruct bytes as [|c bytes].
  - rewrite bool_decide_eq_false_2 by (cbn; lia). cbn [mbind option_bind].
    reflexivity.
  - rewrite bool_decide_eq_true_2 by (cbn [length]; lia). cbn [mbind option_bind].
    rewrite (drop_ge (local_array _)) by (rewrite local_array_length; lia).
    rewrite app_nil_r. reflexivity.
Qed.

Lemma byte_at_pos_witness :
  ecma_string_get_byte_at_pos Sample.env (Sample.chunk_heap 1 Sample.a_e_b)
    (Sample.chunk_string 1 Sample.a_e_b) 2 = Some 169
  ∧ ecma_string_get_byte_at_pos Sample.env (Sample.chunk_heap 1 Sample.a_e_b)
      (Sample.chunk_string 1 Sample.a_e_b) 4 = None.
Proof.
  split.
  - apply (byte_at_pos_reads_the_logical_string Sample.env _ _ Sample.a_e_b 2
             (sample_chunk_string_ok 1 Sample.a_e_b) eq_refl). lia.
  - apply (byte_at_pos_reads_the_logical_string Sample.env _ _ Sample.a_e_b 4
             (sample_chunk_string_ok 1 Sample.a_e_b) eq_refl). lia.
Defined.

(** ** Strings and numbers *)

Lemma to_number_of_text E h s (bytes : list Z) :
  string_ok E h s → logical_bytes E h s = Some bytes →
  container s ≠ ECMA_STRING_CONTAINER_UINT32_IN_DESC →
  container s ≠ ECMA_STRING_CONTAINER_HEAP_NUMBER →
  ecma_string_to_number E h s
  = Some (if bool_decide (bytes = []) then ECMA_NUMBER_ZERO E
          else ecma_utf8_string_to_number E bytes).
Proof.
  intros Hok Hb Hc1 Hc2.
  assert (Hgen :
    (string_size ← ecma_string_get_size E h s;
     if string_size =? 0
     then Some (ECMA_NUMBER_ZERO E)
     else
       '(_, str_buffer_p) ←
         ecma_string_to_utf8_string E h s (local_array string_size) string_size;
       Some (ecma_utf8_string_to_number E (take (Z.to_nat string_size) str_buffer_p)))
    = Some (if bool_decide (bytes = []) then ECMA_NUMBER_ZERO E
            else ecma_utf8_string_to_number E bytes)).
  { rewrite (get_size_logical E h s bytes Hok Hb). cbn [mbind option_bind].
    destruct bytes as [|c bytes]; [reflexivity|].
    destruct (Z.eqb_spec (Z.of_nat (length (c :: bytes))) 0) as [H0|_];
      [cbn in H0; lia|].
    rewrite (to_utf8_string_logical E h s (c :: bytes) _ _ Hok Hb).
    rewrite bool_decide_eq_true_2 by (cbn [length]; lia). cbn [mbind option_bind].
    rewrite Nat2Z.id, (take_app_length (c :: bytes)).
    rewrite bool_decide_eq_false_2 by discriminate. reflexivity. }
  unfold ecma_string_to_number.
  destruct (container s); try exact Hgen; contradiction.
Qed.

(** The number of a well-formed string: the number kept in the descriptor
    or in the cell for the two number containers, and for every other
    container zero when the string is empty and otherwise what the
    converter of the engine makes of exactly the logical bytes. *)
Theorem to_number_reads_the_logical_string E h s (bytes : list Z) :
  string_ok E h s → logical_bytes E h s = Some bytes →
  ∃ num,
    ecma_string_to_number E h s = Some num ∧
    match container s with
    | ECMA_STRING_CONTAINER_UINT32_IN_DESC =>
        num = ecma_uint32_to_number E (common_field s)
    | ECMA_STRING_CONTAINER_HEAP_NUMBER =>
        numbers h !! common_field s = Some num ∧
        bytes = ecma_number_to_utf8_string E num
    | _ =>
        num = if bool_decide (bytes = []) then ECMA_NUMBER_ZERO E
              else ecma_utf8_string_to_number E bytes
    end.
Proof.
  intros Hok Hb.
  destruct (container s) eqn:Hc.
  1,2,5,6: (eexists; split; [|reflexivity];
            apply to_number_of_text; [exact Hok|exact Hb|rewrite Hc; discriminate
                                     |rewrite Hc; discriminate]).
  - unfold ecma_string_to_number, logical_bytes in *. rewrite Hc in *.
    destruct (numbers h !! common_field s) as [num|]; [|discriminate].
    cbn in Hb. injection Hb as <-. exists num. split; [reflexivity|]. split; reflexivity.
  - unfold ecma_string_to_number. rewrite Hc. eexists. split; reflexivity.
Qed.

Lemma to_number_witness :
  ∃ num,
    ecma_string_to_number Sample.env (Sample.chunk_heap 1 [52; 50])
      (Sample.chunk_string 1 [52; 50]) = Some num ∧
    num = 42.
Proof.
  apply (to_number_reads_the_logical_string Sample.env (Sample.chunk_heap 1 [52; 50])
           (Sample.chunk_string 1 [52; 50]) [52; 50]
           (sample_chunk_string_ok 1 [52; 50]) eq_refl).
Defined.


(** ** Size and length *)

(** The length of a well-formed string in code units is never more than
    its size in bytes, and both are defined. *)
Theorem length_is_at_most_size E h s :
  string_ok E h s →
  ∃ l sz,
    ecma_string_get_length E h s = Some l ∧
    ecma_string_get_size E h s = Some sz ∧
    0 ≤ l ≤ sz.
Proof.
  intros Hok. destruct Hok as ([bytes Hb] & Hrest).
  assert (Hok : string_ok E h s) by (split; [exists bytes; exact Hb|exact Hrest]).
  destruct (get_length_logical E h s bytes Hok Hb) as (l & Hl & Hle & _).
  exists l, (Z.of_nat (length bytes)).
  split; [exact Hl|]. split; [exact (get_size_logical E h s bytes Hok Hb)|exact Hle].
Qed.

Lemma length_is_at_most_size_witness :
  ∃ l sz,
    ecma_string_get_length Sample.env (Sample.chunk_heap 1 Sample.a_e_b)
      (Sample.chunk_string 1 Sample.a_e_b) = Some l ∧
    ecma_string_get_size Sample.env (Sample.chunk_heap 1 Sample.a_e_b)
      (Sample.chunk_string 1 Sample.a_e_b) = Some sz ∧
    0 ≤ l ≤ sz.
Proof.
  apply (length_is_at_most_size Sample.env (Sample.chunk_heap 1 Sample.a_e_b)
           (Sample.chunk_string 1 Sample.a_e_b) (sample_chunk_string_ok 1 Sample.a_e_b)).
Defined.

(** ** Strings of literals *)

Lemma magic_table_get_lt tbl id (m : list Z) :
  magic_table_get tbl id = Some m → (id <? Z.of_nat (length tbl)) = true.
Proof.
  unfold magic_table_get. destruct (bool_decide (0 ≤ id)) eqn:Hid; [|discriminate].
  apply bool_decide_eq_true in Hid. intros Hl. apply lookup_lt_Some in Hl.
  apply Z.ltb_lt. lia.
Qed.

(** A string built from a literal has the text of the literal: the charset
    of a charset record with the hash the record caches, the table entry of
    a magic record with its hash.  It is a descriptor with counter 1 at an
    address that was free, and releasing it restores the heap.  The magic
    test accepts the descriptor of a magic record, in every build, with the
    identifier of the record; in a build with [JERRY_NDEBUG] it rejects the
    descriptors of the other records. *)
Theorem from_lit_cp_has_the_text_of_the_literal E h lit_cp lit (bytes : list Z) :
  lit_get_literal_by_cp E lit_cp = Some lit →
  match lit with
  | LIT_RECORD_CHARSET charset _ => bytes = charset
  | LIT_RECORD_MAGIC_STR id => lit_get_magic_string_utf8 E id = Some bytes
  | LIT_RECORD_MAGIC_STR_EX id => lit_get_magic_string_ex_utf8 E id = Some bytes
  end →
  ∃ p h' s,
    ecma_new_ecma_string_from_lit_cp E h lit_cp = Some (p, h') ∧
    strings h !! p = None ∧
    strings h' !! p = Some s ∧
    refs s = 1 ∧
    string_ok E h' s ∧
    logical_bytes E h' s = Some bytes ∧
    hash s = match lit with
             | LIT_RECORD_CHARSET _ charset_hash => charset_hash
             | _ => lit_utf8_string_calc_hash E bytes
             end ∧
    match lit with
    | LIT_RECORD_MAGIC_STR id => ecma_is_string_magic E h' s = Some (Some id)
    | _ => JERRY_NDEBUG E = true → ecma_is_string_magic E h' s = Some None
    end ∧
    ecma_deref_ecma_string E h' p = Some h.
Proof.
  intros Hlit Hbytes.
  destruct (ecma_alloc_string_fresh h) as [Hfresh _].
  unfold ecma_new_ecma_string_from_lit_cp, ecma_init_ecma_string_from_lit_cp.
  rewrite Hlit. cbn [mbind option_bind].
  destruct lit as [charset charset_hash|id|id].
  - subst bytes. cbn [mbind option_bind].
    eexists _, _, _. split; [reflexivity|]. split; [exact Hfresh|].
    split; [apply heap_set_string_lookup|]. split; [reflexivity|].
    assert (Hb : lit_charset_literal_get_charset E lit_cp = Some charset).
    { unfold lit_charset_literal_get_charset. rewrite Hlit. reflexivity. }
    split.
    { split; [exists charset; exact Hb|]. split; intros Hc; discriminate Hc. }
    split; [exact Hb|]. split; [reflexivity|].
    split.
    { intros Hrelease. unfold ecma_is_string_magic, JERRY_ASSERT.
      rewrite Hrelease. reflexivity. }
    apply deref_last_in_descriptor; [exact Hfresh|reflexivity|discriminate|discriminate].
  - unfold ecma_init_ecma_string_from_magic_string_id. rewrite Hbytes.
    cbn [mbind option_bind].
    eexists _, _, _. split; [reflexivity|]. split; [exact Hfresh|].
    split; [apply heap_set_string_lookup|]. split; [reflexivity|].
    split.
    { split; [exists bytes; exact Hbytes|]. split; intros Hc; discriminate Hc. }
    split; [exact Hbytes|]. split; [reflexivity|].
    split.
    { unfold ecma_is_string_magic, JERRY_ASSERT, LIT_MAGIC_STRING__COUNT.
      cbn [container common_field].
      rewrite bool_decide_eq_true_2 by reflexivity.
      rewrite (magic_table_get_lt _ _ _ Hbytes).
      destruct (JERRY_NDEBUG E); reflexivity. }
    apply deref_last_in_descriptor; [exact Hfresh|reflexivity|discriminate|discriminate].
  - unfold ecma_init_ecma_string_from_magic_string_ex_id. rewrite Hbytes.
    cbn [mbind option_bind].
    eexists _, _, _. split; [reflexivity|]. split; [exact Hfresh|].
    split; [apply heap_set_string_lookup|]. split; [reflexivity|].
    split.
    { split; [exists bytes; exact Hbytes|]. split; intros Hc; discriminate Hc. }
    split; [exact Hbytes|]. split; [reflexivity|].
    split.
    { intros Hrelease. unfold ecma_is_string_magic, JERRY_ASSERT.
      rewrite Hrelease. reflexivity. }
    apply deref_last_in_descriptor; [exact Hfresh|reflexivity|discriminate|discriminate].
Qed.

Lemma from_lit_cp_witness :
  ∃ p h' s,
    ecma_new_ecma_string_from_lit_cp Sample.debug_env Sample.empty_heap 2 = Some (p, h') ∧
    strings Sample.empty_heap !! p = None ∧
    strings h' !! p = Some s ∧
    refs s = 1 ∧
    string_ok Sample.debug_env h' s ∧
    logical_bytes Sample.debug_env h' s = Some [108; 101; 110; 103; 116; 104] ∧
    hash s = Sample.calc_hash [108; 101; 110; 103; 116; 104] ∧
    ecma_is_string_magic Sample.debug_env h' s = Some (Some 1) ∧
    ecma_deref_ecma_string Sample.debug_env h' p = Some Sample.empty_heap.
Proof.
  apply (from_lit_cp_has_the_text_of_the_literal Sample.debug_env Sample.empty_heap 2
           (LIT_RECORD_MAGIC_STR 1) [108; 101; 110; 103; 116; 104]); reflexivity.
Defined.

(** ** The long path of the magic test *)

(** On a string built from at least 1 and at most
    [LIT_MAGIC_STRING_LENGTH_LIMIT] bytes, the search of the built-in table
    that [ecma_is_string_magic] asserts about agrees with its fast test, so
    the assertion holds and the test returns, in every build, what the
    search of the table answers for the bytes. *)
Theorem magic_long_path_agrees_on_built_strings E h (bytes : list Z) :
  Z.of_nat (length bytes) < 2 ^ 16 →
  0 < Z.of_nat (length bytes) ≤ LIT_MAGIC_STRING_LENGTH_LIMIT E →
  ∃ p h' s,
    ecma_new_ecma_string_from_utf8 E h bytes = Some (p, h') ∧
    strings h' !! p = Some s ∧
    ecma_is_string_magic_longpath E h' s = Some (lit_is_utf8_string_magic E bytes) ∧
    ecma_is_string_magic E h' s = Some (lit_is_utf8_string_magic E bytes).
Proof.
  intros Hlen Hlimit.
  destruct (from_utf8_spec E h bytes Hlen)
    as (s & h' & Hf & Hstr & _ & Hok & Hb & _ & _ & Hk).
  assert (Hs : strings h' !! ecma_alloc_string h = Some s)
    by (rewrite Hstr; apply lookup_insert_eq).
  exists (ecma_alloc_string h), h', s.
  split; [exact Hf|]. split; [exact Hs|].
  assert (Hlong : ecma_is_string_magic_longpath E h' s
                  = Some (lit_is_utf8_string_magic E bytes)).
  { unfold ecma_is_string_magic_longpath.
    rewrite (to_utf8_string_logical E h' s bytes _ _ Hok Hb).
    rewrite bool_decide_eq_true_2 by lia. cbn [mbind option_bind].
    assert (Hassert : JERRY_ASSERT E (Some (0 <? Z.of_nat (length bytes))) = Some tt).
    { unfold JERRY_ASSERT. destruct (Z.ltb_spec 0 (Z.of_nat (length bytes))); [|lia].
      destruct (JERRY_NDEBUG E); reflexivity. }
    rewrite Hassert. cbn [mbind option_bind].
    unfold to_uint32. rewrite Z.mod_small by lia.
    rewrite bool_decide_eq_true_2 by (rewrite length_app; lia).
    rewrite Nat2Z.id, (take_app_length bytes). reflexivity. }
  split; [exact Hlong|].
  destruct (get_length_logical E h' s bytes Hok Hb) as (l & Hl & Hlbound & _).
  (* the container tells what the search of the table answers *)
  assert (Hcase : (container s = ECMA_STRING_CONTAINER_MAGIC_STRING ∧
                   lit_is_utf8_string_magic E bytes = Some (common_field s))
                  ∨ (container s ≠ ECMA_STRING_CONTAINER_MAGIC_STRING ∧
                     lit_is_utf8_string_magic E bytes = None)).
  { revert Hf Hs. unfold ecma_new_ecma_string_from_utf8.
    destruct (lit_is_utf8_string_magic E bytes) as [id|] eqn:Hm.
    { unfold ecma_get_magic_string, ecma_new_ecma_string_from_magic_string_id,
        ecma_init_ecma_string_from_magic_string_id, lit_get_magic_string_utf8.
      rewrite (magic_table_find_get _ _ _ Hm). cbn [mbind option_bind].
      intros Hf Hs. injection Hf as <-. rewrite heap_set_string_lookup in Hs.
      injection Hs as <-. left. split; reflexivity. }
    destruct (lit_is_ex_utf8_string_magic E bytes) as [id|] eqn:Hex.
    { unfold ecma_get_magic_string_ex, ecma_new_ecma_string_from_magic_string_ex_id,
        ecma_init_ecma_string_from_magic_string_ex_id, lit_get_magic_string_ex_utf8.
      rewrite (magic_table_find_get _ _ _ Hex). cbn [mbind option_bind].
      intros Hf Hs. injection Hf as <-. rewrite heap_set_string_lookup in Hs.
      injection Hs as <-. right. split; [discriminate|reflexivity]. }
    intros Hf Hs. injection Hf as <-. rewrite heap_set_string_lookup in Hs.
    injection Hs as <-. right. split; [discriminate|reflexivity]. }
  unfold ecma_is_string_magic.
  destruct Hcase as [[Hc Hm]|[Hc Hm]].
  - rewrite bool_decide_eq_true_2 by exact Hc. rewrite Hm.
    pose proof (magic_table_find_get _ _ _ Hm) as Hget.
    unfold JERRY_ASSERT, LIT_MAGIC_STRING__COUNT.
    rewrite (magic_table_get_lt _ _ _ Hget).
    destruct (JERRY_NDEBUG E); reflexivity.
  - rewrite bool_decide_eq_false_2 by exact Hc.
    rewrite Hl, Hlong, Hm. cbn [mbind option_bind].
    unfold JERRY_ASSERT.
    destruct (JERRY_NDEBUG E); [reflexivity|].
    destruct (LIT_MAGIC_STRING_LENGTH_LIMIT E <? l); reflexivity.
Qed.

Lemma magic_long_path_witness :
  ∃ p h' s,
    ecma_new_ecma_string_from_utf8 Sample.debug_env Sample.empty_heap [104; 105]
      = Some (p, h') ∧
    strings h' !! p = Some s ∧
    ecma_is_string_magic_longpath Sample.debug_env h' s = Some None ∧
    ecma_is_string_magic Sample.debug_env h' s = Some None.
Proof.
  apply (magic_long_path_agrees_on_built_strings Sample.debug_env Sample.empty_heap
           [104; 105]).
  - cbn. lia.
  - cbn. lia.
Defined.

(** ** Trimming *)



Lemma get_magic_string_empty E h :
  magic_empty_ok E →
  ecma_get_magic_string E h (LIT_MAGIC_STRING__EMPTY E)
  = ecma_new_ecma_string_from_utf8 E h [].
Proof.
  intros Hm. unfold ecma_new_ecma_string_from_utf8. rewrite Hm. reflexivity.
Qed.

(** What [ecma_string_trim] builds, given where its two loops end. *)
Lemma trim_builds E T h s (bytes : list Z) fuel i j :
  string_ok E h s → logical_bytes E h s = Some bytes →
  Z.of_nat (length bytes) < 2 ^ 16 →
  magic_empty_ok E →
  trim_front T fuel bytes 0 (Z.of_nat (length bytes)) = Some i →
  trim_back T fuel bytes (Z.of_nat (length bytes)) = Some j →
  builds E h
    (if i <? j then take (Z.to_nat (j - i)) (drop (Z.to_nat i) bytes) else [])
    (ecma_string_trim E T fuel h s) ∧
  ∀ p h', ecma_string_trim E T fuel h s = Some (p, h') → blocks h' = blocks h.
Proof.
  intros Hok Hb Hlen Hempty Hi Hj.
  assert (Hxlen : Z.of_nat (length
            (if i <? j then take (Z.to_nat (j - i)) (drop (Z.to_nat i) bytes) else []))
          < 2 ^ 16).
  { destruct (i <? j); [rewrite length_take, length_drop|cbn]; lia. }
  unfold ecma_string_trim.
  rewrite (get_size_logical E h s bytes Hok Hb). cbn [mbind option_bind].
  destruct (Z.ltb_spec 0 (Z.of_nat (length bytes))) as [Hpos|Hzero].
  - set (number := Z.of_nat (length bytes)) in *.
    rewrite (surjective_pairing (MEM_DEFINE_LOCAL_ARRAY h number)).
    set (h1 := (MEM_DEFINE_LOCAL_ARRAY h number).2).
    assert (Hext1 : heap_extends h h1) by apply heap_extends_set_block.
    pose proof (string_ok_extends E h h1 s Hext1 Hok) as Hok1.
    pose proof (logical_bytes_extends E h h1 s bytes Hext1 Hb) as Hb1.
    rewrite (to_utf8_string_logical E h1 s bytes _ _ Hok1 Hb1).
    rewrite bool_decide_eq_true_2 by lia. cbn [mbind option_bind].
    rewrite (drop_ge (local_array _)) by (rewrite local_array_length; lia).
    rewrite app_nil_r, Hi, Hj. cbn [mbind option_bind].
    assert (Hbody :
      (if i <? j
       then ecma_new_ecma_string_from_utf8 E h1
              (take (Z.to_nat (j - i)) (drop (Z.to_nat i) bytes))
       else ecma_get_magic_string E h1 (LIT_MAGIC_STRING__EMPTY E))
      = ecma_new_ecma_string_from_utf8 E h1
          (if i <? j then take (Z.to_nat (j - i)) (drop (Z.to_nat i) bytes) else [])).
    { destruct (i <? j); [reflexivity|apply get_magic_string_empty; exact Hempty]. }
    rewrite Hbody.
    apply (builds_under_local_array E h _ number).
    + lia.
    + apply from_utf8_builds. exact Hxlen.
    + intros p h2 Hf.
      destruct (from_utf8_keeps_blocks E h1 _ p h2 Hf) as [Hblocks Hchunks].
      split; [exact Hblocks|].
      rewrite Hchunks.
      * exact (proj1 (mem_heap_alloc_block_fresh h number)).
      * exists (local_array number). cbn. apply lookup_insert_eq.
  - assert (Hnil : bytes = []) by (destruct bytes; [reflexivity|cbn in Hzero; lia]).
    subst bytes.
    assert (Hx : (if i <? j then take (Z.to_nat (j - i)) (drop (Z.to_nat i) []) else [])
                 = @nil Z).
    { destruct (i <? j); [rewrite drop_nil; apply take_nil|reflexivity]. }
    rewrite Hx, (get_magic_string_empty E h Hempty).
    split; [apply from_utf8_builds; cbn; lia|].
    intros p h' Hf. apply (from_utf8_keeps_blocks E h [] p h' Hf).
Qed.



(** *** Text of one-byte code units *)

Lemma skip_leading_length f (l : list Z) : (length (skip_leading f l) ≤ length l)%nat.
Proof.
  induction l as [|c l IH]; [cbn; lia|].
  cbn [skip_leading]. destruct (f c); cbn [length] in *; lia.
Qed.

Lemma skip_leading_split f (l : list Z) :
  ∃ w, l = w ++ skip_leading f l ∧ Forall (λ c, f c = true) w.
Proof.
  induction l as [|c l (w & Hl & Hw)].
  - exists []. split; [reflexivity|constructor].
  - cbn [skip_leading]. destruct (f c) eqn:Hc.
    + exists (c :: w). split; [cbn; congruence|constructor; assumption].
    + exists []. split; [reflexivity|constructor].
Qed.

Lemma skip_leading_all f (w l : list Z) :
  Forall (λ c, f c = true) w → skip_leading f (w ++ l) = skip_leading f l.
Proof.
  induction 1 as [|c w Hc _ IH]; [reflexivity|].
  cbn [app skip_leading]. rewrite Hc. exact IH.
Qed.

Lemma skip_leading_app f (a b : list Z) :
  skip_leading f a ≠ [] → skip_leading f (a ++ b) = skip_leading f a ++ b.
Proof.
  induction a as [|c a IH]; [intros Hne; contradiction|].
  cbn [app skip_leading]. destruct (f c); [exact IH|reflexivity].
Qed.

Lemma skip_leading_head f (l : list Z) c r :
  skip_leading f l = c :: r → f c = false.
Proof.
  induction l as [|d l IH]; [discriminate|].
  cbn [skip_leading]. destruct (f d) eqn:Hd; [exact IH|].
  intros Heq. injection Heq as -> _. exact Hd.
Qed.

Lemma skip_leading_last f (l : list Z) c :
  f c = false → skip_leading f (l ++ [c]) ≠ [].
Proof.
  intros Hc. induction l as [|d l IH].
  - cbn. rewrite Hc. discriminate.
  - cbn [app skip_leading]. destruct (f d); [exact IH|discriminate].
Qed.

(** The front loop over one-byte code units ends after the leading white
    space. *)
Lemma trim_front_one_byte T (rest : list Z) :
  Forall (λ c, ∀ l, lit_read_code_unit_from_utf8 T (c :: l) = (1%nat, c)) rest →
  ∀ (pre : list Z) fuel,
    (length rest ≤ fuel)%nat →
    trim_front T fuel (pre ++ rest) (Z.of_nat (length pre))
      (Z.of_nat (length (pre ++ rest)))
    = Some (Z.of_nat (length (pre ++ rest)
                      - length (skip_leading (λ ch, negb (trim_stops_at T ch)) rest))).
Proof.
  induction 1 as [|c rest Hc _ IH]; intros pre fuel Hfuel.
  - rewrite app_nil_r. cbn [skip_leading length]. rewrite Nat.sub_0_r.
    destruct fuel; cbn [trim_front]; rewrite Z.ltb_irrefl; reflexivity.
  - destruct fuel as [|fuel]; [cbn in Hfuel; lia|].
    cbn [trim_front].
    destruct (Z.ltb_spec (Z.of_nat (length pre)) (Z.of_nat (length (pre ++ c :: rest))))
      as [_|Hge]; [|rewrite length_app in Hge; cbn in Hge; lia].
    rewrite Nat2Z.id, (drop_app_length pre), Hc.
    cbn [skip_leading].
    destruct (trim_stops_at T c) eqn:Hstop; cbn [negb].
    + f_equal. rewrite length_app. lia.
    + replace (Z.of_nat (length pre) + Z.of_nat 1) with (Z.of_nat (length (pre ++ [c])))
        by (rewrite length_app; cbn; lia).
      replace (pre ++ c :: rest) with ((pre ++ [c]) ++ rest)
        by (rewrite <- app_assoc; reflexivity).
      apply IH. cbn in Hfuel. lia.
Qed.

(** The back loop over one-byte code units ends before the trailing white
    space. *)
Lemma trim_back_one_byte T (pre : list Z) :
  Forall (λ c, ∀ l, lit_read_prev_code_unit_from_utf8 T (l ++ [c]) = (1%nat, c)) pre →
  ∀ (post : list Z) fuel,
    (length pre ≤ fuel)%nat →
    trim_back T fuel (pre ++ post) (Z.of_nat (length pre))
    = Some (Z.of_nat (length (skip_leading (λ ch, negb (trim_stops_at T ch)) (rev pre)))).
Proof.
  induction pre as [|c pre IH] using rev_ind; intros Hread post fuel Hfuel.
  - destruct fuel; reflexivity.
  - apply Forall_app in Hread. destruct Hread as [Hpre Hc].
    inversion Hc as [|? ? Hcread _]; subst.
    destruct fuel as [|fuel]; [rewrite length_app in Hfuel; cbn in Hfuel; lia|].
    cbn [trim_back].
    destruct (Z.ltb_spec 0 (Z.of_nat (length (pre ++ [c])))) as [_|Hle];
      [|rewrite length_app in Hle; cbn in Hle; lia].
    rewrite Nat2Z.id, (take_app_length (pre ++ [c])), Hcread.
    rewrite rev_app_distr. cbn [rev app skip_leading].
    destruct (trim_stops_at T c) eqn:Hstop; cbn [negb].
    + f_equal. rewrite length_app. cbn [length]. rewrite length_rev. lia.
    + replace (Z.of_nat (length (pre ++ [c])) - Z.of_nat 1) with (Z.of_nat (length pre))
        by (rewrite length_app; cbn; lia).
      rewrite <- app_assoc. cbn [app].
      apply (IH Hpre). rewrite length_app in Hfuel. cbn in Hfuel. lia.
Qed.

(** The byte range between the two cursors is the trimmed string. *)
Lemma trimmed_range T (bytes : list Z) :
  let skipped := λ ch, negb (trim_stops_at T ch) in
  let i := Z.of_nat (length bytes - length (skip_leading skipped bytes)) in
  let j := Z.of_nat (length (skip_leading skipped (rev bytes))) in
  (if i <? j then take (Z.to_nat (j - i)) (drop (Z.to_nat i) bytes) else [])
  = trimmed_bytes T bytes.
Proof.
  intros skipped i j. unfold trimmed_bytes. fold skipped.
  destruct (skip_leading_split skipped bytes) as (w & Hsplit & Hw).
  pose proof (skip_leading_length skipped bytes) as Hle.
  destruct (skip_leading skipped bytes) as [|d rest] eqn:Hskip.
  - (* nothing but white space *)
    rewrite app_nil_r in Hsplit. subst w.
    assert (Hrev : skip_leading skipped (rev bytes) = []).
    { rewrite <- (app_nil_r (rev bytes)). rewrite skip_leading_all; [reflexivity|].
      apply Forall_forall. intros c Hin. apply list_elem_of_In, in_rev in Hin.
      rewrite Forall_forall in Hw. apply Hw. apply list_elem_of_In. exact Hin. }
    unfold j. rewrite Hrev. cbn [length rev skip_leading].
    destruct (Z.ltb_spec i (Z.of_nat 0)) as [Hlt|_]; [unfold i in Hlt; lia|reflexivity].
  - pose proof (skip_leading_head skipped bytes d rest Hskip) as Hd.
    assert (Hne : skip_leading skipped (rev (d :: rest)) ≠ []).
    { cbn [rev]. apply skip_leading_last. exact Hd. }
    assert (Hlenw : length bytes = (length w + length (d :: rest))%nat).
    { rewrite Hsplit at 1. apply length_app. }
    assert (Hrev : skip_leading skipped (rev bytes)
                   = skip_leading skipped (rev (d :: rest)) ++ rev w).
    { rewrite Hsplit at 1. rewrite rev_app_distr. apply skip_leading_app. exact Hne. }
    destruct (skip_leading_split skipped (rev (d :: rest))) as (v & Hv & _).
    set (r := skip_leading skipped (rev (d :: rest))) in *.
    assert (Hd' : d :: rest = rev r ++ rev v).
    { rewrite <- (rev_involutive (d :: rest)), Hv. apply rev_app_distr. }
    assert (Hi : i = Z.of_nat (length w)) by (unfold i; lia).
    assert (Hj : j = Z.of_nat (length r + length w)).
    { unfold j. rewrite Hrev, length_app, length_rev. reflexivity. }
    assert (Hrpos : (0 < length r)%nat) by (destruct r; [contradiction|cbn; lia]).
    rewrite Hi, Hj.
    destruct (Z.ltb_spec (Z.of_nat (length w)) (Z.of_nat (length r + length w))) as [_|Hge];
      [|lia].
    replace (Z.to_nat (Z.of_nat (length r + length w) - Z.of_nat (length w)))
      with (length (rev r)) by (rewrite length_rev; lia).
    rewrite Nat2Z.id. rewrite Hsplit at 1. rewrite (drop_app_length w), Hd'.
    apply take_app_length.
Qed.

(** For text of one-byte code units (each reader, on a byte of the string,
    consumes that byte and returns it), [ecma_string_trim] builds the
    string without its leading and trailing white space and line
    terminators: the result is a new descriptor with counter 1 whose
    logical string is the trimmed bytes, with their hash, and the scratch
    array is given back. *)
Theorem trim_removes_outer_white_space E T h s (bytes : list Z) fuel :
  string_ok E h s → logical_bytes E h s = Some bytes →
  Z.of_nat (length bytes) < 2 ^ 16 →
  magic_empty_ok E →
  Forall (λ c, ∀ l, lit_read_code_unit_from_utf8 T (c :: l) = (1%nat, c)) bytes →
  Forall (λ c, ∀ l, lit_read_prev_code_unit_from_utf8 T (l ++ [c]) = (1%nat, c)) bytes →
  (length bytes ≤ fuel)%nat →
  ∃ p h' c,
    ecma_string_trim E T fuel h s = Some (p, h') ∧
    strings h !! p = None ∧
    strings h' !! p = Some c ∧
    refs c = 1 ∧
    heap_extends h h' ∧
    blocks h' = blocks h ∧
    logical_bytes E h' c = Some (trimmed_bytes T bytes) ∧
    hash c = lit_utf8_string_calc_hash E (trimmed_bytes T bytes).
Proof.
  intros Hok Hb Hlen Hempty Hfront Hback Hfuel.
  pose proof (trim_front_one_byte T bytes Hfront [] fuel Hfuel) as Hi.
  pose proof (trim_back_one_byte T bytes Hback [] fuel Hfuel) as Hj.
  cbn [app length] in Hi. rewrite app_nil_r in Hj.
  destruct (trim_builds E T h s bytes fuel _ _ Hok Hb Hlen Hempty Hi Hj)
    as [(c & h' & Hnew & Hstr & Hext & _ & Hbc & Hh & Hrefs & _) Hblocks].
  rewrite (trimmed_range T bytes) in Hbc, Hh.
  destruct (ecma_alloc_string_fresh h) as [Hfresh _].
  exists (ecma_alloc_string h), h', c.
  split; [exact Hnew|]. split; [exact Hfresh|].
  split; [rewrite Hstr; apply lookup_insert_eq|].
  split; [exact Hrefs|]. split; [exact Hext|].
  split; [exact (Hblocks _ _ Hnew)|]. split; [exact Hbc|exact Hh].
Qed.

Lemma sample_one_byte_readers (bytes : list Z) :
  Forall (λ c, ∀ l, lit_read_code_unit_from_utf8 SampleText.env (c :: l) = (1%nat, c)) bytes
  ∧ Forall (λ c, ∀ l, lit_read_prev_code_unit_from_utf8 SampleText.env (l ++ [c])
                      = (1%nat, c)) bytes.
Proof.
  split; apply Forall_forall; intros c _ l; [reflexivity|].
  cbn. unfold SampleText.read_prev_code_unit. rewrite last_last. reflexivity.
Defined.

Lemma trim_removes_outer_white_space_witness :
  ∃ p h' c,
    ecma_string_trim Sample.env SampleText.env 5
      (Sample.chunk_heap 1 [32; 32; 104; 105; 10])
      (Sample.chunk_string 1 [32; 32; 104; 105; 10]) = Some (p, h') ∧
    strings (Sample.chunk_heap 1 [32; 32; 104; 105; 10]) !! p = None ∧
    strings h' !! p = Some c ∧
    refs c = 1 ∧
    heap_extends (Sample.chunk_heap 1 [32; 32; 104; 105; 10]) h' ∧
    blocks h' = blocks (Sample.chunk_heap 1 [32; 32; 104; 105; 10]) ∧
    logical_bytes Sample.env h' c = Some [104; 105] ∧
    hash c = lit_utf8_string_calc_hash Sample.env [104; 105].
Proof.
  apply (trim_removes_outer_white_space Sample.env SampleText.env
           (Sample.chunk_heap 1 [32; 32; 104; 105; 10])
           (Sample.chunk_string 1 [32; 32; 104; 105; 10]) [32; 32; 104; 105; 10] 5
           (sample_chunk_string_ok 1 [32; 32; 104; 105; 10]) eq_refl).
  - cbn. lia.
  - reflexivity.
  - apply sample_one_byte_readers.
  - apply sample_one_byte_readers.
  - cbn. lia.
Defined.
